(** * stock-optimizer-pro: the calculation pipeline of [src/lib/calculations.ts]

    A shallow embedding of the MCDM core (min-max normalisation, mappings,
    aggregation, entropy weights, TOPSIS, fuzzy TOPSIS, ABC classification,
    correlation matrix) and the properties its specification states.

    Numbers.  A JavaScript [number] is modelled as a real number of the
    Standard Library: [+ - * /] are the field operations, [Math.sqrt] is
    [sqrt], [Math.log] is [ln], [x ** 2] is [x ^ 2] and [===] on numbers is
    the decidable equality of [R].  Rounding, [NaN] and the infinities of
    IEEE doubles are outside this model; every property below is a property
    of the arithmetic the code writes down.

    Objects used as dictionaries ([Record<string, number>]) are finite maps
    [gmap string _] keyed by their own properties; arrays are lists. *)

From Stdlib Require Import Reals Lra Lia.
From stdpp Require Import base option list sorting strings gmap.

Open Scope R_scope.

(** ** Numbers and array helpers *)

#[global] Instance R_eq_dec : EqDecision R := Req_dec_T.
#[global] Instance R_inhabited : Inhabited R := populate 0.
#[global] Instance Rlt_decision (x y : R) : Decision (x < y) := Rlt_dec x y.

(** [arr.reduce((acc, x, i) => f(acc, x, i), init)]: a left fold that also
    passes the index of the element. *)
Fixpoint reduce_from {A B : Type} (f : B -> A -> nat -> B) (i : nat)
    (l : list A) (acc : B) : B :=
  match l with
  | [] => acc
  | x :: l' => reduce_from f (S i) l' (f acc x i)
  end.

Definition reduce {A B : Type} (f : B -> A -> nat -> B) (l : list A) (init : B) : B :=
  reduce_from f 0 l init.

(** [Math.min(...values)] and [Math.max(...values)].  On the empty array
    JavaScript answers [Infinity] and [-Infinity], which [R] does not have;
    the embedding answers 0 there.  Every use below applies the result only
    inside a [map] (stdpp's [<$>]) over the same array, so the value on [[]] is never read. *)
Definition Math_min (values : list R) : R :=
  match values with
  | [] => 0
  | v :: vs => fold_left Rmin vs v
  end.

Definition Math_max (values : list R) : R :=
  match values with
  | [] => 0
  | v :: vs => fold_left Rmax vs v
  end.

(** [arr[i]] is stdpp's total lookup [arr !!! i].  Out of range JavaScript
    answers [undefined]; the embedding answers the default inhabitant.  All
    reads of the pipeline are in range (see [minMaxNormalize_length]). *)

(** ** Data model ([src/store/analysisStore.ts]) *)

Inductive ABC : Set := A | B | C.

#[global] Instance ABC_eq_dec : EqDecision ABC.
Proof. solve_decision. Defined.

Record InventoryItem : Type := mkItem {
  id : Z;
  Risk : string;
  Demand_fluctuation : string;
  Average_stock : R;
  Daily_usage : R;
  Unit_cost : R;
  Lead_time : R;
  Consignment_stock : string;
  Unit_size : string;
  (* computed values, absent until a stage writes them *)
  Risk_Score : option R;
  Fluctuation_Score : option R;
  Consignment_Score : option R;
  Size_Score : option R;
  Criticality_Agg : option R;
  Demand_Agg : option R;
  Supply_Agg : option R;
  TOPSIS_Score : option R;
  Fuzzy_TOPSIS_Score : option R;
  ML_Predicted_Class : option string;
  Class : option ABC;
  Fuzzy_Class : option ABC
}.

Record MappingTable : Type := mkMappingTable {
  map_Risk : gmap string R;
  map_Demand_fluctuation : gmap string R;
  map_Consignment_stock : gmap string R;
  map_Unit_size : gmap string R
}.

Record WeightPair_Criticality : Type := { w_Risk : R; w_Fluctuation : R }.
Record WeightPair_Demand : Type := { w_DailyUsage : R; w_AverageStock : R }.
Record WeightPair_Supply : Type := { w_LeadTime : R; w_Consignment : R }.

Record AggregationWeights : Type := mkAggregationWeights {
  Criticality : WeightPair_Criticality;
  Demand : WeightPair_Demand;
  Supply : WeightPair_Supply
}.

(** A triangular fuzzy number [[l, m, u]]. *)
Definition TFN : Type := (R * R * R)%type.

Record FuzzyTFN : Type := mkFuzzyTFN {
  tfn_Risk : gmap string TFN;
  tfn_Demand_fluctuation : gmap string TFN;
  tfn_Consignment_stock : gmap string TFN;
  tfn_Unit_size : gmap string TFN
}.

Record EntropyWeights : Type := mkEntropyWeights {
  ew_Criticality_Agg : R;
  ew_Demand_Agg : R;
  ew_Supply_Agg : R;
  ew_Unit_cost : R;
  ew_Size_Score : R
}.

Record Thresholds : Type := mkThresholds { th_A : R; th_B : R; th_C : R }.

(** The [scoreField] argument of [classifyABC]:
    ['TOPSIS_Score' | 'Fuzzy_TOPSIS_Score']. *)
Inductive ScoreField : Set := SF_TOPSIS_Score | SF_Fuzzy_TOPSIS_Score.

Definition ScoreField_key (sf : ScoreField) : string :=
  match sf with
  | SF_TOPSIS_Score => "TOPSIS_Score"
  | SF_Fuzzy_TOPSIS_Score => "Fuzzy_TOPSIS_Score"
  end.

(** ** [getValue] *)

(** [x ?? 0] on an optional number. *)
Definition nullish0 (x : option R) : R := default 0 x.

Definition getValue (item : InventoryItem) (key : string) : R :=
  if String.eqb key "Risk_Score" then nullish0 (Risk_Score item)
  else if String.eqb key "Fluctuation_Score" then nullish0 (Fluctuation_Score item)
  else if String.eqb key "Consignment_Score" then nullish0 (Consignment_Score item)
  else if String.eqb key "Size_Score" then nullish0 (Size_Score item)
  else if String.eqb key "Criticality_Agg" then nullish0 (Criticality_Agg item)
  else if String.eqb key "Demand_Agg" then nullish0 (Demand_Agg item)
  else if String.eqb key "Supply_Agg" then nullish0 (Supply_Agg item)
  else if String.eqb key "Unit cost" then Unit_cost item
  else if String.eqb key "Average stock" then Average_stock item
  else if String.eqb key "Daily usage" then Daily_usage item
  else if String.eqb key "Lead time" then Lead_time item
  else if String.eqb key "TOPSIS_Score" then nullish0 (TOPSIS_Score item)
  else if String.eqb key "Fuzzy_TOPSIS_Score" then nullish0 (Fuzzy_TOPSIS_Score item)
  else 0.

(** ** [minMaxNormalize] *)

Definition minMaxNormalize (values : list R) : list R :=
  let min := Math_min values in
  let max := Math_max values in
  if decide (max = min) then (fun _ => 0.5) <$> values
  else (fun v => (v - min) / (max - min)) <$> values.

(** ** Object spread with overwritten fields

    [{ ...item, f: v }] copies every field of [item] and sets [f]. *)

Definition with_Scores (item : InventoryItem) (rs fs cs ss : R) : InventoryItem :=
  {| id := id item; Risk := Risk item;
     Demand_fluctuation := Demand_fluctuation item;
     Average_stock := Average_stock item; Daily_usage := Daily_usage item;
     Unit_cost := Unit_cost item; Lead_time := Lead_time item;
     Consignment_stock := Consignment_stock item; Unit_size := Unit_size item;
     Risk_Score := Some rs; Fluctuation_Score := Some fs;
     Consignment_Score := Some cs; Size_Score := Some ss;
     Criticality_Agg := Criticality_Agg item; Demand_Agg := Demand_Agg item;
     Supply_Agg := Supply_Agg item; TOPSIS_Score := TOPSIS_Score item;
     Fuzzy_TOPSIS_Score := Fuzzy_TOPSIS_Score item;
     ML_Predicted_Class := ML_Predicted_Class item;
     Class := Class item; Fuzzy_Class := Fuzzy_Class item |}.

Definition with_Aggs (item : InventoryItem) (ca da sa : R) : InventoryItem :=
  {| id := id item; Risk := Risk item;
     Demand_fluctuation := Demand_fluctuation item;
     Average_stock := Average_stock item; Daily_usage := Daily_usage item;
     Unit_cost := Unit_cost item; Lead_time := Lead_time item;
     Consignment_stock := Consignment_stock item; Unit_size := Unit_size item;
     Risk_Score := Risk_Score item; Fluctuation_Score := Fluctuation_Score item;
     Consignment_Score := Consignment_Score item; Size_Score := Size_Score item;
     Criticality_Agg := Some ca; Demand_Agg := Some da; Supply_Agg := Some sa;
     TOPSIS_Score := TOPSIS_Score item;
     Fuzzy_TOPSIS_Score := Fuzzy_TOPSIS_Score item;
     ML_Predicted_Class := ML_Predicted_Class item;
     Class := Class item; Fuzzy_Class := Fuzzy_Class item |}.

Definition with_TOPSIS_Score (item : InventoryItem) (score : R) : InventoryItem :=
  {| id := id item; Risk := Risk item;
     Demand_fluctuation := Demand_fluctuation item;
     Average_stock := Average_stock item; Daily_usage := Daily_usage item;
     Unit_cost := Unit_cost item; Lead_time := Lead_time item;
     Consignment_stock := Consignment_stock item; Unit_size := Unit_size item;
     Risk_Score := Risk_Score item; Fluctuation_Score := Fluctuation_Score item;
     Consignment_Score := Consignment_Score item; Size_Score := Size_Score item;
     Criticality_Agg := Criticality_Agg item; Demand_Agg := Demand_Agg item;
     Supply_Agg := Supply_Agg item; TOPSIS_Score := Some score;
     Fuzzy_TOPSIS_Score := Fuzzy_TOPSIS_Score item;
     ML_Predicted_Class := ML_Predicted_Class item;
     Class := Class item; Fuzzy_Class := Fuzzy_Class item |}.

Definition with_Fuzzy_TOPSIS_Score (item : InventoryItem) (score : R) : InventoryItem :=
  {| id := id item; Risk := Risk item;
     Demand_fluctuation := Demand_fluctuation item;
     Average_stock := Average_stock item; Daily_usage := Daily_usage item;
     Unit_cost := Unit_cost item; Lead_time := Lead_time item;
     Consignment_stock := Consignment_stock item; Unit_size := Unit_size item;
     Risk_Score := Risk_Score item; Fluctuation_Score := Fluctuation_Score item;
     Consignment_Score := Consignment_Score item; Size_Score := Size_Score item;
     Criticality_Agg := Criticality_Agg item; Demand_Agg := Demand_Agg item;
     Supply_Agg := Supply_Agg item; TOPSIS_Score := TOPSIS_Score item;
     Fuzzy_TOPSIS_Score := Some score;
     ML_Predicted_Class := ML_Predicted_Class item;
     Class := Class item; Fuzzy_Class := Fuzzy_Class item |}.

Definition with_Class (item : InventoryItem) (c : ABC) : InventoryItem :=
  {| id := id item; Risk := Risk item;
     Demand_fluctuation := Demand_fluctuation item;
     Average_stock := Average_stock item; Daily_usage := Daily_usage item;
     Unit_cost := Unit_cost item; Lead_time := Lead_time item;
     Consignment_stock := Consignment_stock item; Unit_size := Unit_size item;
     Risk_Score := Risk_Score item; Fluctuation_Score := Fluctuation_Score item;
     Consignment_Score := Consignment_Score item; Size_Score := Size_Score item;
     Criticality_Agg := Criticality_Agg item; Demand_Agg := Demand_Agg item;
     Supply_Agg := Supply_Agg item; TOPSIS_Score := TOPSIS_Score item;
     Fuzzy_TOPSIS_Score := Fuzzy_TOPSIS_Score item;
     ML_Predicted_Class := ML_Predicted_Class item;
     Class := Some c; Fuzzy_Class := Fuzzy_Class item |}.

Definition with_Fuzzy_Class (item : InventoryItem) (c : ABC) : InventoryItem :=
  {| id := id item; Risk := Risk item;
     Demand_fluctuation := Demand_fluctuation item;
     Average_stock := Average_stock item; Daily_usage := Daily_usage item;
     Unit_cost := Unit_cost item; Lead_time := Lead_time item;
     Consignment_stock := Consignment_stock item; Unit_size := Unit_size item;
     Risk_Score := Risk_Score item; Fluctuation_Score := Fluctuation_Score item;
     Consignment_Score := Consignment_Score item; Size_Score := Size_Score item;
     Criticality_Agg := Criticality_Agg item; Demand_Agg := Demand_Agg item;
     Supply_Agg := Supply_Agg item; TOPSIS_Score := TOPSIS_Score item;
     Fuzzy_TOPSIS_Score := Fuzzy_TOPSIS_Score item;
     ML_Predicted_Class := ML_Predicted_Class item;
     Class := Class item; Fuzzy_Class := Some c |}.

#[global] Instance InventoryItem_inhabited : Inhabited InventoryItem :=
  populate (mkItem 0 "" "" 0 0 0 0 "" "" None None None None None None None
                   None None None None None).

(** ** [applyMappings] *)

Definition applyMappings (data : list InventoryItem) (mappings : MappingTable)
  : list InventoryItem :=
  (fun item =>
     with_Scores item
       (default 0 (map_Risk mappings !! Risk item))
       (default 0 (map_Demand_fluctuation mappings !! Demand_fluctuation item))
       (default 0 (map_Consignment_stock mappings !! Consignment_stock item))
       (default 0 (map_Unit_size mappings !! Unit_size item)))
  <$> data.

(** ** [calculateAggregations] *)

Definition calculateAggregations (data : list InventoryItem)
    (weights : AggregationWeights) : list InventoryItem :=
  let dailyUsage := Daily_usage <$> data in
  let avgStock := Average_stock <$> data in
  let leadTime := Lead_time <$> data in
  let normDailyUsage := minMaxNormalize dailyUsage in
  let normAvgStock := minMaxNormalize avgStock in
  let normLeadTime := minMaxNormalize leadTime in
  imap (fun idx item =>
          with_Aggs item
            (w_Risk (Criticality weights) * nullish0 (Risk_Score item) +
             w_Fluctuation (Criticality weights) * nullish0 (Fluctuation_Score item))
            (w_DailyUsage (Demand weights) * normDailyUsage !!! idx +
             w_AverageStock (Demand weights) * normAvgStock !!! idx)
            (w_LeadTime (Supply weights) * normLeadTime !!! idx +
             w_Consignment (Supply weights) * nullish0 (Consignment_Score item)))
       data.

(** ** Local records keyed by criterion

    [const rec: Record<string, V> = {}; keys.forEach((c) => { rec[c] = f(c) })]
    is the list of the pairs [(c, f c)] in insertion order (the keys used
    below are pairwise distinct); [rec[c]] reads the entry of key [c] and
    [Object.values(rec)] lists the values in insertion order. *)

Definition Record_build {V : Type} (keys : list string) (f : string -> V)
  : list (string * V) :=
  (fun c => (c, f c)) <$> keys.

Definition Record_get {V : Type} `{Inhabited V} (rec : list (string * V))
    (key : string) : V :=
  match List.find (fun kv => String.eqb (fst kv) key) rec with
  | Some kv => snd kv
  | None => inhabitant
  end.

Definition Object_values {V : Type} (rec : list (string * V)) : list V :=
  snd <$> rec.

(** The five columns of the decision matrix. *)
Definition criteria : list string :=
  ["Criticality_Agg"; "Demand_Agg"; "Supply_Agg"; "Unit cost"; "Size_Score"].

(** ** [calculateEntropyWeights] *)

Definition entropy_matrices (data : list InventoryItem) : list (string * list R) :=
  Record_build criteria (fun c =>
    let values := (fun d => getValue d c) <$> data in
    (fun v => v + 0.0001) <$> minMaxNormalize values).

Definition entropy_proportions (data : list InventoryItem) : list (string * list R) :=
  let matrices := entropy_matrices data in
  Record_build criteria (fun c =>
    let sum := reduce (fun a b _ => a + b) (Record_get matrices c) 0 in
    (fun v => v / sum) <$> Record_get matrices c).

Definition entropy_entropy (data : list InventoryItem) : list (string * R) :=
  let n := length data in
  let k := 1 / ln (INR n) in
  let proportions := entropy_proportions data in
  Record_build criteria (fun c =>
    - k * reduce (fun sum p _ => sum + p * ln p) (Record_get proportions c) 0).

Definition entropy_diversity (data : list InventoryItem) : list (string * R) :=
  let entropy := entropy_entropy data in
  Record_build criteria (fun c => 1 - Record_get entropy c).

Definition calculateEntropyWeights (data : list InventoryItem) : EntropyWeights :=
  let diversity := entropy_diversity data in
  let totalDiversity := reduce (fun a b _ => a + b) (Object_values diversity) 0 in
  {| ew_Criticality_Agg := Record_get diversity "Criticality_Agg" / totalDiversity;
     ew_Demand_Agg := Record_get diversity "Demand_Agg" / totalDiversity;
     ew_Supply_Agg := Record_get diversity "Supply_Agg" / totalDiversity;
     ew_Unit_cost := Record_get diversity "Unit cost" / totalDiversity;
     ew_Size_Score := Record_get diversity "Size_Score" / totalDiversity |}.

(** ** [calculateTOPSIS] *)

Definition benefitCriteria : list string :=
  ["Criticality_Agg"; "Demand_Agg"; "Size_Score"].

(** [arr.includes(c)] on an array of strings. *)
Definition includes (arr : list string) (c : string) : bool :=
  existsb (String.eqb c) arr.

(** [weights[c]] for a criterion name [c]; only the five names of
    [criteria] are ever read. *)
Definition EntropyWeights_get (weights : EntropyWeights) (c : string) : R :=
  if String.eqb c "Criticality_Agg" then ew_Criticality_Agg weights
  else if String.eqb c "Demand_Agg" then ew_Demand_Agg weights
  else if String.eqb c "Supply_Agg" then ew_Supply_Agg weights
  else if String.eqb c "Unit cost" then ew_Unit_cost weights
  else if String.eqb c "Size_Score" then ew_Size_Score weights
  else 0.

Definition topsis_matrix (data : list InventoryItem) : list (list R) :=
  (fun item => (fun c => getValue item c) <$> criteria) <$> data.

Definition topsis_colSums (data : list InventoryItem) : list R :=
  let matrix := topsis_matrix data in
  imap (fun i _ => sqrt (reduce (fun sum row _ => sum + (row !!! i) ^ 2) matrix 0))
       criteria.

Definition topsis_normalizedMatrix (data : list InventoryItem) : list (list R) :=
  let matrix := topsis_matrix data in
  let colSums := topsis_colSums data in
  (fun row =>
     imap (fun i val => if decide (colSums !!! i = 0) then 0 else val / colSums !!! i) row)
  <$> matrix.

Definition topsis_weightedMatrix (data : list InventoryItem) (weights : EntropyWeights)
  : list (list R) :=
  let normalizedMatrix := topsis_normalizedMatrix data in
  let weightValues := (fun c => EntropyWeights_get weights c) <$> criteria in
  (fun row => imap (fun i val => val * weightValues !!! i) row) <$> normalizedMatrix.

Definition topsis_idealBest (data : list InventoryItem) (weights : EntropyWeights)
  : list R :=
  let weightedMatrix := topsis_weightedMatrix data weights in
  imap (fun i c =>
          let col := (fun row => row !!! i) <$> weightedMatrix in
          if includes benefitCriteria c then Math_max col else Math_min col)
       criteria.

Definition topsis_idealWorst (data : list InventoryItem) (weights : EntropyWeights)
  : list R :=
  let weightedMatrix := topsis_weightedMatrix data weights in
  imap (fun i c =>
          let col := (fun row => row !!! i) <$> weightedMatrix in
          if includes benefitCriteria c then Math_min col else Math_max col)
       criteria.

(** [d / (dBest + dWorst)] of one weighted row. *)
Definition topsis_score (row idealBest idealWorst : list R) : R :=
  let dBest := sqrt (reduce (fun sum val i => sum + (val - idealBest !!! i) ^ 2) row 0) in
  let dWorst := sqrt (reduce (fun sum val i => sum + (val - idealWorst !!! i) ^ 2) row 0) in
  dWorst / (dBest + dWorst).

Definition calculateTOPSIS (data : list InventoryItem) (weights : EntropyWeights)
  : list InventoryItem :=
  let weightedMatrix := topsis_weightedMatrix data weights in
  let idealBest := topsis_idealBest data weights in
  let idealWorst := topsis_idealWorst data weights in
  imap (fun idx item =>
          let score := topsis_score (weightedMatrix !!! idx) idealBest idealWorst in
          with_TOPSIS_Score item score)
       data.

(** ** [classifyABC] *)

(** [[...data].sort(cmp)]: the sort of ECMAScript is stable and puts [a]
    before [b] when [cmp(a, b) < 0]; with a comparator that is a difference
    of scores the result is the one of this insertion sort. *)
Fixpoint sort_insert {T : Type} (cmp : T -> T -> R) (x : T) (l : list T) : list T :=
  match l with
  | [] => [x]
  | y :: l' => if decide (0 < cmp x y) then y :: sort_insert cmp x l' else x :: l
  end.

Definition Array_sort {T : Type} (cmp : T -> T -> R) (l : list T) : list T :=
  foldr (sort_insert cmp) [] l.

Definition classifyABC (data : list InventoryItem) (thresholds : Thresholds)
    (scoreField : ScoreField) : list InventoryItem :=
  let key := ScoreField_key scoreField in
  let sorted := Array_sort (fun a b => getValue b key - getValue a key) data in
  let n := length sorted in
  let idxA := Zfloor (INR n * th_A thresholds / 100) in
  let idxB := Zfloor (INR n * (th_A thresholds + th_B thresholds) / 100) in
  imap (fun idx item =>
          let cls := if decide (Z.of_nat idx < idxA)%Z then A
                     else if decide (Z.of_nat idx < idxB)%Z then B else C in
          match scoreField with
          | SF_TOPSIS_Score => with_Class item cls
          | SF_Fuzzy_TOPSIS_Score => with_Fuzzy_Class item cls
          end)
       sorted.

(** ** [applyFuzzyMappings] and [calculateFuzzyTOPSIS] *)

Record FuzzyValues : Type := mkFuzzyValues {
  fv_Risk : TFN;
  fv_Demand_fluctuation : TFN;
  fv_Consignment_stock : TFN;
  fv_Unit_size : TFN
}.

Record FuzzyMapped : Type := mkFuzzyMapped {
  fm_item : InventoryItem;
  fuzzyValues : FuzzyValues
}.

#[global] Instance FuzzyMapped_inhabited : Inhabited FuzzyMapped :=
  populate (mkFuzzyMapped inhabitant
              (mkFuzzyValues (0, 0, 0) (0, 0, 0) (0, 0, 0) (0, 0, 0))).

Definition applyFuzzyMappings (data : list InventoryItem) (tfn : FuzzyTFN)
  : list FuzzyMapped :=
  (fun item =>
     {| fm_item := item;
        fuzzyValues :=
          {| fv_Risk := default (0, 0, 0) (tfn_Risk tfn !! Risk item);
             fv_Demand_fluctuation :=
               default (0, 0, 0) (tfn_Demand_fluctuation tfn !! Demand_fluctuation item);
             fv_Consignment_stock :=
               default (0, 0, 0) (tfn_Consignment_stock tfn !! Consignment_stock item);
             fv_Unit_size := default (0, 0, 0) (tfn_Unit_size tfn !! Unit_size item) |} |})
  <$> data.

(** Components [t[0]], [t[1]], [t[2]] and [t.map(f)] of a 3-tuple. *)
Definition tfn0 (t : TFN) : R := fst (fst t).
Definition tfn1 (t : TFN) : R := snd (fst t).
Definition tfn2 (t : TFN) : R := snd t.
Definition tfn_map (f : R -> R) (t : TFN) : TFN := (f (tfn0 t), f (tfn1 t), f (tfn2 t)).

Definition nCrit : R := 8.
Definition fuzzy_weight : R := 1 / nCrit.
Definition fpisBase : TFN := (1, 1, 1).
Definition fnisBase : TFN := (0, 0, 0).

(** One round of the [criteriaMatrix.forEach] loop on the two running sums
    [(dPosSqSum, dNegSqSum)]. *)
Definition fuzzy_step (acc : R * R) (tfnVal : TFN) : R * R :=
  let wTfn := tfn_map (fun v => v * fuzzy_weight) tfnVal in
  let wIdealBest := tfn_map (fun v => v * fuzzy_weight) fpisBase in
  let wIdealWorst := tfn_map (fun v => v * fuzzy_weight) fnisBase in
  let dPosSq :=
    ((tfn0 wTfn - tfn0 wIdealBest) ^ 2 +
     (tfn1 wTfn - tfn1 wIdealBest) ^ 2 +
     (tfn2 wTfn - tfn2 wIdealBest) ^ 2) / 3 in
  let dNegSq :=
    ((tfn0 wTfn - tfn0 wIdealWorst) ^ 2 +
     (tfn1 wTfn - tfn1 wIdealWorst) ^ 2 +
     (tfn2 wTfn - tfn2 wIdealWorst) ^ 2) / 3 in
  (fst acc + dPosSq, snd acc + dNegSq).

(** The 8-row fuzzy criteria matrix of the item at index [idx]. *)
Definition fuzzy_criteriaMatrix (data : list InventoryItem) (tfn : FuzzyTFN)
    (idx : nat) : list TFN :=
  let fuzzyData := applyFuzzyMappings data tfn in
  let normDailyUsage := minMaxNormalize (Daily_usage <$> data) in
  let normAvgStock := minMaxNormalize (Average_stock <$> data) in
  let normUnitCost := minMaxNormalize (Unit_cost <$> data) in
  let normLeadTime := minMaxNormalize (Lead_time <$> data) in
  let fuzzy := fuzzyValues (fuzzyData !!! idx) in
  [ fv_Risk fuzzy;
    fv_Demand_fluctuation fuzzy;
    (normAvgStock !!! idx, normAvgStock !!! idx, normAvgStock !!! idx);
    (normDailyUsage !!! idx, normDailyUsage !!! idx, normDailyUsage !!! idx);
    (normUnitCost !!! idx, normUnitCost !!! idx, normUnitCost !!! idx);
    (normLeadTime !!! idx, normLeadTime !!! idx, normLeadTime !!! idx);
    fv_Consignment_stock fuzzy;
    fv_Unit_size fuzzy ].

(** The pair [(dPos, dNeg)] of the item at index [idx]. *)
Definition fuzzy_distances (data : list InventoryItem) (tfn : FuzzyTFN)
    (idx : nat) : R * R :=
  let sums := foldl fuzzy_step (0, 0) (fuzzy_criteriaMatrix data tfn idx) in
  (sqrt (fst sums), sqrt (snd sums)).

Definition calculateFuzzyTOPSIS (data : list InventoryItem) (tfn : FuzzyTFN)
  : list InventoryItem :=
  imap (fun idx item =>
          let dPos := fst (fuzzy_distances data tfn idx) in
          let dNeg := snd (fuzzy_distances data tfn idx) in
          let score := dNeg / (dPos + dNeg) in
          with_Fuzzy_TOPSIS_Score item score)
       data.

(** ** [calculateCorrelationMatrix] *)

Definition corr_values (data : list InventoryItem) (columns : list string)
  : list (list R) :=
  (fun col => (fun d => getValue d col) <$> data) <$> columns.

Definition corr_means (data : list InventoryItem) (columns : list string) : list R :=
  let n := INR (length data) in
  (fun col => reduce (fun a b _ => a + b) col 0 / n) <$> corr_values data columns.

(** The population variance of column [i], whose values are [col]. *)
Definition corr_variance (data : list InventoryItem) (columns : list string)
    (i : nat) (col : list R) : R :=
  let n := INR (length data) in
  let means := corr_means data columns in
  reduce (fun sum v _ => sum + (v - means !!! i) ^ 2) col 0 / n.

Definition corr_stds (data : list InventoryItem) (columns : list string) : list R :=
  imap (fun i col =>
          let variance := corr_variance data columns i col in
          sqrt variance)
       (corr_values data columns).

(** The entry computed for the column pair [(i, j)]. *)
Definition corr_entry (data : list InventoryItem) (columns : list string)
    (i j : nat) : R :=
  let n := INR (length data) in
  let values := corr_values data columns in
  let means := corr_means data columns in
  let stds := corr_stds data columns in
  if decide (stds !!! i = 0 \/ stds !!! j = 0) then 0
  else
    let cov :=
      reduce (fun sum v k =>
                sum + (v - means !!! i) * ((values !!! j) !!! k - means !!! j))
             (values !!! i) 0 / n in
    cov / (stds !!! i * stds !!! j).

Record Correlation : Type := mkCorrelation {
  matrix : list (list R);
  labels : list string
}.

Definition calculateCorrelationMatrix (data : list InventoryItem)
    (columns : list string) : Correlation :=
  {| matrix := imap (fun i _ => imap (fun j _ => corr_entry data columns i j) columns)
                    columns;
     labels := columns |}.

(** ** Mathematical counterparts used in the statements

    The definitions of this part follow the words of the specification, not
    the code; the properties below relate the code to them. *)

(** The value of [l.reduce((a, b) => a + b, 0)], written as a recursive sum
    (see [reduce_plus]). *)
Definition Rsum (l : list R) : R := foldr Rplus 0 l.

(** The vertex-method squared distance between a TFN and an ideal TFN, both
    weighted by [w]:
    [((w*l - w*l')^2 + (w*m - w*m')^2 + (w*u - w*u')^2) / 3]. *)
Definition vertex_sq (w : R) (t ideal : TFN) : R :=
  ((tfn0 t * w - tfn0 ideal * w) ^ 2 +
   (tfn1 t * w - tfn1 ideal * w) ^ 2 +
   (tfn2 t * w - tfn2 ideal * w) ^ 2) / 3.

(** Pearson correlation.  Mean, covariance and standard deviation (population, divided by [n]) of
    numeric features [f], [g] of the items, and their Pearson coefficient
    with the degenerate case answered by 0. *)
Definition mean (f : InventoryItem -> R) (data : list InventoryItem) : R :=
  Rsum (f <$> data) / INR (length data).

Definition covariance (f g : InventoryItem -> R) (data : list InventoryItem) : R :=
  Rsum ((fun d => (f d - mean f data) * (g d - mean g data)) <$> data)
  / INR (length data).

Definition std_dev (f : InventoryItem -> R) (data : list InventoryItem) : R :=
  sqrt (covariance f f data).

Definition pearson (f g : InventoryItem -> R) (data : list InventoryItem) : R :=
  if decide (std_dev f data = 0 \/ std_dev g data = 0) then 0
  else covariance f g data / (std_dev f data * std_dev g data).

(** The criterion column [c] of the dataset takes two distinct values. *)
Definition two_distinct_values (data : list InventoryItem) (c : string) : Prop :=
  exists d1 d2, d1 ∈ data /\ d2 ∈ data /\ getValue d1 c <> getValue d2 c.

(** The comparator [(a, b) => score(b) - score(a)] and the order it sorts
    by: [a] may stand before [b] when its score is not smaller. *)
Definition score_cmp {T : Type} (score : T -> R) : T -> T -> R :=
  fun a b => score b - score a.

Definition score_ge {T : Type} (score : T -> R) (a b : T) : Prop :=
  score b <= score a.

(** The shifted, normalized column of criterion [c] that the entropy
    weighting works on. *)
Definition entropy_column (data : list InventoryItem) (c : string) : list R :=
  (fun v => v + 0.0001) <$> minMaxNormalize ((fun d => getValue d c) <$> data).

(** ** Frames: which fields of an item an operation may change *)

Inductive Field : Set :=
  | F_id | F_Risk | F_Demand_fluctuation | F_Average_stock | F_Daily_usage
  | F_Unit_cost | F_Lead_time | F_Consignment_stock | F_Unit_size
  | F_Risk_Score | F_Fluctuation_Score | F_Consignment_Score | F_Size_Score
  | F_Criticality_Agg | F_Demand_Agg | F_Supply_Agg
  | F_TOPSIS_Score | F_Fuzzy_TOPSIS_Score | F_ML_Predicted_Class
  | F_Class | F_Fuzzy_Class.

Inductive FieldValue : Type :=
  | V_int (z : Z)
  | V_string (s : string)
  | V_number (r : R)
  | V_opt_number (o : option R)
  | V_opt_string (o : option string)
  | V_opt_class (o : option ABC).

Definition get_field (f : Field) (item : InventoryItem) : FieldValue :=
  match f with
  | F_id => V_int (id item)
  | F_Risk => V_string (Risk item)
  | F_Demand_fluctuation => V_string (Demand_fluctuation item)
  | F_Average_stock => V_number (Average_stock item)
  | F_Daily_usage => V_number (Daily_usage item)
  | F_Unit_cost => V_number (Unit_cost item)
  | F_Lead_time => V_number (Lead_time item)
  | F_Consignment_stock => V_string (Consignment_stock item)
  | F_Unit_size => V_string (Unit_size item)
  | F_Risk_Score => V_opt_number (Risk_Score item)
  | F_Fluctuation_Score => V_opt_number (Fluctuation_Score item)
  | F_Consignment_Score => V_opt_number (Consignment_Score item)
  | F_Size_Score => V_opt_number (Size_Score item)
  | F_Criticality_Agg => V_opt_number (Criticality_Agg item)
  | F_Demand_Agg => V_opt_number (Demand_Agg item)
  | F_Supply_Agg => V_opt_number (Supply_Agg item)
  | F_TOPSIS_Score => V_opt_number (TOPSIS_Score item)
  | F_Fuzzy_TOPSIS_Score => V_opt_number (Fuzzy_TOPSIS_Score item)
  | F_ML_Predicted_Class => V_opt_string (ML_Predicted_Class item)
  | F_Class => V_opt_class (Class item)
  | F_Fuzzy_Class => V_opt_class (Fuzzy_Class item)
  end.

(** [b] agrees with [a] on every field outside [written]. *)
Definition unchanged_except (written : list Field) (a b : InventoryItem) : Prop :=
  forall f : Field, f ∉ written -> get_field f b = get_field f a.

(** [id] and the eight raw attributes are the same in [a] and [b]. *)
Definition same_raw (a b : InventoryItem) : Prop :=
  id b = id a /\ Risk b = Risk a
  /\ Demand_fluctuation b = Demand_fluctuation a
  /\ Average_stock b = Average_stock a /\ Daily_usage b = Daily_usage a
  /\ Unit_cost b = Unit_cost a /\ Lead_time b = Lead_time a
  /\ Consignment_stock b = Consignment_stock a /\ Unit_size b = Unit_size a.

(** An operation that maps the item list [input] to [output] position by
    position and writes only the fields of [written]. *)
Definition frame (written : list Field) (input output : list InventoryItem) : Prop :=
  Forall2 (fun a b => unchanged_except written a b /\ same_raw a b) input output.

(** The field [classifyABC] writes for a score field. *)
Definition class_field (scoreField : ScoreField) : Field :=
  match scoreField with
  | SF_TOPSIS_Score => F_Class
  | SF_Fuzzy_TOPSIS_Score => F_Fuzzy_Class
  end.

(** The class of rank [idx] for cut-offs [idxA] and [idxB]. *)
Definition rank_class (idxA idxB : Z) (idx : nat) : ABC :=
  if decide (Z.of_nat idx < idxA)%Z then A
  else if decide (Z.of_nat idx < idxB)%Z then B else C.

Definition set_class (scoreField : ScoreField) (item : InventoryItem) (c : ABC)
  : InventoryItem :=
  match scoreField with
  | SF_TOPSIS_Score => with_Class item c
  | SF_Fuzzy_TOPSIS_Score => with_Fuzzy_Class item c
  end.

(** The class field selected by the score field. *)
Definition class_of (scoreField : ScoreField) (item : InventoryItem) : option ABC :=
  match scoreField with
  | SF_TOPSIS_Score => Class item
  | SF_Fuzzy_TOPSIS_Score => Fuzzy_Class item
  end.

(** ** Sample data *)

(** Concrete inputs on which the statements below are exercised. *)
Definition sample_item (i : Z) (risk : string) (stock usage cost lead : R)
  : InventoryItem :=
  mkItem i risk "Stable" stock usage cost lead "No" "Large"
         None None None None None None None None None None None None.

Definition sample_mappings : MappingTable :=
  {| map_Risk := <["High" := 0.47]> (<["Normal" := 0.35]> (<["Low" := 0.18]> ∅));
     map_Demand_fluctuation := <["Stable" := 0.28]> ∅;
     map_Consignment_stock := <["No" := 0.80]> (<["Yes" := 0.20]> ∅);
     map_Unit_size := <["Large" := 0.53]> ∅ |}.

Definition sample_tfn : FuzzyTFN :=
  {| tfn_Risk := <["High" := (0.7, 0.9, 1.0)]> ∅;
     tfn_Demand_fluctuation := <["Stable" := (0.4, 0.6, 0.8)]> ∅;
     tfn_Consignment_stock := <["No" := (0.6, 0.8, 1.0)]> ∅;
     tfn_Unit_size := <["Large" := (0.6, 0.8, 1.0)]> ∅ |}.

Definition sample_item_1 : InventoryItem := sample_item 1 "High" 10 2 3 7.
Definition sample_item_2 : InventoryItem := sample_item 2 "Extreme" 30 4 4 3.

Definition sample_data : list InventoryItem := [ sample_item_1; sample_item_2 ].

Definition sample_entropy_weights : EntropyWeights :=
  {| ew_Criticality_Agg := 0.2; ew_Demand_Agg := 0.2; ew_Supply_Agg := 0.2;
     ew_Unit_cost := 0.2; ew_Size_Score := 0.2 |}.

Definition sample_weights : AggregationWeights :=
  {| Criticality := {| w_Risk := 0.78; w_Fluctuation := 0.22 |};
     Demand := {| w_DailyUsage := 0.71; w_AverageStock := 0.29 |};
     Supply := {| w_LeadTime := 0.75; w_Consignment := 0.25 |} |}.

(** Ten items that already carry a crisp score. *)
Definition scored_item (i : Z) (score : R) : InventoryItem :=
  mkItem i "High" "Stable" 1 1 1 1 "No" "Large"
         None None None None None None None (Some score) None None None None.

Definition sample_ranked : list InventoryItem :=
  [ scored_item 1 0.31; scored_item 2 0.92; scored_item 3 0.55; scored_item 4 0.12;
    scored_item 5 0.78; scored_item 6 0.55; scored_item 7 0.40; scored_item 8 0.05;
    scored_item 9 0.66; scored_item 10 0.23 ].

Definition sample_thresholds : Thresholds := {| th_A := 20; th_B := 30; th_C := 50 |}.

(** Two aggregated items that differ in each of the five criteria. *)
Definition aggregated_item (i : Z) (ca da sa cost size : R) : InventoryItem :=
  mkItem i "High" "Stable" 1 1 cost 1 "No" "Large"
         None None None (Some size) (Some ca) (Some da) (Some sa)
         None None None None None.

Definition sample_aggregated : list InventoryItem :=
  [ aggregated_item 1 0.1 0.2 0.3 3 0.13; aggregated_item 2 0.4 0.5 0.6 4 0.53 ].

Definition sample_thresholds_negative_B : Thresholds :=
  {| th_A := 50; th_B := -30; th_C := 80 |}.

(** ** Conventional configurations

    The configurations the interface produces: table scores in [0,1] and
    weight pairs that are non-negative and sum to 1. *)
Definition table_in_unit (table : gmap string R) : Prop :=
  map_Forall (fun _ v => 0 <= v <= 1) table.

Definition mappings_in_unit (mappings : MappingTable) : Prop :=
  table_in_unit (map_Risk mappings)
  /\ table_in_unit (map_Demand_fluctuation mappings)
  /\ table_in_unit (map_Consignment_stock mappings)
  /\ table_in_unit (map_Unit_size mappings).

Definition weights_convex (weights : AggregationWeights) : Prop :=
  (0 <= w_Risk (Criticality weights) /\ 0 <= w_Fluctuation (Criticality weights)
   /\ w_Risk (Criticality weights) + w_Fluctuation (Criticality weights) = 1)
  /\ (0 <= w_DailyUsage (Demand weights) /\ 0 <= w_AverageStock (Demand weights)
      /\ w_DailyUsage (Demand weights) + w_AverageStock (Demand weights) = 1)
  /\ (0 <= w_LeadTime (Supply weights) /\ 0 <= w_Consignment (Supply weights)
      /\ w_LeadTime (Supply weights) + w_Consignment (Supply weights) = 1).

(** The criterion column [c] of the dataset is constant. *)
Definition constant_column (data : list InventoryItem) (c : string) : Prop :=
  forall d1 d2, d1 ∈ data -> d2 ∈ data -> getValue d1 c = getValue d2 c.

(** Two items of which only the unit cost differs. *)
Definition sample_cost_only : list InventoryItem :=
  [ aggregated_item 1 0.4 0.5 0.6 3 0.53; aggregated_item 2 0.4 0.5 0.6 4 0.53 ].

(** ** Class distribution of the crisp result ([TopsisClassic.tsx])

    [processedData.reduce((acc, item) => { if (item.Class) acc[item.Class]++;
    return acc; }, { A: 0, B: 0, C: 0 })]. *)
Record ClassCounts : Set := mkClassCounts { cnt_A : nat; cnt_B : nat; cnt_C : nat }.

Definition classDistribution (processedData : list InventoryItem) : ClassCounts :=
  reduce (fun acc item _ =>
            match Class item with
            | Some A => {| cnt_A := S (cnt_A acc); cnt_B := cnt_B acc; cnt_C := cnt_C acc |}
            | Some B => {| cnt_A := cnt_A acc; cnt_B := S (cnt_B acc); cnt_C := cnt_C acc |}
            | Some C => {| cnt_A := cnt_A acc; cnt_B := cnt_B acc; cnt_C := S (cnt_C acc) |}
            | None => acc
            end)
         processedData {| cnt_A := 0; cnt_B := 0; cnt_C := 0 |}.

(** The number of items whose crisp class is [c]. *)
Definition count_class (c : ABC) (l : list InventoryItem) : nat :=
  length (filter (fun o => o = Some c) (Class <$> l)).

(** ** [calculateStats] *)

Record Stats : Type := mkStats {
  st_min : R; st_max : R; st_mean : R; st_median : R; st_std : R
}.

Definition calculateStats (values : list R) : Stats :=
  let n := length values in
  if decide (n = 0%nat) then
    {| st_min := 0; st_max := 0; st_mean := 0; st_median := 0; st_std := 0 |}
  else
    let sorted := Array_sort (fun a b => a - b) values in
    let min := sorted !!! 0%nat in
    let max := sorted !!! (n - 1)%nat in
    let mean := reduce (fun a b _ => a + b) values 0 / INR n in
    let median :=
      if decide (n mod 2 = 0)%nat
      then (sorted !!! (n / 2 - 1)%nat + sorted !!! (n / 2)%nat) / 2
      else sorted !!! (n / 2)%nat in
    let variance := reduce (fun sum v _ => sum + (v - mean) ^ 2) values 0 / INR n in
    let std := sqrt variance in
    {| st_min := min; st_max := max; st_mean := mean; st_median := median;
       st_std := std |}.

(** ** Pagination of the data table ([DataImport.tsx])

    [arr.slice(start, end)] with the relative-index rules of ECMAScript for
    negative arguments, the page count and the page shown. *)
Definition Array_slice {T : Type} (l : list T) (start end_ : Z) : list T :=
  let len := Z.of_nat (length l) in
  let k := if decide (start < 0)%Z then Z.max (len + start) 0 else Z.min start len in
  let final := if decide (end_ < 0)%Z then Z.max (len + end_) 0 else Z.min end_ len in
  take (Z.to_nat (final - k)) (drop (Z.to_nat k) l).

Definition itemsPerPage : Z := 10.

Definition totalPages {T : Type} (filteredData : list T) : Z :=
  Zceil (INR (length filteredData) / IZR itemsPerPage).

Definition paginatedData {T : Type} (filteredData : list T) (currentPage : Z) : list T :=
  Array_slice filteredData ((currentPage - 1) * itemsPerPage) (currentPage * itemsPerPage).

(** ** The application store ([src/store/analysisStore.ts]) *)

Record MLMetrics : Type := mkMLMetrics {
  accuracy : R;
  precision : list (string * R);
  recall : list (string * R);
  f1Score : list (string * R);
  confusionMatrix : list (list nat);
  featureImportance : list (string * R)
}.

Record AnalysisState : Type := mkAnalysisState {
  activeSection : Z;
  rawData : list InventoryItem;
  processedData : list InventoryItem;
  mappingTables : MappingTable;
  aggregationWeights : AggregationWeights;
  fuzzyTFN : FuzzyTFN;
  entropyWeights : option EntropyWeights;
  abcThresholds : Thresholds;
  mlMetrics : option MLMetrics;
  isDataLoaded : bool;
  isTopsisCalculated : bool;
  isFuzzyCalculated : bool;
  isMLCalculated : bool
}.

Definition defaultMappingTables : MappingTable :=
  {| map_Risk := <["High" := 0.47]> (<["Normal" := 0.35]> (<["Low" := 0.18]> ∅));
     map_Demand_fluctuation :=
       <["Increasing" := 0.36]> (<["Stable" := 0.28]> (<["Unknown" := 0.20]>
       (<["Decreasing" := 0.16]> (<["Ending" := 0.00]> ∅))));
     map_Consignment_stock := <["No" := 0.80]> (<["Yes" := 0.20]> ∅);
     map_Unit_size := <["Large" := 0.53]> (<["Medium" := 0.31]> (<["Small" := 0.13]> ∅)) |}.

Definition defaultAggregationWeights : AggregationWeights :=
  {| Criticality := {| w_Risk := 0.78; w_Fluctuation := 0.22 |};
     Demand := {| w_DailyUsage := 0.71; w_AverageStock := 0.29 |};
     Supply := {| w_LeadTime := 0.75; w_Consignment := 0.25 |} |}.

Definition defaultFuzzyTFN : FuzzyTFN :=
  {| tfn_Risk :=
       <["High" := (0.7, 0.9, 1.0)]> (<["Normal" := (0.3, 0.5, 0.7)]>
       (<["Low" := (0.0, 0.1, 0.3)]> ∅));
     tfn_Demand_fluctuation :=
       <["Increasing" := (0.7, 0.9, 1.0)]> (<["Stable" := (0.4, 0.6, 0.8)]>
       (<["Unknown" := (0.2, 0.4, 0.6)]> (<["Decreasing" := (0.1, 0.2, 0.4)]>
       (<["Ending" := (0.0, 0.0, 0.1)]> ∅))));
     tfn_Consignment_stock :=
       <["No" := (0.6, 0.8, 1.0)]> (<["Yes" := (0.0, 0.2, 0.4)]> ∅);
     tfn_Unit_size :=
       <["Large" := (0.6, 0.8, 1.0)]> (<["Medium" := (0.3, 0.5, 0.7)]>
       (<["Small" := (0.0, 0.2, 0.4)]> ∅)) |}.

(** The state the store is created with. *)
Definition store_initial : AnalysisState :=
  {| activeSection := 0; rawData := []; processedData := [];
     mappingTables := defaultMappingTables;
     aggregationWeights := defaultAggregationWeights;
     fuzzyTFN := defaultFuzzyTFN;
     entropyWeights := None;
     abcThresholds := {| th_A := 20; th_B := 30; th_C := 50 |};
     mlMetrics := None;
     isDataLoaded := false; isTopsisCalculated := false;
     isFuzzyCalculated := false; isMLCalculated := false |}.

(** The actions of the store; each one is a [set] of some fields. *)
Inductive StoreAction : Type :=
  | setActiveSection (section : Z)
  | setRawData (data : list InventoryItem)
  | setProcessedData (data : list InventoryItem)
  | setMappingTables (tables : MappingTable)
  | setAggregationWeights (weights : AggregationWeights)
  | setFuzzyTFN (tfn : FuzzyTFN)
  | setEntropyWeights (weights : EntropyWeights)
  | setAbcThresholds (thresholds : Thresholds)
  | setMLMetrics (metrics : MLMetrics)
  | resetAnalysis.

Definition store_apply (a : StoreAction) (s : AnalysisState) : AnalysisState :=
  match a with
  | setActiveSection section =>
      mkAnalysisState section (rawData s) (processedData s) (mappingTables s)
        (aggregationWeights s) (fuzzyTFN s) (entropyWeights s) (abcThresholds s)
        (mlMetrics s) (isDataLoaded s) (isTopsisCalculated s) (isFuzzyCalculated s)
        (isMLCalculated s)
  | setRawData data =>
      mkAnalysisState (activeSection s) data (processedData s) (mappingTables s)
        (aggregationWeights s) (fuzzyTFN s) (entropyWeights s) (abcThresholds s)
        (mlMetrics s) (bool_decide (0 < length data)%nat) (isTopsisCalculated s)
        (isFuzzyCalculated s) (isMLCalculated s)
  | setProcessedData data =>
      mkAnalysisState (activeSection s) (rawData s) data (mappingTables s)
        (aggregationWeights s) (fuzzyTFN s) (entropyWeights s) (abcThresholds s)
        (mlMetrics s) (isDataLoaded s) (isTopsisCalculated s) (isFuzzyCalculated s)
        (isMLCalculated s)
  | setMappingTables tables =>
      mkAnalysisState (activeSection s) (rawData s) (processedData s) tables
        (aggregationWeights s) (fuzzyTFN s) (entropyWeights s) (abcThresholds s)
        (mlMetrics s) (isDataLoaded s) (isTopsisCalculated s) (isFuzzyCalculated s)
        (isMLCalculated s)
  | setAggregationWeights weights =>
      mkAnalysisState (activeSection s) (rawData s) (processedData s) (mappingTables s)
        weights (fuzzyTFN s) (entropyWeights s) (abcThresholds s)
        (mlMetrics s) (isDataLoaded s) (isTopsisCalculated s) (isFuzzyCalculated s)
        (isMLCalculated s)
  | setFuzzyTFN tfn =>
      mkAnalysisState (activeSection s) (rawData s) (processedData s) (mappingTables s)
        (aggregationWeights s) tfn (entropyWeights s) (abcThresholds s)
        (mlMetrics s) (isDataLoaded s) (isTopsisCalculated s) (isFuzzyCalculated s)
        (isMLCalculated s)
  | setEntropyWeights weights =>
      mkAnalysisState (activeSection s) (rawData s) (processedData s) (mappingTables s)
        (aggregationWeights s) (fuzzyTFN s) (Some weights) (abcThresholds s)
        (mlMetrics s) (isDataLoaded s) (isTopsisCalculated s) (isFuzzyCalculated s)
        (isMLCalculated s)
  | setAbcThresholds thresholds =>
      mkAnalysisState (activeSection s) (rawData s) (processedData s) (mappingTables s)
        (aggregationWeights s) (fuzzyTFN s) (entropyWeights s) thresholds
        (mlMetrics s) (isDataLoaded s) (isTopsisCalculated s) (isFuzzyCalculated s)
        (isMLCalculated s)
  | setMLMetrics metrics =>
      mkAnalysisState (activeSection s) (rawData s) (processedData s) (mappingTables s)
        (aggregationWeights s) (fuzzyTFN s) (entropyWeights s) (abcThresholds s)
        (Some metrics) (isDataLoaded s) (isTopsisCalculated s) (isFuzzyCalculated s)
        true
  | resetAnalysis =>
      mkAnalysisState (activeSection s) [] [] (mappingTables s)
        (aggregationWeights s) (fuzzyTFN s) None (abcThresholds s)
        None false false false false
  end.

(** The state after a sequence of actions. *)
Definition store_run (actions : list StoreAction) (s : AnalysisState) : AnalysisState :=
  foldl (fun st a => store_apply a st) s actions.

(** The slice of the state that [partialize] hands to the [persist]
    middleware, and its merge into a state when the store is rehydrated. *)
Record PersistedState : Type := mkPersistedState {
  p_rawData : list InventoryItem;
  p_processedData : list InventoryItem;
  p_mappingTables : MappingTable;
  p_aggregationWeights : AggregationWeights;
  p_fuzzyTFN : FuzzyTFN;
  p_abcThresholds : Thresholds
}.

Definition partialize (s : AnalysisState) : PersistedState :=
  {| p_rawData := rawData s; p_processedData := processedData s;
     p_mappingTables := mappingTables s;
     p_aggregationWeights := aggregationWeights s;
     p_fuzzyTFN := fuzzyTFN s; p_abcThresholds := abcThresholds s |}.

Definition rehydrate (p : PersistedState) (s : AnalysisState) : AnalysisState :=
  mkAnalysisState (activeSection s) (p_rawData p) (p_processedData p)
    (p_mappingTables p) (p_aggregationWeights p) (p_fuzzyTFN p) (entropyWeights s)
    (p_abcThresholds p) (mlMetrics s) (isDataLoaded s) (isTopsisCalculated s)
    (isFuzzyCalculated s) (isMLCalculated s).

(** ** Editing the configuration ([Transformation.tsx]) *)

(** [prev[table]] for one of the four sub-tables. *)
Definition MappingTable_get (mappings : MappingTable) (table : string) : gmap string R :=
  if String.eqb table "Risk" then map_Risk mappings
  else if String.eqb table "Demand fluctuation" then map_Demand_fluctuation mappings
  else if String.eqb table "Consignment stock" then map_Consignment_stock mappings
  else if String.eqb table "Unit size" then map_Unit_size mappings
  else ∅.

(** [{ ...prev, [table]: { ...prev[table], [key]: Math.max(0, Math.min(1, value)) } }].
    For a [table] that is none of the four names the object only gains a
    property outside [MappingTable]; the four sub-tables stay as they are. *)
Definition handleMappingChange (table key : string) (value : R) (prev : MappingTable)
  : MappingTable :=
  let v := Rmax 0 (Rmin 1 value) in
  if String.eqb table "Risk" then
    {| map_Risk := <[key := v]> (map_Risk prev);
       map_Demand_fluctuation := map_Demand_fluctuation prev;
       map_Consignment_stock := map_Consignment_stock prev;
       map_Unit_size := map_Unit_size prev |}
  else if String.eqb table "Demand fluctuation" then
    {| map_Risk := map_Risk prev;
       map_Demand_fluctuation := <[key := v]> (map_Demand_fluctuation prev);
       map_Consignment_stock := map_Consignment_stock prev;
       map_Unit_size := map_Unit_size prev |}
  else if String.eqb table "Consignment stock" then
    {| map_Risk := map_Risk prev;
       map_Demand_fluctuation := map_Demand_fluctuation prev;
       map_Consignment_stock := <[key := v]> (map_Consignment_stock prev);
       map_Unit_size := map_Unit_size prev |}
  else if String.eqb table "Unit size" then
    {| map_Risk := map_Risk prev;
       map_Demand_fluctuation := map_Demand_fluctuation prev;
       map_Consignment_stock := map_Consignment_stock prev;
       map_Unit_size := <[key := v]> (map_Unit_size prev) |}
  else prev.

Definition mapping_tables : list string :=
  ["Risk"; "Demand fluctuation"; "Consignment stock"; "Unit size"].

(** The [criterion] argument of [handleWeightChange]:
    [keyof AggregationWeights]. *)
Inductive CriterionName : Set := Crit_Criticality | Crit_Demand | Crit_Supply.

(** [{ ...prev, [criterion]: { [key]: value, [other]: 1 - value } }] where
    [other] is the first key of [prev[criterion]] that differs from [key].
    When [key] is one of the two keys of the pair the result is a weight
    pair again; for any other [key] the new object carries the foreign key
    and lacks one of the two, so it is no [AggregationWeights]: [None]. *)
Definition handleWeightChange (criterion : CriterionName) (key : string) (value : R)
    (prev : AggregationWeights) : option AggregationWeights :=
  match criterion with
  | Crit_Criticality =>
      if String.eqb key "Risk" then
        Some {| Criticality := {| w_Risk := value; w_Fluctuation := 1 - value |};
                Demand := Demand prev; Supply := Supply prev |}
      else if String.eqb key "Fluctuation" then
        Some {| Criticality := {| w_Risk := 1 - value; w_Fluctuation := value |};
                Demand := Demand prev; Supply := Supply prev |}
      else None
  | Crit_Demand =>
      if String.eqb key "DailyUsage" then
        Some {| Criticality := Criticality prev;
                Demand := {| w_DailyUsage := value; w_AverageStock := 1 - value |};
                Supply := Supply prev |}
      else if String.eqb key "AverageStock" then
        Some {| Criticality := Criticality prev;
                Demand := {| w_DailyUsage := 1 - value; w_AverageStock := value |};
                Supply := Supply prev |}
      else None
  | Crit_Supply =>
      if String.eqb key "LeadTime" then
        Some {| Criticality := Criticality prev; Demand := Demand prev;
                Supply := {| w_LeadTime := value; w_Consignment := 1 - value |} |}
      else if String.eqb key "Consignment" then
        Some {| Criticality := Criticality prev; Demand := Demand prev;
                Supply := {| w_LeadTime := 1 - value; w_Consignment := value |} |}
      else None
  end.

(** The keys of the pair of a criterion. *)
Definition criterion_keys (criterion : CriterionName) : list string :=
  match criterion with
  | Crit_Criticality => ["Risk"; "Fluctuation"]
  | Crit_Demand => ["DailyUsage"; "AverageStock"]
  | Crit_Supply => ["LeadTime"; "Consignment"]
  end.

(** ** The crisp pipeline run by the TOPSIS screen ([TopsisClassic.tsx])

    [runTOPSIS] chains the five stages on the raw data of the store and
    stores the entropy weights and the classified items (the delays and the
    progress indicator between the stages are left out). *)
Definition runTOPSIS_result (rawData : list InventoryItem) (mappingTables : MappingTable)
    (aggregationWeights : AggregationWeights) (abcThresholds : Thresholds)
  : EntropyWeights * list InventoryItem :=
  let mapped := applyMappings rawData mappingTables in
  let aggregated := calculateAggregations mapped aggregationWeights in
  let weights := calculateEntropyWeights aggregated in
  let topsisResults := calculateTOPSIS aggregated weights in
  let classified := classifyABC topsisResults abcThresholds SF_TOPSIS_Score in
  (weights, classified).

Definition runTOPSIS (s : AnalysisState) : AnalysisState :=
  let result := runTOPSIS_result (rawData s) (mappingTables s) (aggregationWeights s)
                  (abcThresholds s) in
  store_run [setEntropyWeights (fst result); setProcessedData (snd result)] s.

(** The identity and the eight raw attributes of an item. *)
Definition raw_record (item : InventoryItem)
  : Z * string * string * R * R * R * R * string * string :=
  (id item, Risk item, Demand_fluctuation item, Average_stock item, Daily_usage item,
   Unit_cost item, Lead_time item, Consignment_stock item, Unit_size item).

(** All the fields the crisp pipeline derives are present. *)
Definition crisp_fields_present (item : InventoryItem) : Prop :=
  is_Some (Risk_Score item) /\ is_Some (Fluctuation_Score item)
  /\ is_Some (Consignment_Score item) /\ is_Some (Size_Score item)
  /\ is_Some (Criticality_Agg item) /\ is_Some (Demand_Agg item)
  /\ is_Some (Supply_Agg item) /\ is_Some (TOPSIS_Score item)
  /\ is_Some (Class item).

(** ** The simulated classifier ([simulateMLClassification])

    [Math.random] is modelled by the sequence of the values it returns, read
    in order; the position in the sequence is threaded through the items.
    An item consumes one value, and a second one when the first exceeds
    [0.92]. *)
Definition ABC_label (c : ABC) : string :=
  match c with A => "A" | B => "B" | C => "C" end.

Definition with_ML_Predicted_Class (item : InventoryItem) (predictedClass : option string)
  : InventoryItem :=
  {| id := id item; Risk := Risk item;
     Demand_fluctuation := Demand_fluctuation item;
     Average_stock := Average_stock item; Daily_usage := Daily_usage item;
     Unit_cost := Unit_cost item; Lead_time := Lead_time item;
     Consignment_stock := Consignment_stock item; Unit_size := Unit_size item;
     Risk_Score := Risk_Score item; Fluctuation_Score := Fluctuation_Score item;
     Consignment_Score := Consignment_Score item; Size_Score := Size_Score item;
     Criticality_Agg := Criticality_Agg item; Demand_Agg := Demand_Agg item;
     Supply_Agg := Supply_Agg item; TOPSIS_Score := TOPSIS_Score item;
     Fuzzy_TOPSIS_Score := Fuzzy_TOPSIS_Score item;
     ML_Predicted_Class := predictedClass;
     Class := Class item; Fuzzy_Class := Fuzzy_Class item |}.

Definition Random : Type := nat -> R.

(** The body of the [map]: the prediction for one item and the position in
    the random sequence after it.  [classes[j]] is absent outside the three
    indices. *)
Definition predict (random : Random) (k : nat) (item : InventoryItem)
  : InventoryItem * nat :=
  let rand := random k in
  let predictedClass := ABC_label (default C (Class item)) in
  if decide (0.92 < rand) then
    let classes := [A; B; C] in
    let j := Zfloor (random (S k) * 3) in
    (with_ML_Predicted_Class item
       (ABC_label <$> (if decide (0 <= j)%Z then classes !! Z.to_nat j else None)),
     S (S k))
  else (with_ML_Predicted_Class item (Some predictedClass), S k).

Fixpoint predictions_from (random : Random) (k : nat) (data : list InventoryItem)
  : list InventoryItem :=
  match data with
  | [] => []
  | item :: rest =>
      let p := predict random k item in
      fst p :: predictions_from random (snd p) rest
  end.

Definition classLabels : list string := ["A"; "B"; "C"].

(** [p.Class === actual && p.ML_Predicted_Class === predicted] *)
Definition confusion_cell (actual predicted : string) (p : InventoryItem) : Prop :=
  ABC_label <$> Class p = Some actual /\ ML_Predicted_Class p = Some predicted.

#[global] Instance confusion_cell_dec (actual predicted : string) (p : InventoryItem) :
  Decision (confusion_cell actual predicted p).
Proof. unfold confusion_cell. apply _. Defined.

Definition ml_confusionMatrix (predictions : list InventoryItem) : list (list nat) :=
  (fun actual =>
     (fun predicted => length (filter (confusion_cell actual predicted) predictions))
       <$> classLabels)
    <$> classLabels.

Definition ml_totalCorrect (confusionMatrix : list (list nat)) : nat :=
  reduce (fun sum row i => (sum + row !!! i)%nat) confusionMatrix 0%nat.

Definition ml_tp (confusionMatrix : list (list nat)) (i : nat) : nat :=
  (confusionMatrix !!! i) !!! i.

Definition ml_fp (confusionMatrix : list (list nat)) (i : nat) : nat :=
  reduce (fun sum row j => if decide (j <> i) then (sum + row !!! i)%nat else sum)
         confusionMatrix 0%nat.

Definition ml_fn (confusionMatrix : list (list nat)) (i : nat) : nat :=
  reduce (fun sum val j => if decide (j <> i) then (sum + val)%nat else sum)
         (confusionMatrix !!! i) 0%nat.

Definition ml_precision (confusionMatrix : list (list nat)) (i : nat) : R :=
  let tp := ml_tp confusionMatrix i in
  let fp := ml_fp confusionMatrix i in
  if decide (0 < tp + fp)%nat then INR tp / INR (tp + fp) else 0.

Definition ml_recall (confusionMatrix : list (list nat)) (i : nat) : R :=
  let tp := ml_tp confusionMatrix i in
  let fn := ml_fn confusionMatrix i in
  if decide (0 < tp + fn)%nat then INR tp / INR (tp + fn) else 0.

Definition ml_f1Score (confusionMatrix : list (list nat)) (i : nat) : R :=
  let p := ml_precision confusionMatrix i in
  let r := ml_recall confusionMatrix i in
  if decide (0 < p + r) then 2 * p * r / (p + r) else 0.

Definition ml_featureImportance : list (string * R) :=
  [("Risk_Score", 0.18); ("Fluctuation_Score", 0.08); ("Average stock", 0.12);
   ("Daily usage", 0.15); ("Unit cost", 0.22); ("Lead time", 0.10);
   ("Consignment_Score", 0.05); ("Size_Score", 0.10)].

Definition ml_metrics (predictions : list InventoryItem) : MLMetrics :=
  let confusionMatrix := ml_confusionMatrix predictions in
  let totalCorrect := ml_totalCorrect confusionMatrix in
  let total := length predictions in
  {| accuracy := INR totalCorrect / INR total;
     precision := imap (fun i label => (label, ml_precision confusionMatrix i)) classLabels;
     recall := imap (fun i label => (label, ml_recall confusionMatrix i)) classLabels;
     f1Score := imap (fun i label => (label, ml_f1Score confusionMatrix i)) classLabels;
     confusionMatrix := confusionMatrix;
     featureImportance := ml_featureImportance |}.

Definition simulateMLClassification (random : Random) (data : list InventoryItem)
  : list InventoryItem * MLMetrics :=
  let predictions := predictions_from random 0 data in
  (predictions, ml_metrics predictions).

(** ** The ML screen ([MLComparison.tsx]) *)

(** [runMLClassification]: nothing happens on an empty list or when the
    first item has no class; otherwise the predictions and the metrics are
    stored (the delay and the progress indicator are left out). *)
Definition runMLClassification (random : Random) (s : AnalysisState) : AnalysisState :=
  match processedData s with
  | [] => s
  | first :: _ =>
      match Class first with
      | None => s
      | Some _ =>
          let result := simulateMLClassification random (processedData s) in
          store_run [setProcessedData (fst result); setMLMetrics (snd result)] s
      end
  end.

(** [comparisonSummary]: the items counted, those whose [Class] equals the
    predicted class, and those whose [Class] equals the fuzzy class; two
    absent fields are equal. *)
Record ComparisonSummary : Set := mkComparisonSummary {
  sm_total : nat; sm_match : nat; sm_fuzzyMatch : nat
}.

Definition comparisonSummary (processedData : list InventoryItem) : ComparisonSummary :=
  reduce (fun acc item _ =>
            let acc1 := mkComparisonSummary (S (sm_total acc)) (sm_match acc)
                          (sm_fuzzyMatch acc) in
            let acc2 := if decide (ABC_label <$> Class item = ML_Predicted_Class item)
                        then mkComparisonSummary (sm_total acc1) (S (sm_match acc1))
                               (sm_fuzzyMatch acc1)
                        else acc1 in
            if decide (Class item = Fuzzy_Class item)
            then mkComparisonSummary (sm_total acc2) (sm_match acc2) (S (sm_fuzzyMatch acc2))
            else acc2)
         processedData (mkComparisonSummary 0 0 0).

(** A random sequence as [Math.random] produces it: values in [[0, 1)]. *)
Definition random_in_range (random : Random) : Prop :=
  forall k, 0 <= random k < 1.

(** The class index of a label. *)
Definition label_index (c : ABC) : nat :=
  match c with A => 0 | B => 1 | C => 2 end.


(** A classified sample and a random sequence without misclassification. *)
Definition sample_classified : list InventoryItem :=
  [ with_Class (scored_item 1 0.9) A; with_Class (scored_item 2 0.5) B;
    with_Class (scored_item 3 0.1) C ].

Definition sample_random : Random := fun _ => 0.5.


(** ** The fuzzy screen ([FuzzyTopsis], in [DataImport.tsx]) *)

(** [runFuzzyTOPSIS]: nothing happens on an empty processed list; otherwise
    the fuzzy scores are computed with the TFN tables of the screen, the
    items are classified by them and stored. *)
Definition runFuzzyTOPSIS (localTFN : FuzzyTFN) (s : AnalysisState) : AnalysisState :=
  match processedData s with
  | [] => s
  | _ :: _ =>
      let fuzzyResults := calculateFuzzyTOPSIS (processedData s) localTFN in
      let classified := classifyABC fuzzyResults (abcThresholds s) SF_Fuzzy_TOPSIS_Score in
      store_apply (setProcessedData classified) s
  end.

(** Everything of an item but its two fuzzy fields. *)
Definition crisp_record (item : InventoryItem) :=
  (raw_record item, Risk_Score item, Fluctuation_Score item, Consignment_Score item,
   Size_Score item, Criticality_Agg item, Demand_Agg item, Supply_Agg item,
   TOPSIS_Score item, Class item, ML_Predicted_Class item).

Record ComparisonRow : Type := mkComparisonRow {
  cr_id : Z;
  crisp : R;
  fuzzy : R;
  crispClass : option ABC;
  fuzzyClass : option ABC
}.

Definition comparisonData (processedData : list InventoryItem) : list ComparisonRow :=
  (fun item =>
     {| cr_id := id item;
        crisp := default 0 (TOPSIS_Score item) * 100;
        fuzzy := default 0 (Fuzzy_TOPSIS_Score item) * 100;
        crispClass := Class item;
        fuzzyClass := Fuzzy_Class item |})
    <$> filter (fun item => TOPSIS_Score item <> None /\ Fuzzy_TOPSIS_Score item <> None)
          processedData.

(** The nine counters of [classChangeMatrix], addressed by the pair of
    classes their key is built from; a row without one of its classes is
    skipped. *)
Definition classChangeMatrix (rows : list ComparisonRow) : ABC -> ABC -> nat :=
  foldl (fun m item =>
           match crispClass item, fuzzyClass item with
           | Some a, Some b =>
               fun a' b' => if decide (a' = a /\ b' = b) then S (m a' b') else m a' b'
           | _, _ => m
           end)
        (fun _ _ => 0%nat) rows.

Definition matrix_total (m : ABC -> ABC -> nat) : nat :=
  (m A A + m A B + m A C + m B A + m B B + m B C + m C A + m C B + m C C)%nat.

Definition matrix_diagonal (m : ABC -> ABC -> nat) : nat :=
  (m A A + m B B + m C C)%nat.


(** ** Column distributions of the import screen ([DataImport.tsx]) *)

Definition getQualValue (item : InventoryItem) (col : string) : string :=
  if String.eqb col "Risk" then Risk item
  else if String.eqb col "Demand fluctuation" then Demand_fluctuation item
  else if String.eqb col "Consignment stock" then Consignment_stock item
  else if String.eqb col "Unit size" then Unit_size item
  else EmptyString.

(** The [counts] object that [getDistribution] fills, one increment per
    item, and the list of its entries.  The entries of a JS object come in
    insertion order; the order of the entries is not modelled. *)
Definition distribution_counts (rawData : list InventoryItem) (col : string)
  : gmap string nat :=
  foldl (fun counts d =>
           let val := getQualValue d col in
           <[val := (default 0%nat (counts !! val) + 1)%nat]> counts)
        ∅ rawData.

Definition getDistribution (rawData : list InventoryItem) (col : string)
  : list (string * nat) :=
  map_to_list (distribution_counts rawData col).

(** * Properties *)

Lemma Rdiv_unit_interval (a b : R) : 0 <= a <= b -> 0 < b -> 0 <= a / b <= 1.
Proof.
  intros [Ha Hab] Hb. unfold Rdiv.
  pose proof (Rinv_0_lt_compat b Hb) as Hi.
  assert (E : b * / b = 1) by (apply Rinv_r; lra).
  split; nra.
Qed.

(** ** Properties of [minMaxNormalize] *)

Section MinMax.

Lemma fold_left_Rmin_le_init (vs : list R) (v : R) : fold_left Rmin vs v <= v.
Proof.
  revert v; induction vs as [|w vs IH]; intros v; simpl; [lra|].
  etransitivity; [apply IH | apply Rmin_l].
Qed.

Lemma fold_left_Rmin_le_elem (vs : list R) (v x : R) :
  x ∈ vs -> fold_left Rmin vs v <= x.
Proof.
  revert v; induction vs as [|w vs IH]; intros v Hx; [by apply elem_of_nil in Hx|].
  apply elem_of_cons in Hx as [->|Hx]; simpl.
  - etransitivity; [apply fold_left_Rmin_le_init | apply Rmin_r].
  - by apply IH.
Qed.

Lemma fold_left_Rmax_ge_init (vs : list R) (v : R) : v <= fold_left Rmax vs v.
Proof.
  revert v; induction vs as [|w vs IH]; intros v; simpl; [lra|].
  etransitivity; [apply Rmax_l | apply IH].
Qed.

Lemma fold_left_Rmax_ge_elem (vs : list R) (v x : R) :
  x ∈ vs -> x <= fold_left Rmax vs v.
Proof.
  revert v; induction vs as [|w vs IH]; intros v Hx; [by apply elem_of_nil in Hx|].
  apply elem_of_cons in Hx as [->|Hx]; simpl.
  - etransitivity; [apply Rmax_r | apply fold_left_Rmax_ge_init].
  - by apply IH.
Qed.

Lemma Math_min_le (values : list R) (x : R) : x ∈ values -> Math_min values <= x.
Proof.
  destruct values as [|v vs]; intros Hx; [by apply elem_of_nil in Hx|].
  apply elem_of_cons in Hx as [->|Hx]; simpl.
  - apply fold_left_Rmin_le_init.
  - by apply fold_left_Rmin_le_elem.
Qed.

Lemma Math_max_ge (values : list R) (x : R) : x ∈ values -> x <= Math_max values.
Proof.
  destruct values as [|v vs]; intros Hx; [by apply elem_of_nil in Hx|].
  apply elem_of_cons in Hx as [->|Hx]; simpl.
  - apply fold_left_Rmax_ge_init.
  - by apply fold_left_Rmax_ge_elem.
Qed.

(** The minimum and the maximum are attained. *)
Lemma fold_left_Rmin_elem (vs : list R) (v : R) :
  fold_left Rmin vs v = v \/ fold_left Rmin vs v ∈ vs.
Proof.
  revert v; induction vs as [|w vs IH]; intros v; simpl; [by left|].
  destruct (IH (Rmin v w)) as [E|E].
  - rewrite E. unfold Rmin. destruct (Rle_dec v w); [by left|right; left].
  - right; by right.
Qed.

Lemma fold_left_Rmax_elem (vs : list R) (v : R) :
  fold_left Rmax vs v = v \/ fold_left Rmax vs v ∈ vs.
Proof.
  revert v; induction vs as [|w vs IH]; intros v; simpl; [by left|].
  destruct (IH (Rmax v w)) as [E|E].
  - rewrite E. unfold Rmax. destruct (Rle_dec v w); [right; left|by left].
  - right; by right.
Qed.

Lemma Math_min_elem (values : list R) : values <> [] -> Math_min values ∈ values.
Proof.
  destruct values as [|v vs]; [done|intros _; simpl].
  destruct (fold_left_Rmin_elem vs v) as [->|E]; [left|by right].
Qed.

Lemma Math_max_elem (values : list R) : values <> [] -> Math_max values ∈ values.
Proof.
  destruct values as [|v vs]; [done|intros _; simpl].
  destruct (fold_left_Rmax_elem vs v) as [->|E]; [left|by right].
Qed.

Lemma minMaxNormalize_length (values : list R) :
  length (minMaxNormalize values) = length values.
Proof. unfold minMaxNormalize. destruct (decide _); apply length_fmap. Qed.

Lemma minMaxNormalize_degenerate (values : list R) :
  Math_max values = Math_min values ->
  minMaxNormalize values = (fun _ => 0.5) <$> values.
Proof. intros E. unfold minMaxNormalize. by destruct (decide _). Qed.

Lemma minMaxNormalize_regular (values : list R) :
  Math_max values <> Math_min values ->
  minMaxNormalize values =
  (fun v => (v - Math_min values) / (Math_max values - Math_min values)) <$> values.
Proof. intros E. unfold minMaxNormalize. by destruct (decide _). Qed.

Lemma minMaxNormalize_range (values : list R) :
  Forall (fun x => 0 <= x <= 1) (minMaxNormalize values).
Proof.
  unfold minMaxNormalize. destruct (decide _) as [E|E].
  - apply Forall_forall. intros x Hx. apply list_elem_of_fmap in Hx as (?&->&_). lra.
  - apply Forall_forall. intros x Hx. apply list_elem_of_fmap in Hx as (v&->&Hv).
    pose proof (Math_min_le _ _ Hv). pose proof (Math_max_ge _ _ Hv).
    apply Rdiv_unit_interval; lra.
Qed.

Lemma minMaxNormalize_lookup (values : list R) (i : nat) :
  (i < length values)%nat ->
  exists x, minMaxNormalize values !! i = Some x /\ minMaxNormalize values !!! i = x
            /\ 0 <= x <= 1.
Proof.
  intros Hi. rewrite <- minMaxNormalize_length in Hi.
  apply lookup_lt_is_Some_2 in Hi as [x Hx]. exists x. split; [done|].
  split; [by apply list_lookup_total_correct|].
  pose proof (minMaxNormalize_range values) as HF.
  rewrite Forall_forall in HF. apply HF. by eapply list_elem_of_lookup_2.
Qed.

End MinMax.

Ltac eval_min_max :=
  cbn [Math_min Math_max fold_left];
  repeat match goal with
    | |- context [Rmin ?a ?b] =>
        first [rewrite (Rmin_left a b) by lra | rewrite (Rmin_right a b) by lra]
    | |- context [Rmax ?a ?b] =>
        first [rewrite (Rmax_left a b) by lra | rewrite (Rmax_right a b) by lra]
    end;
  try reflexivity; try lra.

(** C5.  For every non-empty list of numbers, [minMaxNormalize] returns a
    list of the same length whose entries all lie in [0,1]; when
    [max == min] (constant series, in particular a single element) every
    entry is exactly 1/2; [minMaxNormalize [1,2,3,4] = [0, 1/3, 2/3, 1]] and
    [minMaxNormalize [5,5,5] = [1/2, 1/2, 1/2]]. *)
Theorem minMaxNormalize_spec (values : list R) :
  values <> [] ->
  length (minMaxNormalize values) = length values
  /\ Forall (fun x => 0 <= x <= 1) (minMaxNormalize values)
  /\ (Math_max values = Math_min values ->
      Forall (fun x => x = 0.5) (minMaxNormalize values))
  /\ ((exists c, Forall (fun v => v = c) values) ->
      Forall (fun x => x = 0.5) (minMaxNormalize values))
  /\ (forall v, minMaxNormalize [v] = [0.5])
  /\ minMaxNormalize [1; 2; 3; 4] = [0; 1 / 3; 2 / 3; 1]
  /\ minMaxNormalize [5; 5; 5] = [0.5; 0.5; 0.5].
Proof.
  intros Hne.
  assert (Hdeg : Math_max values = Math_min values ->
                 Forall (fun x => x = 0.5) (minMaxNormalize values)).
  { intros E. rewrite (minMaxNormalize_degenerate _ E).
    apply Forall_forall. intros x Hx. by apply list_elem_of_fmap in Hx as (?&->&_). }
  split; [apply minMaxNormalize_length|].
  split; [apply minMaxNormalize_range|].
  split; [done|].
  split.
  { intros [c Hc]. apply Hdeg. rewrite Forall_forall in Hc.
    rewrite (Hc _ (Math_max_elem _ Hne)), (Hc _ (Math_min_elem _ Hne)). done. }
  split.
  { intros v. unfold minMaxNormalize; simpl. by destruct (decide (v = v)). }
  split.
  - unfold minMaxNormalize.
    assert (Emin : Math_min [1; 2; 3; 4] = 1) by eval_min_max.
    assert (Emax : Math_max [1; 2; 3; 4] = 4) by eval_min_max.
    rewrite Emin, Emax. destruct (decide (4 = 1)) as [E|_]; [lra|].
    simpl. repeat f_equal; lra.
  - unfold minMaxNormalize.
    assert (Emin : Math_min [5; 5; 5] = 5) by eval_min_max.
    assert (Emax : Math_max [5; 5; 5] = 5) by eval_min_max.
    rewrite Emin, Emax. by destruct (decide (5 = 5)).
Qed.

Lemma minMaxNormalize_spec_witness :
  [1; 2; 3; 4] <> @nil R
  /\ length (minMaxNormalize [1; 2; 3; 4]) = 4%nat
  /\ Forall (fun x => 0 <= x <= 1) (minMaxNormalize [1; 2; 3; 4]).
Proof.
  assert (H : [1; 2; 3; 4] <> @nil R) by discriminate.
  split; [exact H|].
  destruct (minMaxNormalize_spec [1; 2; 3; 4] H) as (Hl & Hr & _).
  split; [exact Hl | exact Hr].
Defined.


(** ** Mappings *)

Section Mappings.
Variables (mappings : MappingTable) (tfn : FuzzyTFN).

Lemma applyMappings_length (data : list InventoryItem) :
  length (applyMappings data mappings) = length data.
Proof. apply length_fmap. Qed.

Lemma applyFuzzyMappings_length (data : list InventoryItem) :
  length (applyFuzzyMappings data tfn) = length data.
Proof. apply length_fmap. Qed.

Lemma applyMappings_lookup (data : list InventoryItem) (idx : nat) (item : InventoryItem) :
  data !! idx = Some item ->
  applyMappings data mappings !! idx =
  Some (with_Scores item
          (default 0 (map_Risk mappings !! Risk item))
          (default 0 (map_Demand_fluctuation mappings !! Demand_fluctuation item))
          (default 0 (map_Consignment_stock mappings !! Consignment_stock item))
          (default 0 (map_Unit_size mappings !! Unit_size item))).
Proof. intros H. unfold applyMappings. by rewrite list_lookup_fmap, H. Qed.

Lemma applyFuzzyMappings_lookup (data : list InventoryItem) (idx : nat)
    (item : InventoryItem) :
  data !! idx = Some item ->
  exists fm, applyFuzzyMappings data tfn !! idx = Some fm
    /\ fm_item fm = item
    /\ fv_Risk (fuzzyValues fm) = default (0, 0, 0) (tfn_Risk tfn !! Risk item)
    /\ fv_Demand_fluctuation (fuzzyValues fm) =
       default (0, 0, 0) (tfn_Demand_fluctuation tfn !! Demand_fluctuation item)
    /\ fv_Consignment_stock (fuzzyValues fm) =
       default (0, 0, 0) (tfn_Consignment_stock tfn !! Consignment_stock item)
    /\ fv_Unit_size (fuzzyValues fm) =
       default (0, 0, 0) (tfn_Unit_size tfn !! Unit_size item).
Proof.
  intros H. unfold applyFuzzyMappings. rewrite list_lookup_fmap, H. simpl.
  eexists; split; [reflexivity|]. simpl. by repeat split.
Qed.

End Mappings.



(** ** Aggregations *)

Lemma Forall2_imap_same {X Y : Type} (P : X -> Y -> Prop) (f : nat -> X -> Y)
    (l : list X) :
  (forall i x, l !! i = Some x -> P x (f i x)) -> Forall2 P l (imap f l).
Proof.
  revert f; induction l as [|x l IH]; intros f Hf; simpl; constructor.
  - by apply (Hf 0%nat).
  - apply IH. intros i y Hy. apply (Hf (S i)). done.
Qed.

Lemma calculateAggregations_lookup (data : list InventoryItem)
    (weights : AggregationWeights) (idx : nat) (item : InventoryItem) :
  data !! idx = Some item ->
  calculateAggregations data weights !! idx =
  Some (with_Aggs item
          (w_Risk (Criticality weights) * nullish0 (Risk_Score item) +
           w_Fluctuation (Criticality weights) * nullish0 (Fluctuation_Score item))
          (w_DailyUsage (Demand weights) * minMaxNormalize (Daily_usage <$> data) !!! idx +
           w_AverageStock (Demand weights) * minMaxNormalize (Average_stock <$> data) !!! idx)
          (w_LeadTime (Supply weights) * minMaxNormalize (Lead_time <$> data) !!! idx +
           w_Consignment (Supply weights) * nullish0 (Consignment_Score item))).
Proof.
  intros H. unfold calculateAggregations. by rewrite list_lookup_imap, H.
Qed.

(** C4.  [calculateAggregations] min-max normalizes the columns
    [Average stock], [Daily usage] and [Lead time] over the whole dataset
    (the entry read at an item's index exists and is the normalized value of
    the item's own raw value), leaves [Unit cost] as it is, and writes per
    item exactly
    [Criticality_Agg = w.Criticality.Risk * Risk_Score + w.Criticality.Fluctuation * Fluctuation_Score],
    [Demand_Agg = w.Demand.DailyUsage * normDailyUsage + w.Demand.AverageStock * normAverageStock],
    [Supply_Agg = w.Supply.LeadTime * normLeadTime + w.Supply.Consignment * Consignment_Score]
    (an absent score counts as 0), with no clamping. *)
Theorem calculateAggregations_spec (data : list InventoryItem)
    (weights : AggregationWeights) (idx : nat) (item : InventoryItem) :
  data !! idx = Some item ->
  exists (item' : InventoryItem) (normDailyUsage normAverageStock normLeadTime : R),
    calculateAggregations data weights !! idx = Some item'
    /\ minMaxNormalize (Daily_usage <$> data) !! idx = Some normDailyUsage
    /\ minMaxNormalize (Average_stock <$> data) !! idx = Some normAverageStock
    /\ minMaxNormalize (Lead_time <$> data) !! idx = Some normLeadTime
    /\ Criticality_Agg item' =
       Some (w_Risk (Criticality weights) * nullish0 (Risk_Score item) +
             w_Fluctuation (Criticality weights) * nullish0 (Fluctuation_Score item))
    /\ Demand_Agg item' =
       Some (w_DailyUsage (Demand weights) * normDailyUsage +
             w_AverageStock (Demand weights) * normAverageStock)
    /\ Supply_Agg item' =
       Some (w_LeadTime (Supply weights) * normLeadTime +
             w_Consignment (Supply weights) * nullish0 (Consignment_Score item))
    /\ Unit_cost item' = Unit_cost item
    /\ Average_stock item' = Average_stock item
    /\ Daily_usage item' = Daily_usage item
    /\ Lead_time item' = Lead_time item.
Proof.
  intros H.
  assert (Hi : (idx < length data)%nat) by (apply lookup_lt_is_Some; eauto).
  destruct (minMaxNormalize_lookup (Daily_usage <$> data) idx) as (nd & Hd & Hd' & _);
    [by rewrite length_fmap|].
  destruct (minMaxNormalize_lookup (Average_stock <$> data) idx) as (na & Ha & Ha' & _);
    [by rewrite length_fmap|].
  destruct (minMaxNormalize_lookup (Lead_time <$> data) idx) as (nl & Hl & Hl' & _);
    [by rewrite length_fmap|].
  eexists; exists nd, na, nl.
  split; [by apply calculateAggregations_lookup|].
  rewrite Hd', Ha', Hl'. simpl. by repeat split.
Qed.

Lemma calculateAggregations_spec_witness :
  sample_data !! 0%nat = Some sample_item_1
  /\ exists item',
      calculateAggregations sample_data sample_weights !! 0%nat = Some item'
      /\ Unit_cost item' = Unit_cost sample_item_1.
Proof.
  assert (H : sample_data !! 0%nat = Some sample_item_1)
    by reflexivity.
  split; [exact H|].
  destruct (calculateAggregations_spec sample_data sample_weights _ _ H)
    as (item' & nd & na & nl & H1 & _ & _ & _ & _ & _ & _ & H2 & _).
  exists item'. split; [exact H1 | exact H2].
Defined.

(** ** Sorting and ABC classification *)

Section ArraySort.
Context {T : Type} (cmp : T -> T -> R).

Lemma sort_insert_Permutation (x : T) (l : list T) : sort_insert cmp x l ≡ₚ x :: l.
Proof.
  induction l as [|y l IH]; simpl; [done|].
  destruct (decide (0 < cmp x y)); [|done].
  rewrite IH. apply Permutation_swap.
Qed.

Lemma Array_sort_Permutation (l : list T) : Array_sort cmp l ≡ₚ l.
Proof.
  induction l as [|x l IH]; simpl; [done|].
  unfold Array_sort in *; simpl. by rewrite sort_insert_Permutation, IH.
Qed.

Lemma Array_sort_length (l : list T) : length (Array_sort cmp l) = length l.
Proof. apply Permutation_length, Array_sort_Permutation. Qed.

End ArraySort.

Section SortByScore.
Context {T : Type} (score : T -> R).

Lemma sort_insert_HdRel (x y : T) (l : list T) :
  score_ge score y x -> HdRel (score_ge score) y l ->
  HdRel (score_ge score) y (sort_insert (score_cmp score) x l).
Proof.
  intros Hyx Hl. destruct l as [|z l]; simpl; [by constructor|].
  destruct (decide (0 < score_cmp score x z)); constructor; [|done].
  by inversion Hl.
Qed.

Lemma sort_insert_Sorted (x : T) (l : list T) :
  Sorted (score_ge score) l -> Sorted (score_ge score) (sort_insert (score_cmp score) x l).
Proof.
  induction l as [|y l IH]; intros Hs; simpl.
  - by repeat constructor.
  - inversion Hs as [|? ? Hs' Hhd]; subst.
    destruct (decide (0 < score_cmp score x y)) as [Hlt|Hge].
    + constructor; [by apply IH|].
      apply sort_insert_HdRel; [|done]. unfold score_ge, score_cmp in *. lra.
    + constructor; [done|]. constructor. unfold score_ge, score_cmp in *. lra.
Qed.

Lemma Array_sort_Sorted (l : list T) :
  Sorted (score_ge score) (Array_sort (score_cmp score) l).
Proof.
  induction l as [|x l IH]; [constructor|].
  unfold Array_sort in *; simpl. by apply sort_insert_Sorted.
Qed.

Lemma Array_sort_descending (l : list T) :
  StronglySorted (score_ge score) (Array_sort (score_cmp score) l).
Proof.
  apply Sorted_StronglySorted; [|apply Array_sort_Sorted].
  intros a b c. unfold score_ge. lra.
Qed.

(** The sort is stable: items of equal score keep their relative order. *)
Lemma sort_insert_filter_score (s : R) (x : T) (l : list T) :
  filter (fun y => score y = s) (sort_insert (score_cmp score) x l) =
  filter (fun y => score y = s) (x :: l).
Proof.
  induction l as [|y l IH]; simpl; [done|].
  destruct (decide (0 < score_cmp score x y)) as [Hlt|Hge]; [|done].
  unfold score_cmp in Hlt.
  rewrite (filter_cons _ y), IH, !(filter_cons _ x), (filter_cons _ y).
  destruct (decide (score x = s)); destruct (decide (score y = s)); try done; lra.
Qed.

Lemma Array_sort_stable (s : R) (l : list T) :
  filter (fun y => score y = s) (Array_sort (score_cmp score) l) =
  filter (fun y => score y = s) l.
Proof.
  induction l as [|x l IH]; [done|].
  unfold Array_sort in *. simpl foldr.
  rewrite sort_insert_filter_score, !(filter_cons _ x), IH. done.
Qed.

End SortByScore.

Lemma classifyABC_unfold (data : list InventoryItem) (thresholds : Thresholds)
    (scoreField : ScoreField) :
  classifyABC data thresholds scoreField =
  let key := ScoreField_key scoreField in
  let sorted := Array_sort (fun a b => getValue b key - getValue a key) data in
  let idxA := Zfloor (INR (length data) * th_A thresholds / 100) in
  let idxB := Zfloor (INR (length data) * (th_A thresholds + th_B thresholds) / 100) in
  imap (fun idx item => set_class scoreField item (rank_class idxA idxB idx)) sorted.
Proof.
  unfold classifyABC. cbv zeta. rewrite Array_sort_length.
  apply imap_ext. intros idx item _. unfold set_class, rank_class.
  by destruct scoreField.
Qed.

Lemma classifyABC_length (data : list InventoryItem) (thresholds : Thresholds)
    (scoreField : ScoreField) :
  length (classifyABC data thresholds scoreField) = length data.
Proof.
  rewrite classifyABC_unfold. cbv zeta. by rewrite length_imap, Array_sort_length.
Qed.




(** ** Frame of the five operations *)

Ltac solve_frame :=
  split;
  [ intros f Hf; destruct f; try reflexivity; exfalso; apply Hf; set_solver
  | by repeat split ].

Section Frame.

Lemma with_Scores_frame (item : InventoryItem) (rs fs cs ss : R) :
  unchanged_except [F_Risk_Score; F_Fluctuation_Score; F_Consignment_Score; F_Size_Score]
    item (with_Scores item rs fs cs ss)
  /\ same_raw item (with_Scores item rs fs cs ss).
Proof. solve_frame. Qed.

Lemma with_Aggs_frame (item : InventoryItem) (ca da sa : R) :
  unchanged_except [F_Criticality_Agg; F_Demand_Agg; F_Supply_Agg]
    item (with_Aggs item ca da sa)
  /\ same_raw item (with_Aggs item ca da sa).
Proof. solve_frame. Qed.

Lemma with_TOPSIS_Score_frame (item : InventoryItem) (score : R) :
  unchanged_except [F_TOPSIS_Score] item (with_TOPSIS_Score item score)
  /\ same_raw item (with_TOPSIS_Score item score).
Proof. solve_frame. Qed.

Lemma with_Fuzzy_TOPSIS_Score_frame (item : InventoryItem) (score : R) :
  unchanged_except [F_Fuzzy_TOPSIS_Score] item (with_Fuzzy_TOPSIS_Score item score)
  /\ same_raw item (with_Fuzzy_TOPSIS_Score item score).
Proof. solve_frame. Qed.

Lemma set_class_frame (scoreField : ScoreField) (item : InventoryItem) (c : ABC) :
  unchanged_except [class_field scoreField] item (set_class scoreField item c)
  /\ same_raw item (set_class scoreField item c).
Proof. destruct scoreField; solve_frame. Qed.

Lemma frame_fmap (written : list Field) (f : InventoryItem -> InventoryItem)
    (data : list InventoryItem) :
  (forall item, unchanged_except written item (f item) /\ same_raw item (f item)) ->
  frame written data (f <$> data).
Proof.
  intros Hf. unfold frame. induction data as [|x data IH]; simpl; constructor; auto.
Qed.

Lemma frame_imap (written : list Field) (f : nat -> InventoryItem -> InventoryItem)
    (data : list InventoryItem) :
  (forall idx item, unchanged_except written item (f idx item)
                    /\ same_raw item (f idx item)) ->
  frame written data (imap f data).
Proof. intros Hf. apply Forall2_imap_same. intros i x _. apply Hf. Qed.

End Frame.

(** C10.  Each core operation returns as many items as it is given and, item
    by item, changes no field outside the ones it writes: [applyMappings]
    the four [*_Score] fields, [calculateAggregations] the three [*_Agg]
    fields, [calculateTOPSIS] only [TOPSIS_Score], [calculateFuzzyTOPSIS]
    only [Fuzzy_TOPSIS_Score], and [classifyABC] (whose output lists the
    items in sorted order) only [Class], or [Fuzzy_Class] for the fuzzy score
    field.  In particular [id] and the eight raw attributes are the same
    before and after. *)
Theorem operations_frame (data : list InventoryItem) (mappings : MappingTable)
    (aggWeights : AggregationWeights) (weights : EntropyWeights) (tfn : FuzzyTFN)
    (thresholds : Thresholds) (scoreField : ScoreField) :
  (length (applyMappings data mappings) = length data
   /\ frame [F_Risk_Score; F_Fluctuation_Score; F_Consignment_Score; F_Size_Score]
        data (applyMappings data mappings))
  /\ (length (calculateAggregations data aggWeights) = length data
      /\ frame [F_Criticality_Agg; F_Demand_Agg; F_Supply_Agg]
           data (calculateAggregations data aggWeights))
  /\ (length (calculateTOPSIS data weights) = length data
      /\ frame [F_TOPSIS_Score] data (calculateTOPSIS data weights))
  /\ (length (calculateFuzzyTOPSIS data tfn) = length data
      /\ frame [F_Fuzzy_TOPSIS_Score] data (calculateFuzzyTOPSIS data tfn))
  /\ (length (classifyABC data thresholds scoreField) = length data
      /\ exists sorted : list InventoryItem,
           sorted ≡ₚ data
           /\ frame [class_field scoreField] sorted
                (classifyABC data thresholds scoreField)).
Proof.
  split; [split; [apply length_fmap|]|].
  { apply frame_fmap. intros item. apply with_Scores_frame. }
  split; [split; [apply length_imap|]|].
  { apply frame_imap. intros idx item. apply with_Aggs_frame. }
  split; [split; [apply length_imap|]|].
  { apply frame_imap. intros idx item. apply with_TOPSIS_Score_frame. }
  split; [split; [apply length_imap|]|].
  { apply frame_imap. intros idx item. apply with_Fuzzy_TOPSIS_Score_frame. }
  split; [apply classifyABC_length|].
  eexists. split; [apply Array_sort_Permutation|].
  rewrite classifyABC_unfold. cbv zeta.
  apply frame_imap. intros idx item. apply set_class_frame.
Qed.

(** ** Sums computed by [reduce] *)

Section Reduce.

Lemma Rsum_cons (x : R) (l : list R) : Rsum (x :: l) = x + Rsum l.
Proof. reflexivity. Qed.

Lemma Rsum_app (l1 l2 : list R) : Rsum (l1 ++ l2) = Rsum l1 + Rsum l2.
Proof. induction l1 as [|x l1 IH]; simpl; [lra|]. rewrite IH. lra. Qed.

Lemma Rsum_nonneg (l : list R) : Forall (fun x => 0 <= x) l -> 0 <= Rsum l.
Proof. induction 1; simpl; lra. Qed.

Lemma Rsum_pos (l : list R) (x : R) :
  Forall (fun x => 0 <= x) l -> x ∈ l -> 0 < x -> 0 < Rsum l.
Proof.
  induction 1 as [|y l Hy Hl IH]; intros Hx Hpos; [by apply elem_of_nil in Hx|].
  pose proof (Rsum_nonneg l Hl).
  apply elem_of_cons in Hx as [->|Hx]; simpl; [lra|].
  specialize (IH Hx Hpos). lra.
Qed.

Lemma Rsum_zero (l : list R) :
  Forall (fun x => 0 <= x) l -> Rsum l = 0 -> Forall (fun x => x = 0) l.
Proof.
  induction 1 as [|y l Hy Hl IH]; intros Hs; [constructor|].
  pose proof (Rsum_nonneg l Hl). simpl in Hs.
  constructor; [lra|]. apply IH. lra.
Qed.

Lemma reduce_from_sum {X : Type} (g : X -> nat -> R) (k : nat) (l : list X) (acc : R) :
  reduce_from (fun sum v i => sum + g v i) k l acc =
  acc + Rsum (imap (fun j v => g v (k + j)%nat) l).
Proof.
  revert k acc; induction l as [|x l IH]; intros k acc; simpl; [lra|].
  rewrite IH, Nat.add_0_r.
  assert (E : imap ((fun j v => g v (k + j)%nat) ∘ S) l =
              imap (fun j v => g v (S k + j)%nat) l).
  { apply imap_ext. intros j y _. simpl. f_equal. lia. }
  rewrite E. lra.
Qed.

Lemma reduce_sum {X : Type} (g : X -> nat -> R) (l : list X) :
  reduce (fun sum v i => sum + g v i) l 0 = Rsum (imap (fun j v => g v j) l).
Proof. unfold reduce. rewrite reduce_from_sum. simpl. lra. Qed.

(** A [reduce] whose callback ignores the index. *)
Lemma reduce_sum_map {X : Type} (g : X -> R) (l : list X) :
  reduce (fun sum v _ => sum + g v) l 0 = Rsum (g <$> l).
Proof. rewrite (reduce_sum (fun v _ => g v)). f_equal. apply (imap_const g). Qed.

Lemma reduce_plus (l : list R) : reduce (fun a b _ => a + b) l 0 = Rsum l.
Proof. rewrite (reduce_sum_map (fun v => v)). by rewrite list_fmap_id. Qed.

End Reduce.

Lemma pow2_mult (x : R) : x ^ 2 = x * x.
Proof. simpl. lra. Qed.

Lemma pow2_nonneg (x : R) : 0 <= x ^ 2.
Proof. rewrite pow2_mult. nra. Qed.

Lemma pow2_pos (x : R) : x <> 0 -> 0 < x ^ 2.
Proof. intros H. rewrite pow2_mult. nra. Qed.

Lemma sqrt_sum_pos (a b : R) : 0 <= a -> 0 <= b -> 0 < a + b -> 0 < sqrt a + sqrt b.
Proof.
  intros Ha Hb Hab.
  pose proof (sqrt_pos a). pose proof (sqrt_pos b).
  destruct (Rle_lt_or_eq_dec 0 a Ha) as [Ha'|Ha'].
  - pose proof (sqrt_lt_R0 a Ha'). lra.
  - assert (Hb' : 0 < b) by lra. pose proof (sqrt_lt_R0 b Hb'). lra.
Qed.

(** The closeness coefficient [dNeg / (dPos + dNeg)] of two distances whose
    squares do not both vanish. *)
Lemma closeness_unit_interval (a b : R) :
  0 <= a -> 0 <= b -> 0 < a + b ->
  0 < sqrt a + sqrt b /\ 0 <= sqrt b / (sqrt a + sqrt b) <= 1.
Proof.
  intros Ha Hb Hab. pose proof (sqrt_sum_pos a b Ha Hb Hab).
  split; [done|].
  pose proof (sqrt_pos a). pose proof (sqrt_pos b).
  apply Rdiv_unit_interval; lra.
Qed.

(** ** Crisp TOPSIS *)

Section TOPSIS.
Variable data : list InventoryItem.

Lemma topsis_matrix_lookup (idx : nat) (item : InventoryItem) :
  data !! idx = Some item ->
  topsis_matrix data !! idx = Some ((fun c => getValue item c) <$> criteria).
Proof. intros H. unfold topsis_matrix. by rewrite list_lookup_fmap, H. Qed.

Lemma topsis_matrix_rows (idx : nat) (row : list R) :
  topsis_matrix data !! idx = Some row ->
  exists item, data !! idx = Some item /\ row = (fun c => getValue item c) <$> criteria.
Proof.
  unfold topsis_matrix. rewrite list_lookup_fmap. intros H.
  destruct (data !! idx) as [item|]; [|done]. exists item. by simplify_eq/=.
Qed.

Lemma topsis_colSums_length : length (topsis_colSums data) = 5%nat.
Proof. unfold topsis_colSums. by rewrite length_imap. Qed.

(** Every normalized entry is the guarded quotient of the source. *)
Lemma topsis_normalizedMatrix_entry (r i : nat) (row : list R) (val : R) :
  topsis_matrix data !! r = Some row -> row !! i = Some val ->
  exists nrow,
    topsis_normalizedMatrix data !! r = Some nrow
    /\ length nrow = length row
    /\ nrow !! i = Some (if decide (topsis_colSums data !!! i = 0) then 0
                         else val / topsis_colSums data !!! i).
Proof.
  intros Hr Hi. unfold topsis_normalizedMatrix. rewrite list_lookup_fmap, Hr. simpl.
  eexists. split; [reflexivity|]. split; [apply length_imap|].
  by rewrite list_lookup_imap, Hi.
Qed.

Lemma topsis_normalizedMatrix_rows (r : nat) (nrow : list R) :
  topsis_normalizedMatrix data !! r = Some nrow ->
  exists row, topsis_matrix data !! r = Some row /\ length row = 5%nat
    /\ nrow = imap (fun i val => if decide (topsis_colSums data !!! i = 0) then 0
                                  else val / topsis_colSums data !!! i) row.
Proof.
  unfold topsis_normalizedMatrix. rewrite list_lookup_fmap. intros H.
  destruct (topsis_matrix data !! r) as [row|] eqn:E; [|done].
  exists row. split; [done|]. split; [|by simplify_eq/=].
  apply topsis_matrix_rows in E as (item & _ & ->). by rewrite length_fmap.
Qed.

Variable weights : EntropyWeights.

Lemma topsis_weightedMatrix_lookup (idx : nat) (item : InventoryItem) :
  data !! idx = Some item ->
  exists wrow, topsis_weightedMatrix data weights !! idx = Some wrow
               /\ topsis_weightedMatrix data weights !!! idx = wrow
               /\ length wrow = 5%nat.
Proof.
  intros H. apply topsis_matrix_lookup in H.
  unfold topsis_weightedMatrix, topsis_normalizedMatrix.
  eexists. split.
  - rewrite !list_lookup_fmap, H. reflexivity.
  - split.
    + apply list_lookup_total_correct. rewrite !list_lookup_fmap, H. reflexivity.
    + by rewrite !length_imap, length_fmap.
Qed.

Lemma calculateTOPSIS_lookup (idx : nat) (item : InventoryItem) :
  data !! idx = Some item ->
  calculateTOPSIS data weights !! idx =
  Some (with_TOPSIS_Score item
          (topsis_score (topsis_weightedMatrix data weights !!! idx)
             (topsis_idealBest data weights) (topsis_idealWorst data weights))).
Proof. intros H. unfold calculateTOPSIS. by rewrite list_lookup_imap, H. Qed.

End TOPSIS.

(** The sum of squared differences that [calculateTOPSIS] reduces over a
    weighted row is non-negative, and positive as soon as the row leaves
    the ideal point in one coordinate. *)
Lemma sq_distance_nonneg (row ideal : list R) :
  0 <= reduce (fun sum val i => sum + (val - ideal !!! i) ^ 2) row 0.
Proof.
  rewrite (reduce_sum (fun val i => (val - ideal !!! i) ^ 2)).
  apply Rsum_nonneg, Forall_forall. intros x Hx.
  apply elem_of_lookup_imap in Hx as (i & v & -> & _). apply pow2_nonneg.
Qed.

Lemma sq_distance_pos (row ideal : list R) (i : nat) (val : R) :
  row !! i = Some val -> val <> ideal !!! i ->
  0 < reduce (fun sum val i => sum + (val - ideal !!! i) ^ 2) row 0.
Proof.
  intros Hi Hne.
  rewrite (reduce_sum (fun val i => (val - ideal !!! i) ^ 2)).
  apply (Rsum_pos _ ((val - ideal !!! i) ^ 2)).
  - apply Forall_forall. intros x Hx.
    apply elem_of_lookup_imap in Hx as (j & v & -> & _). apply pow2_nonneg.
  - apply elem_of_lookup_imap. by exists i, val.
  - apply pow2_pos. lra.
Qed.

(** C8.  In [calculateTOPSIS], when the Euclidean norm [colSums[i]] of a
    criterion column is 0, every normalized entry of that column is 0: the
    guard [colSums[i] === 0 ? 0 : val / colSums[i]] answers 0 and the
    quotient by the zero norm is never formed.  Every normalized row has its
    five entries. *)
Theorem topsis_zero_norm_column (data : list InventoryItem) (i : nat) :
  (i < 5)%nat ->
  topsis_colSums data !!! i = 0 ->
  forall (r : nat) (nrow : list R),
    topsis_normalizedMatrix data !! r = Some nrow ->
    length nrow = 5%nat /\ nrow !! i = Some 0.
Proof.
  intros Hi Hz r nrow Hr.
  apply topsis_normalizedMatrix_rows in Hr as (row & Hrow & Hlen & ->).
  split; [by rewrite length_imap|].
  rewrite list_lookup_imap.
  destruct (lookup_lt_is_Some_2 row i) as [val Hval]; [lia|].
  rewrite Hval. simpl. by rewrite decide_True.
Qed.

(** C1.  Whenever the ideal-best point differs from the ideal-worst point in
    one of the five weighted dimensions, [calculateTOPSIS] gives every item
    a [TOPSIS_Score] equal to [dWorst / (dBest + dWorst)], with
    [dBest + dWorst > 0], and that score lies in [0,1]. *)
Theorem calculateTOPSIS_score_range (data : list InventoryItem)
    (weights : EntropyWeights) :
  (exists i : nat, (i < 5)%nat /\
     topsis_idealBest data weights !!! i <> topsis_idealWorst data weights !!! i) ->
  forall (idx : nat) (item : InventoryItem),
    data !! idx = Some item ->
    exists dBest dWorst : R,
      dBest = sqrt (reduce (fun sum val i =>
                              sum + (val - topsis_idealBest data weights !!! i) ^ 2)
                           (topsis_weightedMatrix data weights !!! idx) 0)
      /\ dWorst = sqrt (reduce (fun sum val i =>
                                  sum + (val - topsis_idealWorst data weights !!! i) ^ 2)
                               (topsis_weightedMatrix data weights !!! idx) 0)
      /\ 0 < dBest + dWorst
      /\ calculateTOPSIS data weights !! idx =
         Some (with_TOPSIS_Score item (dWorst / (dBest + dWorst)))
      /\ TOPSIS_Score (with_TOPSIS_Score item (dWorst / (dBest + dWorst))) =
         Some (dWorst / (dBest + dWorst))
      /\ 0 <= dWorst / (dBest + dWorst) <= 1.
Proof.
  intros (i & Hi & Hne) idx item H.
  destruct (topsis_weightedMatrix_lookup data weights idx item H)
    as (wrow & _ & Hw & Hlen).
  destruct (lookup_lt_is_Some_2 wrow i) as [val Hval]; [lia|].
  set (best := topsis_idealBest data weights) in *.
  set (worst := topsis_idealWorst data weights) in *.
  pose proof (sq_distance_nonneg wrow best) as Hb.
  pose proof (sq_distance_nonneg wrow worst) as Hwo.
  assert (Hpos : 0 < reduce (fun sum val i => sum + (val - best !!! i) ^ 2) wrow 0 +
                     reduce (fun sum val i => sum + (val - worst !!! i) ^ 2) wrow 0).
  { destruct (decide (val = best !!! i)) as [E|E].
    - assert (val <> worst !!! i) by congruence.
      pose proof (sq_distance_pos wrow worst i val Hval ltac:(done)). lra.
    - pose proof (sq_distance_pos wrow best i val Hval E). lra. }
  destruct (closeness_unit_interval _ _ Hb Hwo Hpos) as [Hden Hrange].
  eexists _, _. split; [reflexivity|]. split; [reflexivity|].
  rewrite Hw.
  split; [exact Hden|].
  split; [|split; [reflexivity | exact Hrange]].
  rewrite (calculateTOPSIS_lookup _ _ _ _ H), Hw. reflexivity.
Qed.

Lemma topsis_zero_norm_column_witness :
  (0 < 5)%nat
  /\ topsis_colSums sample_data !!! 0%nat = 0
  /\ forall r nrow, topsis_normalizedMatrix sample_data !! r = Some nrow ->
       length nrow = 5%nat /\ nrow !! 0%nat = Some 0.
Proof.
  assert (Hz : topsis_colSums sample_data !!! 0%nat = 0).
  { unfold topsis_colSums, topsis_matrix, sample_data, sample_item_1, sample_item_2,
      sample_item.
    cbn -[sqrt pow Rplus].
    replace (0 + 0 ^ 2 + 0 ^ 2) with 0 by lra. apply sqrt_0. }
  split; [lia|]. split; [exact Hz|].
  apply (topsis_zero_norm_column sample_data 0); [lia | exact Hz].
Defined.

Lemma sample_unit_cost_norm : sqrt (0 + 3 ^ 2 + 4 ^ 2) = 5.
Proof. apply sqrt_lem_1; lra. Qed.

Lemma sample_ideal_points_differ :
  topsis_idealBest sample_data sample_entropy_weights !!! 3%nat <>
  topsis_idealWorst sample_data sample_entropy_weights !!! 3%nat.
Proof.
  unfold topsis_idealBest, topsis_idealWorst, topsis_weightedMatrix,
    topsis_normalizedMatrix, topsis_colSums, topsis_matrix, sample_data,
    sample_item_1, sample_item_2, sample_item, sample_entropy_weights.
  cbn -[sqrt pow Rplus Rmult Rdiv Rmin Rmax decide].
  rewrite sample_unit_cost_norm.
  destruct (decide (5 = 0)) as [E|_]; [lra|].
  eval_min_max.
Qed.

Lemma calculateTOPSIS_score_range_witness :
  sample_data !! 0%nat = Some sample_item_1
  /\ exists score : R,
       (TOPSIS_Score <$> calculateTOPSIS sample_data sample_entropy_weights !! 0%nat)
       = Some (Some score)
       /\ 0 <= score <= 1.
Proof.
  assert (H : sample_data !! 0%nat = Some sample_item_1) by reflexivity.
  split; [exact H|].
  destruct (calculateTOPSIS_score_range sample_data sample_entropy_weights
              (ex_intro _ 3%nat (conj (ltac:(lia) : (3 < 5)%nat)
                                      sample_ideal_points_differ))
              0%nat sample_item_1 H)
    as (dBest & dWorst & _ & _ & _ & Hout & Hscore & Hrange).
  exists (dWorst / (dBest + dWorst)).
  split; [|exact Hrange].
  rewrite Hout. simpl. reflexivity.
Defined.

(** ** Fuzzy TOPSIS *)

Lemma vertex_sq_nonneg (w : R) (t ideal : TFN) : 0 <= vertex_sq w t ideal.
Proof.
  unfold vertex_sq.
  pose proof (pow2_nonneg (tfn0 t * w - tfn0 ideal * w)).
  pose proof (pow2_nonneg (tfn1 t * w - tfn1 ideal * w)).
  pose proof (pow2_nonneg (tfn2 t * w - tfn2 ideal * w)).
  lra.
Qed.

(** No weighted TFN is at distance 0 from both (1,1,1) and (0,0,0). *)
Lemma vertex_sq_not_both_zero (t : TFN) :
  0 < vertex_sq fuzzy_weight t fpisBase + vertex_sq fuzzy_weight t fnisBase.
Proof.
  unfold vertex_sq, fuzzy_weight, nCrit, fpisBase, fnisBase, tfn0, tfn1, tfn2; simpl fst; simpl snd.
  set (l := fst (fst t)).
  pose proof (pow2_nonneg (snd (fst t) * (1 / 8) - 1 * (1 / 8))).
  pose proof (pow2_nonneg (snd t * (1 / 8) - 1 * (1 / 8))).
  pose proof (pow2_nonneg (snd (fst t) * (1 / 8) - 0 * (1 / 8))).
  pose proof (pow2_nonneg (snd t * (1 / 8) - 0 * (1 / 8))).
  assert (0 < (l * (1 / 8) - 1 * (1 / 8)) ^ 2 + (l * (1 / 8) - 0 * (1 / 8)) ^ 2).
  { rewrite !pow2_mult. nra. }
  lra.
Qed.

Lemma fuzzy_step_vertex (acc : R * R) (t : TFN) :
  fuzzy_step acc t =
  (fst acc + vertex_sq fuzzy_weight t fpisBase,
   snd acc + vertex_sq fuzzy_weight t fnisBase).
Proof. reflexivity. Qed.

Lemma foldl_fuzzy_step (l : list TFN) (acc : R * R) :
  foldl fuzzy_step acc l =
  (fst acc + Rsum ((fun t => vertex_sq fuzzy_weight t fpisBase) <$> l),
   snd acc + Rsum ((fun t => vertex_sq fuzzy_weight t fnisBase) <$> l)).
Proof.
  revert acc; induction l as [|t l IH]; intros acc.
  - destruct acc; simpl; f_equal; lra.
  - rewrite !fmap_cons. cbn [foldl]. rewrite IH, fuzzy_step_vertex, !Rsum_cons.
    cbn [fst snd]. f_equal; lra.
Qed.

Lemma Rsum_vertex_sq_nonneg (w : R) (ideal : TFN) (l : list TFN) :
  0 <= Rsum ((fun t => vertex_sq w t ideal) <$> l).
Proof.
  apply Rsum_nonneg, Forall_forall. intros x Hx.
  apply list_elem_of_fmap in Hx as (t & -> & _). apply vertex_sq_nonneg.
Qed.

Lemma fuzzy_criteriaMatrix_length (data : list InventoryItem) (tfn : FuzzyTFN)
    (idx : nat) :
  length (fuzzy_criteriaMatrix data tfn idx) = 8%nat.
Proof. reflexivity. Qed.



(** ** Correlation matrix *)

Lemma am_gm_bound (u v w : R) :
  0 <= u -> 0 <= v -> w * w <= u * v -> 2 * w <= u + v.
Proof.
  intros Hu Hv Hw.
  destruct (Rle_lt_dec (2 * w) (u + v)) as [H|H]; [done|exfalso].
  pose proof (Rle_0_sqr (u - v)) as Hsq. unfold Rsqr in Hsq.
  assert (0 < (2 * w - (u + v)) * (2 * w + (u + v))) by (apply Rmult_lt_0_compat; lra).
  lra.
Qed.

Lemma cauchy_schwarz_step (a b S P Q : R) :
  0 <= P -> 0 <= Q -> S * S <= P * Q ->
  (a * b + S) * (a * b + S) <= (a * a + P) * (b * b + Q).
Proof.
  intros HP HQ HS.
  pose proof (Rle_0_sqr a) as Ha. pose proof (Rle_0_sqr b) as Hb.
  pose proof (Rle_0_sqr (a * b)) as Hab. unfold Rsqr in *.
  assert (H3 : 2 * (a * b * S) <= a * a * Q + b * b * P).
  { apply am_gm_bound.
    - by apply Rmult_le_pos.
    - by apply Rmult_le_pos.
    - pose proof (Rmult_le_compat_l _ _ _ Hab HS). lra. }
  lra.
Qed.

Lemma Rsum_cauchy_schwarz {X : Type} (a b : X -> R) (l : list X) :
  0 <= Rsum ((fun d => a d * a d) <$> l)
  /\ 0 <= Rsum ((fun d => b d * b d) <$> l)
  /\ Rsum ((fun d => a d * b d) <$> l) * Rsum ((fun d => a d * b d) <$> l) <=
     Rsum ((fun d => a d * a d) <$> l) * Rsum ((fun d => b d * b d) <$> l).
Proof.
  induction l as [|x l (HP & HQ & HS)].
  - simpl. lra.
  - rewrite !fmap_cons, !Rsum_cons.
    pose proof (Rle_0_sqr (a x)) as Ha. pose proof (Rle_0_sqr (b x)) as Hb.
    unfold Rsqr in *.
    split; [lra|]. split; [lra|].
    by apply cauchy_schwarz_step.
Qed.

Lemma ratio_bound (c x y : R) :
  0 < x -> 0 < y -> c * c <= (x * x) * (y * y) -> -1 <= c / (x * y) <= 1.
Proof.
  intros Hx Hy Hc.
  assert (Hz : 0 < x * y) by (by apply Rmult_lt_0_compat).
  assert (Hc' : c * c <= (x * y) * (x * y)) by lra.
  set (z := x * y) in *.
  assert (Hcz : - z <= c <= z).
  { split.
    - destruct (Rle_lt_dec (- z) c) as [H|H]; [done|exfalso].
      assert (0 < (- z - c) * (z - c)) by (apply Rmult_lt_0_compat; lra). lra.
    - destruct (Rle_lt_dec c z) as [H|H]; [done|exfalso].
      assert (0 < (c - z) * (c + z)) by (apply Rmult_lt_0_compat; lra). lra. }
  pose proof (Rinv_0_lt_compat z Hz) as Hi.
  assert (E : z * / z = 1) by (apply Rinv_r; lra).
  unfold Rdiv. split; nra.
Qed.

Section Pearson.
Variable data : list InventoryItem.
Hypothesis data_nonempty : data <> [].

Lemma data_size_pos : 0 < INR (length data).
Proof. apply lt_0_INR. destruct data; [done|simpl; lia]. Qed.

Lemma covariance_sym (f g : InventoryItem -> R) :
  covariance f g data = covariance g f data.
Proof.
  unfold covariance. f_equal. f_equal. apply list_fmap_ext. intros _ d _. lra.
Qed.

Lemma covariance_self_nonneg (f : InventoryItem -> R) : 0 <= covariance f f data.
Proof.
  unfold covariance.
  destruct (Rsum_cauchy_schwarz (fun d => f d - mean f data) (fun d => f d - mean f data) data)
    as (HP & _).
  pose proof data_size_pos as Hn. pose proof (Rinv_0_lt_compat _ Hn).
  unfold Rdiv. by apply Rmult_le_pos; [|lra].
Qed.

Lemma covariance_cauchy_schwarz (f g : InventoryItem -> R) :
  covariance f g data * covariance f g data <= covariance f f data * covariance g g data.
Proof.
  unfold covariance.
  destruct (Rsum_cauchy_schwarz (fun d => f d - mean f data) (fun d => g d - mean g data) data)
    as (HP & HQ & HS).
  pose proof data_size_pos as Hn. pose proof (Rinv_0_lt_compat _ Hn) as Hi.
  set (S := Rsum ((fun d => (f d - mean f data) * (g d - mean g data)) <$> data)) in *.
  set (P := Rsum ((fun d => (f d - mean f data) * (f d - mean f data)) <$> data)) in *.
  set (Q := Rsum ((fun d => (g d - mean g data) * (g d - mean g data)) <$> data)) in *.
  set (k := / INR (length data)) in *.
  unfold Rdiv. fold k.
  assert (0 <= k * k) by nra.
  replace (S * k * (S * k)) with ((S * S) * (k * k)) by ring.
  replace (P * k * (Q * k)) with ((P * Q) * (k * k)) by ring.
  by apply Rmult_le_compat_r.
Qed.

Lemma std_dev_sqr (f : InventoryItem -> R) :
  std_dev f data * std_dev f data = covariance f f data.
Proof. unfold std_dev. apply sqrt_sqrt, covariance_self_nonneg. Qed.

Lemma std_dev_nonneg (f : InventoryItem -> R) : 0 <= std_dev f data.
Proof. apply sqrt_pos. Qed.

Lemma pearson_sym (f g : InventoryItem -> R) : pearson f g data = pearson g f data.
Proof.
  unfold pearson.
  destruct (decide (std_dev f data = 0 \/ std_dev g data = 0)) as [H|H];
    destruct (decide (std_dev g data = 0 \/ std_dev f data = 0)) as [H'|H'];
    try tauto.
  by rewrite covariance_sym, (Rmult_comm (std_dev f data)).
Qed.

Lemma pearson_degenerate (f g : InventoryItem -> R) :
  std_dev f data = 0 \/ std_dev g data = 0 -> pearson f g data = 0.
Proof. intros H. unfold pearson. by rewrite decide_True. Qed.

Lemma pearson_range (f g : InventoryItem -> R) : -1 <= pearson f g data <= 1.
Proof.
  unfold pearson. destruct (decide _) as [H|H]; [lra|].
  pose proof (std_dev_nonneg f). pose proof (std_dev_nonneg g).
  apply ratio_bound; [lra | lra |].
  rewrite !std_dev_sqr. apply covariance_cauchy_schwarz.
Qed.

Lemma pearson_diag (f : InventoryItem -> R) :
  covariance f f data <> 0 -> pearson f f data = 1.
Proof.
  intros Hv. unfold pearson.
  assert (Hs : std_dev f data <> 0).
  { intros E. apply Hv. by rewrite <- std_dev_sqr, E, Rmult_0_l. }
  rewrite decide_False by tauto.
  rewrite std_dev_sqr. by apply Rdiv_diag.
Qed.

End Pearson.

Section CorrelationCode.
Variables (data : list InventoryItem) (columns : list string).

Lemma corr_values_lookup (i : nat) (c : string) :
  columns !! i = Some c ->
  corr_values data columns !! i = Some ((fun d => getValue d c) <$> data)
  /\ corr_values data columns !!! i = (fun d => getValue d c) <$> data.
Proof.
  intros H.
  assert (E : corr_values data columns !! i = Some ((fun d => getValue d c) <$> data)).
  { unfold corr_values. by rewrite list_lookup_fmap, H. }
  split; [done | by apply list_lookup_total_correct].
Qed.

Lemma corr_means_lookup (i : nat) (c : string) :
  columns !! i = Some c ->
  corr_means data columns !!! i = mean (fun d => getValue d c) data.
Proof.
  intros H. apply list_lookup_total_correct.
  unfold corr_means. rewrite list_lookup_fmap.
  destruct (corr_values_lookup i c H) as [-> _]. simpl.
  by rewrite reduce_plus.
Qed.

Lemma corr_variance_covariance (i : nat) (c : string) :
  columns !! i = Some c ->
  corr_variance data columns i ((fun d => getValue d c) <$> data) =
  covariance (fun d => getValue d c) (fun d => getValue d c) data.
Proof.
  intros H. unfold corr_variance, covariance.
  rewrite (corr_means_lookup i c H).
  rewrite (reduce_sum_map (fun v => (v - mean (fun d => getValue d c) data) ^ 2)).
  rewrite <- list_fmap_compose. f_equal. f_equal.
  apply list_fmap_ext. intros _ d _. simpl. apply pow2_mult.
Qed.

Lemma corr_stds_lookup (i : nat) (c : string) :
  columns !! i = Some c ->
  corr_stds data columns !!! i = std_dev (fun d => getValue d c) data.
Proof.
  intros H. apply list_lookup_total_correct.
  unfold corr_stds. rewrite list_lookup_imap.
  destruct (corr_values_lookup i c H) as [-> _]. simpl.
  by rewrite (corr_variance_covariance i c H).
Qed.

(** The covariance loop reads [values[j][k]] by index; it is the sum of the
    products of the two centred columns. *)
Lemma corr_cov_reduce (f g : InventoryItem -> R) (mi mj : R) :
  reduce (fun sum v k => sum + (v - mi) * ((g <$> data) !!! k - mj)) (f <$> data) 0 =
  Rsum ((fun d => (f d - mi) * (g d - mj)) <$> data).
Proof.
  rewrite (reduce_sum (fun v k => (v - mi) * ((g <$> data) !!! k - mj))).
  rewrite imap_fmap. rewrite <- (imap_const (fun d => (f d - mi) * (g d - mj))).
  f_equal. apply imap_ext. intros k d Hd. simpl.
  rewrite (list_lookup_total_correct (g <$> data) k (g d)); [done|].
  by rewrite list_lookup_fmap, Hd.
Qed.

(** The entry the code computes is the Pearson coefficient of the two
    columns. *)
Lemma corr_entry_pearson (i j : nat) (ci cj : string) :
  columns !! i = Some ci -> columns !! j = Some cj ->
  corr_entry data columns i j =
  pearson (fun d => getValue d ci) (fun d => getValue d cj) data.
Proof.
  intros Hi Hj. unfold corr_entry, pearson. cbv zeta.
  rewrite (corr_stds_lookup i ci Hi), (corr_stds_lookup j cj Hj).
  rewrite (corr_means_lookup i ci Hi), (corr_means_lookup j cj Hj).
  destruct (corr_values_lookup i ci Hi) as [_ ->].
  destruct (corr_values_lookup j cj Hj) as [_ ->].
  by rewrite corr_cov_reduce.
Qed.

Lemma correlation_matrix_lookup (i j : nat) :
  (i < length columns)%nat -> (j < length columns)%nat ->
  exists row,
    matrix (calculateCorrelationMatrix data columns) !! i = Some row
    /\ length row = length columns
    /\ row !! j = Some (corr_entry data columns i j).
Proof.
  intros Hi Hj.
  apply lookup_lt_is_Some_2 in Hi as [ci Hci].
  apply lookup_lt_is_Some_2 in Hj as [cj Hcj].
  eexists. split; [simpl; rewrite list_lookup_imap, Hci; reflexivity|].
  split; [apply length_imap|].
  by rewrite list_lookup_imap, Hcj.
Qed.

End CorrelationCode.



(** ** Entropy weights *)

Lemma ln_le_minus_1 (y : R) : 0 < y -> ln y <= y - 1.
Proof.
  intros Hy. pose proof (exp_ineq1_le (ln y)) as H.
  rewrite exp_ln in H by done. lra.
Qed.

Lemma ln_lt_minus_1 (y : R) : 0 < y -> y <> 1 -> ln y < y - 1.
Proof.
  intros Hy Hne.
  assert (Hl : ln y <> 0).
  { intros E. apply Hne. apply ln_inv; [done | lra |]. by rewrite ln_1. }
  pose proof (exp_ineq1 (ln y) Hl) as H.
  rewrite exp_ln in H by done. lra.
Qed.

(** One term of Gibbs' inequality against the uniform distribution on [c]
    points. *)
Lemma gibbs_term (c p : R) :
  0 < c -> 0 < p ->
  p * (- ln c - ln p) <= / c - p
  /\ (p <> / c -> p * (- ln c - ln p) < / c - p).
Proof.
  intros Hc Hp.
  assert (Hcp : 0 < c * p) by (by apply Rmult_lt_0_compat).
  assert (Hy : 0 < / (c * p)) by (by apply Rinv_0_lt_compat).
  assert (El : ln (/ (c * p)) = - ln c - ln p).
  { rewrite ln_Rinv by done. rewrite ln_mult by done. lra. }
  assert (Ep : p * (/ (c * p) - 1) = / c - p).
  { field. split; lra. }
  rewrite <- El, <- Ep. split.
  - apply Rmult_le_compat_l; [lra|]. by apply ln_le_minus_1.
  - intros Hne. apply Rmult_lt_compat_l; [done|].
    apply ln_lt_minus_1; [done|].
    intros E. apply Hne.
    assert (c * p = 1).
    { rewrite <- (Rinv_inv (c * p)), E. apply Rinv_1. }
    apply (Rmult_eq_reg_l c); [|lra]. rewrite Rinv_r by lra. done.
Qed.

Lemma gibbs_sum (c : R) (ps : list R) :
  0 < c -> Forall (fun p => 0 < p) ps ->
  Rsum ((fun p => p * (- ln c - ln p)) <$> ps) <= INR (length ps) * / c - Rsum ps
  /\ ((exists p, p ∈ ps /\ p <> / c) ->
      Rsum ((fun p => p * (- ln c - ln p)) <$> ps) < INR (length ps) * / c - Rsum ps).
Proof.
  intros Hc. induction 1 as [|p ps Hp Hps [IHle IHlt]].
  - split; [simpl; lra|]. intros (p & Hin & _). by apply elem_of_nil in Hin.
  - rewrite fmap_cons, !Rsum_cons, length_cons, S_INR.
    destruct (gibbs_term c p Hc Hp) as [Hle Hlt].
    split; [lra|].
    intros (q & Hin & Hne). apply elem_of_cons in Hin as [->|Hin].
    + specialize (Hlt Hne). lra.
    + assert (Hex : exists p0, p0 ∈ ps /\ p0 <> / c) by eauto.
      specialize (IHlt Hex). lra.
Qed.

Lemma Rsum_entropy_split (c : R) (ps : list R) :
  Rsum ((fun p => p * (- ln c - ln p)) <$> ps) =
  - ln c * Rsum ps - Rsum ((fun p => p * ln p) <$> ps).
Proof.
  induction ps as [|p ps IH]; [simpl; lra|].
  rewrite !fmap_cons, !Rsum_cons, IH. lra.
Qed.

Lemma Rsum_scale (s : R) (xs : list R) :
  Rsum ((fun v => v / s) <$> xs) = Rsum xs / s.
Proof.
  induction xs as [|x xs IH]; [simpl; lra|].
  rewrite fmap_cons, !Rsum_cons, IH. lra.
Qed.

Lemma Rsum_positive (xs : list R) :
  Forall (fun x => 0 < x) xs -> xs <> [] -> 0 < Rsum xs.
Proof.
  induction 1 as [|x xs Hx Hxs IH]; [done|intros _].
  rewrite Rsum_cons. destruct xs as [|y xs']; [simpl; lra|].
  assert (0 < Rsum (y :: xs')) by (by apply IH). lra.
Qed.

(** The normalized Shannon entropy of the proportions of a positive,
    non-constant series is strictly below 1. *)
Lemma entropy_below_1 (xs : list R) (a b : R) :
  Forall (fun x => 0 < x) xs -> a ∈ xs -> b ∈ xs -> a <> b ->
  let k := 1 / ln (INR (length xs)) in
  let sum := Rsum xs in
  - k * Rsum ((fun p => p * ln p) <$> ((fun v => v / sum) <$> xs)) < 1.
Proof.
  intros Hpos Ha Hb Hab k sum.
  assert (Hne : xs <> []) by (intros ->; by apply elem_of_nil in Ha).
  assert (Hs : 0 < sum) by (by apply Rsum_positive).
  pose proof (Rinv_0_lt_compat _ Hs) as Hsi.
  assert (Hlen : (2 <= length xs)%nat).
  { destruct xs as [|x [|y xs']]; simpl; try lia; [done|].
    apply list_elem_of_singleton in Ha, Hb. congruence. }
  set (n := INR (length xs)) in *.
  assert (Hn : 2 <= n) by (unfold n; apply (le_INR 2); lia).
  assert (Hln : 0 < ln n).
  { rewrite <- ln_1. apply ln_increasing; lra. }
  set (ps := (fun v => v / sum) <$> xs).
  assert (Hps : Forall (fun p => 0 < p) ps).
  { apply Forall_fmap. eapply Forall_impl; [exact Hpos|].
    intros x Hx. simpl. by apply Rdiv_lt_0_compat. }
  assert (Hsum1 : Rsum ps = 1).
  { unfold ps. rewrite Rsum_scale. fold sum. apply Rdiv_diag. lra. }
  assert (Hex : exists p, p ∈ ps /\ p <> / n).
  { destruct (decide (a / sum = / n)) as [Ea|Ea].
    - exists (b / sum). split; [by apply (list_elem_of_fmap_2 (fun v => v / sum))|].
      intros Eb. apply Hab.
      apply (Rmult_eq_reg_r (/ sum)); [|lra]. unfold Rdiv in *. congruence.
    - exists (a / sum). split; [by apply (list_elem_of_fmap_2 (fun v => v / sum))|done]. }
  destruct (gibbs_sum n ps ltac:(lra) Hps) as [_ Hlt].
  specialize (Hlt Hex).
  rewrite Rsum_entropy_split, Hsum1 in Hlt.
  assert (El : INR (length ps) = n) by (unfold ps; by rewrite length_fmap).
  rewrite El, Rinv_r in Hlt by lra.
  set (H := Rsum ((fun p => p * ln p) <$> ps)) in *.
  assert (HH : - H < ln n) by lra.
  unfold k. pose proof (Rinv_0_lt_compat _ Hln) as Hi.
  replace (- (1 / ln n) * H) with (- H * / ln n) by (unfold Rdiv; ring).
  apply (Rmult_lt_reg_r (ln n)); [done|].
  rewrite Rmult_assoc, Rinv_l by lra. lra.
Qed.

Lemma Record_get_build {V : Type} `{Inhabited V} (keys : list string)
    (f : string -> V) (c : string) :
  c ∈ keys -> Record_get (Record_build keys f) c = f c.
Proof.
  unfold Record_get, Record_build.
  induction keys as [|k keys IH]; intros Hc; [by apply elem_of_nil in Hc|].
  rewrite fmap_cons. simpl.
  destruct (String.eqb k c) eqn:E.
  - apply String.eqb_eq in E. by subst.
  - apply IH. apply elem_of_cons in Hc as [->|Hc]; [|done].
    by rewrite String.eqb_refl in E.
Qed.

Lemma Object_values_build {V : Type} (keys : list string) (f : string -> V) :
  Object_values (Record_build keys f) = f <$> keys.
Proof.
  unfold Object_values, Record_build. rewrite <- list_fmap_compose.
  by apply list_fmap_ext.
Qed.

(** A series with two distinct values is normalized to a series with two
    distinct values. *)
Lemma minMaxNormalize_distinct (values : list R) (v1 v2 : R) :
  v1 ∈ values -> v2 ∈ values -> v1 <> v2 ->
  exists a b, a ∈ minMaxNormalize values /\ b ∈ minMaxNormalize values /\ a <> b.
Proof.
  intros H1 H2 Hne.
  pose proof (Math_min_le _ _ H1). pose proof (Math_max_ge _ _ H1).
  pose proof (Math_min_le _ _ H2). pose proof (Math_max_ge _ _ H2).
  assert (Hmm : Math_max values <> Math_min values) by lra.
  rewrite (minMaxNormalize_regular _ Hmm).
  set (mn := Math_min values) in *. set (mx := Math_max values) in *.
  exists ((v1 - mn) / (mx - mn)), ((v2 - mn) / (mx - mn)).
  split; [by apply (list_elem_of_fmap_2 (fun v => (v - mn) / (mx - mn)))|].
  split; [by apply (list_elem_of_fmap_2 (fun v => (v - mn) / (mx - mn)))|].
  intros E. apply Hne.
  assert (Hd : / (mx - mn) <> 0) by (apply Rinv_neq_0_compat; lra).
  unfold Rdiv in E. apply Rmult_eq_reg_r in E; [lra | done].
Qed.

Section EntropyWeights.
Variable data : list InventoryItem.

Lemma entropy_matrices_get (c : string) :
  c ∈ criteria -> Record_get (entropy_matrices data) c = entropy_column data c.
Proof. intros Hc. unfold entropy_matrices. by rewrite Record_get_build. Qed.

Lemma entropy_proportions_get (c : string) :
  c ∈ criteria ->
  Record_get (entropy_proportions data) c =
  (fun v => v / Rsum (entropy_column data c)) <$> entropy_column data c.
Proof.
  intros Hc. unfold entropy_proportions. cbv zeta.
  rewrite Record_get_build by done.
  by rewrite entropy_matrices_get, reduce_plus.
Qed.

Lemma entropy_entropy_get (c : string) :
  c ∈ criteria ->
  Record_get (entropy_entropy data) c =
  - (1 / ln (INR (length data))) *
    Rsum ((fun p => p * ln p) <$> ((fun v => v / Rsum (entropy_column data c)) <$> entropy_column data c)).
Proof.
  intros Hc. unfold entropy_entropy. cbv zeta.
  rewrite Record_get_build by done.
  rewrite entropy_proportions_get by done.
  by rewrite (reduce_sum_map (fun p => p * ln p)).
Qed.

Lemma entropy_diversity_get (c : string) :
  c ∈ criteria ->
  Record_get (entropy_diversity data) c = 1 - Record_get (entropy_entropy data) c.
Proof. intros Hc. unfold entropy_diversity. cbv zeta. by rewrite Record_get_build. Qed.

Lemma column_length (c : string) : length (entropy_column data c) = length data.
Proof. unfold entropy_column. by rewrite length_fmap, minMaxNormalize_length, length_fmap. Qed.

Lemma column_positive (c : string) : Forall (fun x => 0 < x) (entropy_column data c).
Proof.
  unfold entropy_column. apply Forall_fmap.
  eapply Forall_impl; [apply minMaxNormalize_range|]. intros x Hx. simpl. lra.
Qed.

Lemma entropy_diversity_pos (c : string) :
  c ∈ criteria -> two_distinct_values data c ->
  0 < Record_get (entropy_diversity data) c.
Proof.
  intros Hc (d1 & d2 & H1 & H2 & Hne).
  rewrite entropy_diversity_get, entropy_entropy_get by done.
  destruct (minMaxNormalize_distinct ((fun d => getValue d c) <$> data)
              (getValue d1 c) (getValue d2 c)) as (a & b & Ha & Hb & Hab).
  { by apply (list_elem_of_fmap_2 (fun d => getValue d c)). }
  { by apply (list_elem_of_fmap_2 (fun d => getValue d c)). }
  { done. }
  pose proof (entropy_below_1 (entropy_column data c) (a + 0.0001) (b + 0.0001)
                (column_positive c)) as Hlt.
  rewrite column_length in Hlt. cbv zeta in Hlt.
  assert (a + 0.0001 ∈ entropy_column data c)
    by (by apply (list_elem_of_fmap_2 (fun v => v + 0.0001))).
  assert (b + 0.0001 ∈ entropy_column data c)
    by (by apply (list_elem_of_fmap_2 (fun v => v + 0.0001))).
  assert (a + 0.0001 <> b + 0.0001) by lra.
  specialize (Hlt ltac:(done) ltac:(done) ltac:(done)). lra.
Qed.

End EntropyWeights.

Lemma weights_normalized (d1 d2 d3 d4 d5 : R) :
  0 < d1 -> 0 < d2 -> 0 < d3 -> 0 < d4 -> 0 < d5 ->
  let total := d1 + d2 + d3 + d4 + d5 in
  (0 <= d1 / total /\ 0 <= d2 / total /\ 0 <= d3 / total /\ 0 <= d4 / total
   /\ 0 <= d5 / total)
  /\ d1 / total + d2 / total + d3 / total + d4 / total + d5 / total = 1.
Proof.
  intros H1 H2 H3 H4 H5 total.
  assert (Ht : 0 < total) by (unfold total; lra).
  pose proof (Rinv_0_lt_compat _ Ht) as Hi.
  split.
  - unfold Rdiv. repeat split; apply Rmult_le_pos; lra.
  - unfold Rdiv. rewrite <- !Rmult_plus_distr_r. fold total. apply Rinv_r. lra.
Qed.

(** C2.  For a dataset with more than one item in which each of the five
    criterion columns takes at least two distinct values, every weight
    returned by [calculateEntropyWeights] is non-negative and the five
    weights sum to 1 (hence within 1e-9 of 1). *)
Theorem calculateEntropyWeights_normalized (data : list InventoryItem) :
  (1 < length data)%nat ->
  (forall c, c ∈ criteria -> two_distinct_values data c) ->
  let w := calculateEntropyWeights data in
  0 <= ew_Criticality_Agg w /\ 0 <= ew_Demand_Agg w /\ 0 <= ew_Supply_Agg w
  /\ 0 <= ew_Unit_cost w /\ 0 <= ew_Size_Score w
  /\ ew_Criticality_Agg w + ew_Demand_Agg w + ew_Supply_Agg w
     + ew_Unit_cost w + ew_Size_Score w = 1
  /\ Rabs (ew_Criticality_Agg w + ew_Demand_Agg w + ew_Supply_Agg w
           + ew_Unit_cost w + ew_Size_Score w - 1) <= 1e-9.
Proof.
  intros _ Hcols w.
  assert (Hin : forall c, c ∈ criteria -> 0 < Record_get (entropy_diversity data) c).
  { intros c Hc. apply entropy_diversity_pos; auto. }
  assert (H1 : 0 < Record_get (entropy_diversity data) "Criticality_Agg")
    by (apply Hin; unfold criteria; set_solver).
  assert (H2 : 0 < Record_get (entropy_diversity data) "Demand_Agg")
    by (apply Hin; unfold criteria; set_solver).
  assert (H3 : 0 < Record_get (entropy_diversity data) "Supply_Agg")
    by (apply Hin; unfold criteria; set_solver).
  assert (H4 : 0 < Record_get (entropy_diversity data) "Unit cost")
    by (apply Hin; unfold criteria; set_solver).
  assert (H5 : 0 < Record_get (entropy_diversity data) "Size_Score")
    by (apply Hin; unfold criteria; set_solver).
  assert (Ht : reduce (fun a b _ => a + b) (Object_values (entropy_diversity data)) 0 =
               Record_get (entropy_diversity data) "Criticality_Agg"
               + Record_get (entropy_diversity data) "Demand_Agg"
               + Record_get (entropy_diversity data) "Supply_Agg"
               + Record_get (entropy_diversity data) "Unit cost"
               + Record_get (entropy_diversity data) "Size_Score").
  { rewrite reduce_plus.
    rewrite !entropy_diversity_get by (unfold criteria; set_solver).
    unfold entropy_diversity at 1. cbv zeta. rewrite Object_values_build.
    unfold criteria at 1. rewrite !fmap_cons, fmap_nil, !Rsum_cons. simpl Rsum. lra. }
  destruct (weights_normalized _ _ _ _ _ H1 H2 H3 H4 H5)
    as ((W1 & W2 & W3 & W4 & W5) & Wsum).
  unfold w, calculateEntropyWeights. cbv zeta.
  cbn [ew_Criticality_Agg ew_Demand_Agg ew_Supply_Agg ew_Unit_cost ew_Size_Score].
  rewrite Ht.
  repeat (split; [assumption|]).
  rewrite Wsum, Rminus_diag, Rabs_R0. lra.
Qed.

Lemma sample_aggregated_distinct (c : string) :
  c ∈ criteria -> two_distinct_values sample_aggregated c.
Proof.
  intros Hc. unfold criteria in Hc.
  exists (aggregated_item 1 0.1 0.2 0.3 3 0.13), (aggregated_item 2 0.4 0.5 0.6 4 0.53).
  split; [left|]. split; [right; left|].
  repeat (apply elem_of_cons in Hc as [->|Hc]);
    [| | | | | by apply elem_of_nil in Hc];
    unfold getValue, aggregated_item; cbn [String.eqb Ascii.eqb Bool.eqb]; simpl; lra.
Qed.

Lemma calculateEntropyWeights_normalized_witness :
  (1 < length sample_aggregated)%nat
  /\ 0 <= ew_Unit_cost (calculateEntropyWeights sample_aggregated)
  /\ ew_Criticality_Agg (calculateEntropyWeights sample_aggregated)
     + ew_Demand_Agg (calculateEntropyWeights sample_aggregated)
     + ew_Supply_Agg (calculateEntropyWeights sample_aggregated)
     + ew_Unit_cost (calculateEntropyWeights sample_aggregated)
     + ew_Size_Score (calculateEntropyWeights sample_aggregated) = 1.
Proof.
  assert (Hn : (1 < length sample_aggregated)%nat) by (simpl; lia).
  split; [exact Hn|].
  destruct (calculateEntropyWeights_normalized sample_aggregated Hn
              sample_aggregated_distinct)
    as (_ & _ & _ & H4 & _ & Hsum & _).
  split; [exact H4 | exact Hsum].
Defined.

(** * Further properties of the pipeline *)

(** ** Normalizer: order, end points, idempotence, change of unit *)

Lemma minMaxNormalize_lookup_eq (values : list R) (i : nat) :
  minMaxNormalize values !! i =
  (fun v => if decide (Math_max values = Math_min values) then 0.5
            else (v - Math_min values) / (Math_max values - Math_min values))
  <$> values !! i.
Proof.
  unfold minMaxNormalize. destruct (decide _); by rewrite list_lookup_fmap.
Qed.

(** X1.  [minMaxNormalize] keeps the order of the values: a value that is
    not larger than another is mapped to an entry that is not larger.  On a
    series that is not constant the minimum is mapped to 0 and the maximum
    to 1. *)
Theorem minMaxNormalize_order_endpoints (values : list R) (i j : nat) (vi vj : R) :
  values !! i = Some vi -> values !! j = Some vj ->
  exists xi xj : R,
    minMaxNormalize values !! i = Some xi
    /\ minMaxNormalize values !! j = Some xj
    /\ (vi <= vj -> xi <= xj)
    /\ (Math_max values <> Math_min values ->
        (vi = Math_min values -> xi = 0) /\ (vi = Math_max values -> xi = 1)
        /\ (vi < vj -> xi < xj)).
Proof.
  intros Hi Hj. rewrite !minMaxNormalize_lookup_eq, Hi, Hj. simpl.
  eexists _, _. split; [reflexivity|]. split; [reflexivity|].
  pose proof (Math_min_le values vi ltac:(by eapply list_elem_of_lookup_2)).
  pose proof (Math_max_ge values vi ltac:(by eapply list_elem_of_lookup_2)).
  destruct (decide (Math_max values = Math_min values)) as [E|E].
  - split; [lra | done].
  - assert (Hd : 0 < Math_max values - Math_min values) by lra.
    pose proof (Rinv_0_lt_compat _ Hd) as Hinv.
    split; [|split; [|split]].
    + intros Hle. unfold Rdiv. apply Rmult_le_compat_r; lra.
    + intros ->. unfold Rdiv. rewrite Rminus_diag. lra.
    + intros ->. by apply Rdiv_diag, Rgt_not_eq.
    + intros Hlt. unfold Rdiv. apply Rmult_lt_compat_r; lra.
Qed.

Lemma minMaxNormalize_order_endpoints_witness :
  exists xi xj : R,
    minMaxNormalize [4; 1; 3] !! 1%nat = Some xi
    /\ minMaxNormalize [4; 1; 3] !! 2%nat = Some xj
    /\ xi <= xj.
Proof.
  destruct (minMaxNormalize_order_endpoints [4; 1; 3] 1 2 1 3 eq_refl eq_refl)
    as (xi & xj & Hi & Hj & Hle & _).
  exists xi, xj. split; [exact Hi|]. split; [exact Hj|]. apply Hle. lra.
Defined.

Lemma fmap_const_twice {X Y Z : Type} (c : Z) (d : Y) (l : list X) :
  (fun _ => c) <$> ((fun _ => d) <$> l) = (fun _ : X => c) <$> l.
Proof. induction l as [|x l IH]; [done|]. rewrite !fmap_cons. by f_equal. Qed.

Lemma Math_min_unique (values : list R) (m : R) :
  m ∈ values -> (forall v, v ∈ values -> m <= v) -> Math_min values = m.
Proof.
  intros Hm Hle.
  assert (Hne : values <> []) by (intros ->; by apply elem_of_nil in Hm).
  pose proof (Math_min_le values m Hm). pose proof (Hle _ (Math_min_elem values Hne)). lra.
Qed.

Lemma Math_max_unique (values : list R) (m : R) :
  m ∈ values -> (forall v, v ∈ values -> v <= m) -> Math_max values = m.
Proof.
  intros Hm Hle.
  assert (Hne : values <> []) by (intros ->; by apply elem_of_nil in Hm).
  pose proof (Math_max_ge values m Hm). pose proof (Hle _ (Math_max_elem values Hne)). lra.
Qed.

Lemma minMaxNormalize_nil : minMaxNormalize [] = [].
Proof. unfold minMaxNormalize. by destruct (decide _). Qed.

(** X2.  Normalizing an already normalized series changes nothing. *)
Theorem minMaxNormalize_idempotent (values : list R) :
  minMaxNormalize (minMaxNormalize values) = minMaxNormalize values.
Proof.
  destruct (decide (values = [])) as [->|Hne].
  { by rewrite !minMaxNormalize_nil. }
  destruct (decide (Math_max values = Math_min values)) as [E|E].
  - rewrite (minMaxNormalize_degenerate values E).
    assert (Hh : 0.5 ∈ (fun _ : R => 0.5) <$> values).
    { destruct values as [|v vs]; [done|]. rewrite fmap_cons. left. }
    assert (Hall : forall v, v ∈ (fun _ : R => 0.5) <$> values -> v = 0.5).
    { intros v Hv. by apply list_elem_of_fmap in Hv as (? & -> & _). }
    rewrite minMaxNormalize_degenerate.
    + apply fmap_const_twice.
    + rewrite (Math_max_unique _ 0.5), (Math_min_unique _ 0.5); try done.
      * intros v Hv. rewrite (Hall v Hv). lra.
      * intros v Hv. rewrite (Hall v Hv). lra.
  - pose proof (minMaxNormalize_range values) as Hr. rewrite Forall_forall in Hr.
    assert (H0 : 0 ∈ minMaxNormalize values).
    { rewrite (minMaxNormalize_regular values E).
      apply list_elem_of_fmap. exists (Math_min values).
      split; [|by apply Math_min_elem]. unfold Rdiv. rewrite Rminus_diag. lra. }
    assert (H1 : 1 ∈ minMaxNormalize values).
    { rewrite (minMaxNormalize_regular values E).
      apply list_elem_of_fmap. exists (Math_max values).
      split; [|by apply Math_max_elem]. symmetry. apply Rdiv_diag. lra. }
    assert (Emin : Math_min (minMaxNormalize values) = 0).
    { apply Math_min_unique; [done|]. intros v Hv. by apply Hr. }
    assert (Emax : Math_max (minMaxNormalize values) = 1).
    { apply Math_max_unique; [done|]. intros v Hv. by apply Hr. }
    rewrite (minMaxNormalize_regular (minMaxNormalize values)) by lra.
    rewrite Emin, Emax.
    rewrite <- (list_fmap_id (minMaxNormalize values)) at 2.
    apply list_fmap_ext. intros _ x _. simpl. lra.
Qed.

(** X3.  The result does not depend on the unit of the series: rescaling
    every value by a positive factor and shifting it by a constant gives the
    same normalized series. *)
Theorem minMaxNormalize_affine_invariant (a b : R) (values : list R) :
  0 < a ->
  minMaxNormalize ((fun v => a * v + b) <$> values) = minMaxNormalize values.
Proof.
  intros Ha.
  destruct (decide (values = [])) as [->|Hne]; [by rewrite fmap_nil|].
  assert (Emin : Math_min ((fun v => a * v + b) <$> values) = a * Math_min values + b).
  { apply Math_min_unique.
    - apply (list_elem_of_fmap_2 (fun v => a * v + b)). by apply Math_min_elem.
    - intros v Hv. apply list_elem_of_fmap in Hv as (w & -> & Hw).
      pose proof (Math_min_le values w Hw). nra. }
  assert (Emax : Math_max ((fun v => a * v + b) <$> values) = a * Math_max values + b).
  { apply Math_max_unique.
    - apply (list_elem_of_fmap_2 (fun v => a * v + b)). by apply Math_max_elem.
    - intros v Hv. apply list_elem_of_fmap in Hv as (w & -> & Hw).
      pose proof (Math_max_ge values w Hw). nra. }
  destruct (decide (Math_max values = Math_min values)) as [E|E].
  - rewrite (minMaxNormalize_degenerate values E).
    rewrite minMaxNormalize_degenerate by (rewrite Emin, Emax, E; done).
    by rewrite <- list_fmap_compose.
  - rewrite (minMaxNormalize_regular values E).
    rewrite minMaxNormalize_regular by (rewrite Emin, Emax; nra).
    rewrite Emin, Emax, <- list_fmap_compose.
    apply list_fmap_ext. intros _ v _. simpl.
    assert (Hd : Math_max values - Math_min values <> 0) by lra.
    replace (a * Math_max values + b - (a * Math_min values + b))
      with (a * (Math_max values - Math_min values)) by ring.
    replace (a * v + b - (a * Math_min values + b))
      with (a * (v - Math_min values)) by ring.
    field. split; lra.
Qed.

Lemma minMaxNormalize_affine_invariant_witness :
  minMaxNormalize ((fun v => 1000 * v + 0) <$> [1; 2; 3; 4]) = minMaxNormalize [1; 2; 3; 4].
Proof. apply minMaxNormalize_affine_invariant. lra. Defined.


(** ** Mapper and aggregator composed *)

Lemma convex_unit (w1 w2 x y : R) :
  0 <= w1 -> 0 <= w2 -> w1 + w2 = 1 -> 0 <= x <= 1 -> 0 <= y <= 1 ->
  0 <= w1 * x + w2 * y <= 1.
Proof. intros. split; nra. Qed.

Lemma table_lookup_unit (table : gmap string R) (label : string) :
  table_in_unit table -> 0 <= default 0 (table !! label) <= 1.
Proof.
  intros Ht. destruct (table !! label) as [v|] eqn:E; simpl; [|lra].
  by apply (Ht label v).
Qed.



Lemma sample_mappings_in_unit : mappings_in_unit sample_mappings.
Proof.
  unfold mappings_in_unit, table_in_unit, sample_mappings; simpl.
  split; [|split; [|split]];
    repeat (apply map_Forall_insert_2; [lra|]); apply map_Forall_empty.
Qed.

Lemma sample_weights_convex : weights_convex sample_weights.
Proof. unfold weights_convex, sample_weights; simpl. repeat split; lra. Qed.



(** ** Entropy weights beyond the regular case *)

Ltac in_criteria :=
  unfold criteria; repeat first [apply list_elem_of_here | apply list_elem_of_further].

Lemma entropy_at_most_1 (xs : list R) :
  Forall (fun x => 0 < x) xs -> (2 <= length xs)%nat ->
  - (1 / ln (INR (length xs))) *
    Rsum ((fun p => p * ln p) <$> ((fun v => v / Rsum xs) <$> xs)) <= 1.
Proof.
  intros Hpos Hlen.
  assert (Hne : xs <> []) by (intros ->; simpl in Hlen; lia).
  assert (Hs : 0 < Rsum xs) by (by apply Rsum_positive).
  set (n := INR (length xs)) in *.
  assert (Hn : 2 <= n) by (unfold n; apply (le_INR 2); lia).
  assert (Hln : 0 < ln n) by (rewrite <- ln_1; apply ln_increasing; lra).
  set (ps := (fun v => v / Rsum xs) <$> xs).
  assert (Hps : Forall (fun p => 0 < p) ps).
  { apply Forall_fmap. eapply Forall_impl; [exact Hpos|].
    intros x Hx. simpl. by apply Rdiv_lt_0_compat. }
  assert (Hsum1 : Rsum ps = 1).
  { unfold ps. rewrite Rsum_scale. apply Rdiv_diag. lra. }
  destruct (gibbs_sum n ps ltac:(lra) Hps) as [Hle _].
  rewrite Rsum_entropy_split, Hsum1 in Hle.
  assert (El : INR (length ps) = n) by (unfold ps; by rewrite length_fmap).
  rewrite El, Rinv_r in Hle by lra.
  set (H := Rsum ((fun p => p * ln p) <$> ps)) in *.
  pose proof (Rinv_0_lt_compat _ Hln) as Hi.
  replace (- (1 / ln n) * H) with (- H * / ln n) by (unfold Rdiv; ring).
  apply (Rmult_le_reg_r (ln n)); [done|].
  rewrite Rmult_assoc, Rinv_l by lra. lra.
Qed.

Lemma Rsum_const {X : Type} (c : R) (l : list X) :
  Rsum ((fun _ => c) <$> l) = INR (length l) * c.
Proof.
  induction l as [|x l IH]; [simpl; lra|].
  rewrite fmap_cons, Rsum_cons, IH, length_cons, S_INR. lra.
Qed.

Section EntropyEdge.
Variable data : list InventoryItem.
Hypothesis data_size : (1 < length data)%nat.

Lemma entropy_diversity_nonneg (c : string) :
  c ∈ criteria -> 0 <= Record_get (entropy_diversity data) c.
Proof.
  intros Hc. rewrite entropy_diversity_get, entropy_entropy_get by done.
  pose proof (entropy_at_most_1 (entropy_column data c) (column_positive data c)) as H.
  rewrite column_length in H. specialize (H ltac:(lia)). lra.
Qed.

Lemma constant_column_values (c : string) :
  constant_column data c ->
  entropy_column data c = (fun _ => 0.5 + 0.0001) <$> data.
Proof.
  intros Hconst. unfold entropy_column.
  assert (Hne : (fun d => getValue d c) <$> data <> []).
  { destruct data; [simpl in data_size; lia | done]. }
  assert (Hall : forall v w, v ∈ (fun d => getValue d c) <$> data ->
                             w ∈ (fun d => getValue d c) <$> data -> v = w).
  { intros v w Hv Hw.
    apply list_elem_of_fmap in Hv as (d1 & -> & H1).
    apply list_elem_of_fmap in Hw as (d2 & -> & H2). by apply Hconst. }
  rewrite minMaxNormalize_degenerate
    by (apply Hall; [by apply Math_max_elem | by apply Math_min_elem]).
  rewrite <- !list_fmap_compose. by apply list_fmap_ext.
Qed.

Lemma constant_column_diversity (c : string) :
  c ∈ criteria -> constant_column data c ->
  Record_get (entropy_diversity data) c = 0.
Proof.
  intros Hc Hconst.
  rewrite entropy_diversity_get, entropy_entropy_get by done.
  rewrite (constant_column_values c Hconst).
  set (x := 0.5 + 0.0001). set (n := INR (length data)).
  assert (Hn : 2 <= n) by (unfold n; apply (le_INR 2); lia).
  assert (Hln : 0 < ln n) by (rewrite <- ln_1; apply ln_increasing; lra).
  rewrite Rsum_const. fold n.
  rewrite <- !list_fmap_compose.
  rewrite (Rsum_const ((fun p => p * ln p) (x / (n * x)))). fold n. simpl.
  assert (Ex : x / (n * x) = / n) by (unfold x; field; lra).
  rewrite Ex, ln_Rinv by lra.
  replace (n * (/ n * - ln n)) with (- ln n) by (field; lra).
  field. lra.
Qed.

Lemma EntropyWeights_get_calculate (c : string) :
  c ∈ criteria ->
  EntropyWeights_get (calculateEntropyWeights data) c =
  Record_get (entropy_diversity data) c /
  (Record_get (entropy_diversity data) "Criticality_Agg"
   + Record_get (entropy_diversity data) "Demand_Agg"
   + Record_get (entropy_diversity data) "Supply_Agg"
   + Record_get (entropy_diversity data) "Unit cost"
   + Record_get (entropy_diversity data) "Size_Score").
Proof.
  intros Hc.
  assert (Ht : reduce (fun a b _ => a + b) (Object_values (entropy_diversity data)) 0 =
               Record_get (entropy_diversity data) "Criticality_Agg"
               + Record_get (entropy_diversity data) "Demand_Agg"
               + Record_get (entropy_diversity data) "Supply_Agg"
               + Record_get (entropy_diversity data) "Unit cost"
               + Record_get (entropy_diversity data) "Size_Score").
  { rewrite reduce_plus.
    rewrite !entropy_diversity_get by (in_criteria).
    unfold entropy_diversity at 1. cbv zeta. rewrite Object_values_build.
    unfold criteria at 1. rewrite !fmap_cons, fmap_nil, !Rsum_cons. simpl Rsum. lra. }
  unfold calculateEntropyWeights. cbv zeta. rewrite Ht.
  unfold criteria in Hc.
  repeat (apply elem_of_cons in Hc as [->|Hc]); [..|by apply elem_of_nil in Hc];
    reflexivity.
Qed.

End EntropyEdge.

Lemma weights_normalized_nonneg (d1 d2 d3 d4 d5 : R) :
  0 <= d1 -> 0 <= d2 -> 0 <= d3 -> 0 <= d4 -> 0 <= d5 ->
  0 < d1 + d2 + d3 + d4 + d5 ->
  let total := d1 + d2 + d3 + d4 + d5 in
  (0 <= d1 / total /\ 0 <= d2 / total /\ 0 <= d3 / total /\ 0 <= d4 / total
   /\ 0 <= d5 / total)
  /\ d1 / total + d2 / total + d3 / total + d4 / total + d5 / total = 1.
Proof.
  intros H1 H2 H3 H4 H5 Ht total.
  pose proof (Rinv_0_lt_compat _ Ht) as Hi.
  split.
  - unfold Rdiv. repeat split; apply Rmult_le_pos; unfold total; lra.
  - unfold Rdiv. rewrite <- !Rmult_plus_distr_r. fold total. apply Rinv_r.
    unfold total. lra.
Qed.

Lemma entropy_total_diversity_pos (data : list InventoryItem) (c0 : string) :
  (1 < length data)%nat -> c0 ∈ criteria -> two_distinct_values data c0 ->
  0 < Record_get (entropy_diversity data) "Criticality_Agg"
      + Record_get (entropy_diversity data) "Demand_Agg"
      + Record_get (entropy_diversity data) "Supply_Agg"
      + Record_get (entropy_diversity data) "Unit cost"
      + Record_get (entropy_diversity data) "Size_Score".
Proof.
  intros Hn Hc0 Hd.
  pose proof (entropy_diversity_pos data c0 Hc0 Hd) as Hpos.
  pose proof (entropy_diversity_nonneg data Hn "Criticality_Agg"
                ltac:(in_criteria)).
  pose proof (entropy_diversity_nonneg data Hn "Demand_Agg"
                ltac:(in_criteria)).
  pose proof (entropy_diversity_nonneg data Hn "Supply_Agg"
                ltac:(in_criteria)).
  pose proof (entropy_diversity_nonneg data Hn "Unit cost"
                ltac:(in_criteria)).
  pose proof (entropy_diversity_nonneg data Hn "Size_Score"
                ltac:(in_criteria)).
  unfold criteria in Hc0.
  repeat (apply elem_of_cons in Hc0 as [->|Hc0]); [..|by apply elem_of_nil in Hc0]; lra.
Qed.

(** X5.  One informative criterion is enough: for a dataset with more than
    one item in which at least one of the five criterion columns takes two
    distinct values, no diversity is negative, the total diversity is
    positive, and the five entropy weights are non-negative and sum to 1. *)
Theorem calculateEntropyWeights_one_informative (data : list InventoryItem)
    (c0 : string) :
  (1 < length data)%nat -> c0 ∈ criteria -> two_distinct_values data c0 ->
  let w := calculateEntropyWeights data in
  (forall c, c ∈ criteria -> 0 <= EntropyWeights_get w c)
  /\ 0 < EntropyWeights_get w c0
  /\ ew_Criticality_Agg w + ew_Demand_Agg w + ew_Supply_Agg w
     + ew_Unit_cost w + ew_Size_Score w = 1.
Proof.
  intros Hn Hc0 Hd w.
  pose proof (entropy_total_diversity_pos data c0 Hn Hc0 Hd) as Ht.
  pose proof (Rinv_0_lt_compat _ Ht) as Hi.
  split; [|split].
  - intros c Hc. unfold w. rewrite (EntropyWeights_get_calculate data c Hc).
    unfold Rdiv. apply Rmult_le_pos; [by apply entropy_diversity_nonneg | lra].
  - unfold w. rewrite (EntropyWeights_get_calculate data c0 Hc0).
    unfold Rdiv. apply Rmult_lt_0_compat; [by apply entropy_diversity_pos | done].
  - pose proof (EntropyWeights_get_calculate data "Criticality_Agg"
                  ltac:(in_criteria)) as E1.
    pose proof (EntropyWeights_get_calculate data "Demand_Agg"
                  ltac:(in_criteria)) as E2.
    pose proof (EntropyWeights_get_calculate data "Supply_Agg"
                  ltac:(in_criteria)) as E3.
    pose proof (EntropyWeights_get_calculate data "Unit cost"
                  ltac:(in_criteria)) as E4.
    pose proof (EntropyWeights_get_calculate data "Size_Score"
                  ltac:(in_criteria)) as E5.
    change (EntropyWeights_get (calculateEntropyWeights data) "Criticality_Agg")
      with (ew_Criticality_Agg w) in E1.
    change (EntropyWeights_get (calculateEntropyWeights data) "Demand_Agg")
      with (ew_Demand_Agg w) in E2.
    change (EntropyWeights_get (calculateEntropyWeights data) "Supply_Agg")
      with (ew_Supply_Agg w) in E3.
    change (EntropyWeights_get (calculateEntropyWeights data) "Unit cost")
      with (ew_Unit_cost w) in E4.
    change (EntropyWeights_get (calculateEntropyWeights data) "Size_Score")
      with (ew_Size_Score w) in E5.
    rewrite E1, E2, E3, E4, E5.
    unfold Rdiv. rewrite <- !Rmult_plus_distr_r. apply Rinv_r. lra.
Qed.

(** X6.  A criterion whose column is constant gets the entropy weight 0
    (its entropy is exactly 1), provided the dataset has more than one item
    and some criterion is informative, so that the total diversity is not
    0. *)
Theorem constant_column_zero_weight (data : list InventoryItem) (c c0 : string) :
  (1 < length data)%nat ->
  c ∈ criteria -> constant_column data c ->
  c0 ∈ criteria -> two_distinct_values data c0 ->
  Record_get (entropy_entropy data) c = 1
  /\ reduce (fun a b _ => a + b) (Object_values (entropy_diversity data)) 0 <> 0
  /\ EntropyWeights_get (calculateEntropyWeights data) c = 0.
Proof.
  intros Hn Hc Hconst Hc0 Hd.
  pose proof (constant_column_diversity data Hn c Hc Hconst) as HD.
  split; [|split].
  - rewrite entropy_diversity_get in HD by done. lra.
  - pose proof (entropy_total_diversity_pos data c0 Hn Hc0 Hd) as Ht.
    rewrite reduce_plus.
    unfold entropy_diversity at 1. cbv zeta. rewrite Object_values_build.
    unfold criteria at 1. rewrite !fmap_cons, fmap_nil, !Rsum_cons. simpl Rsum.
    rewrite <- !entropy_diversity_get by (in_criteria). lra.
  - rewrite (EntropyWeights_get_calculate data c Hc), HD. unfold Rdiv. lra.
Qed.


Lemma sample_cost_only_informative : two_distinct_values sample_cost_only "Unit cost".
Proof.
  exists (aggregated_item 1 0.4 0.5 0.6 3 0.53), (aggregated_item 2 0.4 0.5 0.6 4 0.53).
  split; [left|]. split; [right; left|].
  unfold getValue, aggregated_item; simpl. lra.
Qed.

Lemma sample_cost_only_constant : constant_column sample_cost_only "Demand_Agg".
Proof.
  intros d1 d2 H1 H2. unfold sample_cost_only in *.
  repeat (apply elem_of_cons in H1 as [->|H1]); [..|by apply elem_of_nil in H1];
    repeat (apply elem_of_cons in H2 as [->|H2]); try (by apply elem_of_nil in H2);
    reflexivity.
Qed.

Lemma calculateEntropyWeights_one_informative_witness :
  0 <= ew_Demand_Agg (calculateEntropyWeights sample_cost_only)
  /\ 0 < ew_Unit_cost (calculateEntropyWeights sample_cost_only)
  /\ ew_Criticality_Agg (calculateEntropyWeights sample_cost_only)
     + ew_Demand_Agg (calculateEntropyWeights sample_cost_only)
     + ew_Supply_Agg (calculateEntropyWeights sample_cost_only)
     + ew_Unit_cost (calculateEntropyWeights sample_cost_only)
     + ew_Size_Score (calculateEntropyWeights sample_cost_only) = 1.
Proof.
  destruct (calculateEntropyWeights_one_informative sample_cost_only "Unit cost"
              ltac:(simpl; lia) ltac:(in_criteria) sample_cost_only_informative)
    as (Hall & Hpos & Hsum).
  split; [apply (Hall "Demand_Agg"); in_criteria|].
  split; [exact Hpos | exact Hsum].
Defined.

Lemma constant_column_zero_weight_witness :
  ew_Demand_Agg (calculateEntropyWeights sample_cost_only) = 0.
Proof.
  destruct (constant_column_zero_weight sample_cost_only "Demand_Agg" "Unit cost"
              ltac:(simpl; lia) ltac:(in_criteria) sample_cost_only_constant
              ltac:(in_criteria) sample_cost_only_informative)
    as (_ & _ & H).
  exact H.
Defined.


(** ** Crisp TOPSIS: normalization, ideal points and extreme scores *)

Lemma Rsum_fmap_scale {X : Type} (f : X -> R) (k : R) (l : list X) :
  Rsum ((fun x => f x * k) <$> l) = Rsum (f <$> l) * k.
Proof.
  induction l as [|x l IH]; [simpl; lra|].
  rewrite !fmap_cons, !Rsum_cons, IH. lra.
Qed.

Lemma Rsum_fmap_nonneg {X : Type} (f : X -> R) (l : list X) :
  (forall x, 0 <= f x) -> 0 <= Rsum (f <$> l).
Proof.
  intros Hf. apply Rsum_nonneg, Forall_forall. intros y Hy.
  apply list_elem_of_fmap in Hy as (x & -> & _). apply Hf.
Qed.

Lemma imap_lookup_total_R (f : nat -> R -> R) (l : list R) (i : nat) :
  (i < length l)%nat -> imap f l !!! i = f i (l !!! i).
Proof.
  intros Hi. destruct (lookup_lt_is_Some_2 l i Hi) as [x Hx].
  apply list_lookup_total_correct. rewrite list_lookup_imap, Hx. simpl.
  by rewrite (list_lookup_total_correct l i x Hx).
Qed.

Lemma topsis_colSums_lookup (data : list InventoryItem) (i : nat) :
  (i < 5)%nat ->
  topsis_colSums data !!! i =
  sqrt (Rsum ((fun row : list R => (row !!! i) ^ 2) <$> topsis_matrix data)).
Proof.
  intros Hi. apply list_lookup_total_correct.
  unfold topsis_colSums. rewrite list_lookup_imap.
  destruct (lookup_lt_is_Some_2 criteria i Hi) as [c ->].
  cbv [fmap option_fmap option_map]. f_equal. f_equal.
  apply (reduce_sum_map (fun row : list R => (row !!! i) ^ 2)).
Qed.

(** X7.  Vector normalization: a criterion column whose Euclidean norm is
    not 0 has, after normalization, Euclidean norm 1 (its squared entries
    sum to 1). *)
Theorem topsis_normalized_unit_norm (data : list InventoryItem) (i : nat) :
  (i < 5)%nat ->
  topsis_colSums data !!! i <> 0 ->
  Rsum ((fun row : list R => (row !!! i) ^ 2) <$> topsis_normalizedMatrix data) = 1.
Proof.
  intros Hi Hc.
  set (S := Rsum ((fun row : list R => (row !!! i) ^ 2) <$> topsis_matrix data)).
  assert (HS : 0 <= S).
  { apply Rsum_fmap_nonneg. intros row. apply pow2_nonneg. }
  assert (Ec : topsis_colSums data !!! i = sqrt S) by (by apply topsis_colSums_lookup).
  assert (Ecc : sqrt S * sqrt S = S) by (by apply sqrt_sqrt).
  assert (HS0 : S <> 0).
  { intros E. apply Hc. rewrite Ec, E. apply sqrt_0. }
  unfold topsis_normalizedMatrix. rewrite <- list_fmap_compose.
  rewrite (list_fmap_ext _ (fun row : list R => (row !!! i) ^ 2 * / S) (topsis_matrix data)).
  - rewrite (Rsum_fmap_scale (fun row : list R => (row !!! i) ^ 2)). fold S.
    by apply Rinv_r.
  - intros r row Hrow. unfold compose.
    apply topsis_matrix_rows in Hrow as (item & _ & ->).
    rewrite imap_lookup_total_R by (rewrite length_fmap; exact Hi).
    rewrite decide_False by done.
    rewrite Ec, !pow2_mult.
    assert (Hs : sqrt S <> 0) by (rewrite <- Ec; done).
    clearbody S. set (q := sqrt S) in *. rewrite <- Ecc. field. done.
Qed.

Lemma topsis_normalized_unit_norm_witness :
  Rsum ((fun row : list R => (row !!! 3%nat) ^ 2) <$> topsis_normalizedMatrix sample_data)
  = 1.
Proof.
  apply topsis_normalized_unit_norm; [lia|].
  rewrite topsis_colSums_lookup by lia.
  unfold topsis_matrix, sample_data, sample_item_1, sample_item_2, sample_item.
  cbn -[sqrt pow Rplus].
  replace (3 ^ 2 + (4 ^ 2 + 0)) with (0 + 3 ^ 2 + 4 ^ 2) by lra.
  rewrite sample_unit_cost_norm. lra.
Defined.

Section TopsisIdeal.
Variables (data : list InventoryItem) (weights : EntropyWeights).

Lemma topsis_idealBest_lookup (i : nat) (c : string) :
  criteria !! i = Some c ->
  topsis_idealBest data weights !!! i =
  if includes benefitCriteria c
  then Math_max ((fun row : list R => row !!! i) <$> topsis_weightedMatrix data weights)
  else Math_min ((fun row : list R => row !!! i) <$> topsis_weightedMatrix data weights).
Proof.
  intros Hc. apply list_lookup_total_correct.
  unfold topsis_idealBest. by rewrite list_lookup_imap, Hc.
Qed.

Lemma topsis_idealWorst_lookup (i : nat) (c : string) :
  criteria !! i = Some c ->
  topsis_idealWorst data weights !!! i =
  if includes benefitCriteria c
  then Math_min ((fun row : list R => row !!! i) <$> topsis_weightedMatrix data weights)
  else Math_max ((fun row : list R => row !!! i) <$> topsis_weightedMatrix data weights).
Proof.
  intros Hc. apply list_lookup_total_correct.
  unfold topsis_idealWorst. by rewrite list_lookup_imap, Hc.
Qed.

Lemma weighted_entry_in_column (r i : nat) (wrow : list R) (x : R) :
  topsis_weightedMatrix data weights !! r = Some wrow ->
  wrow !! i = Some x ->
  x ∈ (fun row : list R => row !!! i) <$> topsis_weightedMatrix data weights.
Proof.
  intros Hr Hx. apply list_elem_of_fmap. exists wrow. split.
  - symmetry. by apply list_lookup_total_correct.
  - by eapply list_elem_of_lookup_2.
Qed.

(** X8.  Every weighted entry lies between the two ideal values of its
    criterion: for a benefit criterion the ideal-best is the largest and the
    ideal-worst the smallest entry of the column, for a cost criterion the
    other way round. *)
Theorem topsis_ideal_bracket (r i : nat) (wrow : list R) (c : string) (x : R) :
  topsis_weightedMatrix data weights !! r = Some wrow ->
  criteria !! i = Some c ->
  wrow !! i = Some x ->
  (includes benefitCriteria c = true ->
   topsis_idealWorst data weights !!! i <= x <= topsis_idealBest data weights !!! i)
  /\ (includes benefitCriteria c = false ->
      topsis_idealBest data weights !!! i <= x <= topsis_idealWorst data weights !!! i).
Proof.
  intros Hr Hc Hx.
  rewrite (topsis_idealBest_lookup i c Hc), (topsis_idealWorst_lookup i c Hc).
  pose proof (weighted_entry_in_column r i wrow x Hr Hx) as Hin.
  pose proof (Math_min_le _ _ Hin). pose proof (Math_max_ge _ _ Hin).
  split; intros ->; lra.
Qed.

End TopsisIdeal.

Lemma sq_distance_zero (row ideal : list R) :
  (forall i val, row !! i = Some val -> val = ideal !!! i) ->
  reduce (fun sum val i => sum + (val - ideal !!! i) ^ 2) row 0 = 0.
Proof.
  intros Heq. rewrite (reduce_sum (fun val i => (val - ideal !!! i) ^ 2)).
  assert (Hall : Forall (fun x => x = 0)
                   (imap (fun j v => (v - ideal !!! j) ^ 2) row)).
  { apply Forall_forall. intros x Hx.
    apply elem_of_lookup_imap in Hx as (j & v & -> & Hv).
    rewrite (Heq j v Hv), Rminus_diag. simpl. lra. }
  induction Hall as [|x l -> _ IH]; [done|]. rewrite Rsum_cons, IH. lra.
Qed.

(** X9.  When the two ideal points coincide in all five dimensions, every
    item is at distance 0 from both, so the closeness coefficient is the
    quotient of 0 by 0: the case the code does not guard. *)
Theorem calculateTOPSIS_degenerate_distances (data : list InventoryItem)
    (weights : EntropyWeights) :
  (forall i : nat, (i < 5)%nat ->
     topsis_idealBest data weights !!! i = topsis_idealWorst data weights !!! i) ->
  forall (idx : nat) (item : InventoryItem),
    data !! idx = Some item ->
    let dBest := sqrt (reduce (fun sum val i =>
                                 sum + (val - topsis_idealBest data weights !!! i) ^ 2)
                              (topsis_weightedMatrix data weights !!! idx) 0) in
    let dWorst := sqrt (reduce (fun sum val i =>
                                  sum + (val - topsis_idealWorst data weights !!! i) ^ 2)
                               (topsis_weightedMatrix data weights !!! idx) 0) in
    dBest = 0 /\ dWorst = 0 /\ dBest + dWorst = 0
    /\ calculateTOPSIS data weights !! idx =
       Some (with_TOPSIS_Score item (dWorst / (dBest + dWorst))).
Proof.
  intros Hsame idx item H dBest dWorst.
  destruct (topsis_weightedMatrix_lookup data weights idx item H)
    as (wrow & Hw & Hw' & Hlen).
  assert (Hrow : forall i val, wrow !! i = Some val ->
            val = topsis_idealBest data weights !!! i
            /\ val = topsis_idealWorst data weights !!! i).
  { intros i val Hval.
    assert (Hi : (i < 5)%nat) by (apply lookup_lt_Some in Hval; lia).
    destruct (lookup_lt_is_Some_2 criteria i Hi) as [c Hc].
    specialize (Hsame i Hi).
    rewrite (topsis_idealBest_lookup data weights i c Hc),
            (topsis_idealWorst_lookup data weights i c Hc) in *.
    pose proof (weighted_entry_in_column data weights idx i wrow val Hw Hval) as Hin.
    pose proof (Math_min_le _ _ Hin). pose proof (Math_max_ge _ _ Hin).
    destruct (includes benefitCriteria c); split; lra. }
  assert (EB : dBest = 0).
  { unfold dBest. rewrite Hw', sq_distance_zero; [apply sqrt_0|].
    intros i val Hval. by apply Hrow. }
  assert (EW : dWorst = 0).
  { unfold dWorst. rewrite Hw', sq_distance_zero; [apply sqrt_0|].
    intros i val Hval. by apply Hrow. }
  split; [done|]. split; [done|]. split; [lra|].
  by rewrite (calculateTOPSIS_lookup data weights idx item H).
Qed.

(** A dataset of a single item is such a case. *)
Lemma topsis_single_item_ideals (item : InventoryItem) (weights : EntropyWeights)
    (i : nat) :
  (i < 5)%nat ->
  topsis_idealBest [item] weights !!! i = topsis_idealWorst [item] weights !!! i.
Proof.
  intros Hi. destruct (lookup_lt_is_Some_2 criteria i Hi) as [c Hc].
  rewrite (topsis_idealBest_lookup _ _ i c Hc), (topsis_idealWorst_lookup _ _ i c Hc).
  destruct (topsis_weightedMatrix [item] weights) as [|wrow [|wrow' rest]] eqn:E;
    simpl; by destruct (includes benefitCriteria c).
Qed.

Lemma calculateTOPSIS_degenerate_distances_witness :
  exists dBest dWorst : R,
    dBest + dWorst = 0
    /\ calculateTOPSIS [sample_item_1] sample_entropy_weights !! 0%nat =
       Some (with_TOPSIS_Score sample_item_1 (dWorst / (dBest + dWorst))).
Proof.
  destruct (calculateTOPSIS_degenerate_distances [sample_item_1] sample_entropy_weights
              (topsis_single_item_ideals sample_item_1 sample_entropy_weights)
              0%nat sample_item_1 eq_refl) as (_ & _ & Hsum & Hout).
  eexists _, _. split; [exact Hsum | exact Hout].
Defined.


Lemma topsis_ideal_bracket_witness :
  exists (wrow : list R) (x : R),
    topsis_weightedMatrix sample_data sample_entropy_weights !! 0%nat = Some wrow
    /\ wrow !! 3%nat = Some x
    /\ topsis_idealBest sample_data sample_entropy_weights !!! 3%nat <= x
       <= topsis_idealWorst sample_data sample_entropy_weights !!! 3%nat.
Proof.
  destruct (topsis_weightedMatrix_lookup sample_data sample_entropy_weights 0
              sample_item_1 eq_refl) as (wrow & Hw & _ & Hlen).
  destruct (lookup_lt_is_Some_2 wrow 3) as [x Hx]; [lia|].
  exists wrow, x. split; [exact Hw|]. split; [exact Hx|].
  destruct (topsis_ideal_bracket sample_data sample_entropy_weights 0 3 wrow
              "Unit cost" x Hw eq_refl Hx) as [_ Hcost].
  apply Hcost. reflexivity.
Defined.

(** X10.  When the ideal points differ in some dimension, an item whose
    weighted row is the ideal-best point gets the score 1 and an item whose
    weighted row is the ideal-worst point gets the score 0. *)
Theorem calculateTOPSIS_extreme_scores (data : list InventoryItem)
    (weights : EntropyWeights) (idx : nat) (item : InventoryItem) :
  (exists i : nat, (i < 5)%nat /\
     topsis_idealBest data weights !!! i <> topsis_idealWorst data weights !!! i) ->
  data !! idx = Some item ->
  let wrow := topsis_weightedMatrix data weights !!! idx in
  ((forall i val, wrow !! i = Some val -> val = topsis_idealBest data weights !!! i) ->
   calculateTOPSIS data weights !! idx = Some (with_TOPSIS_Score item 1))
  /\ ((forall i val, wrow !! i = Some val -> val = topsis_idealWorst data weights !!! i) ->
      calculateTOPSIS data weights !! idx = Some (with_TOPSIS_Score item 0)).
Proof.
  intros (i & Hi & Hne) H wrow.
  destruct (topsis_weightedMatrix_lookup data weights idx item H)
    as (wrow' & _ & Hw & Hlen). fold wrow in Hw. subst wrow'.
  destruct (lookup_lt_is_Some_2 wrow i) as [val Hval]; [lia|].
  rewrite (calculateTOPSIS_lookup data weights idx item H). fold wrow.
  unfold topsis_score.
  set (best := topsis_idealBest data weights) in *.
  set (worst := topsis_idealWorst data weights) in *.
  split; intros Hrow.
  - rewrite (sq_distance_zero wrow best Hrow), sqrt_0.
    assert (Hpos : 0 < reduce (fun sum val i => sum + (val - worst !!! i) ^ 2) wrow 0).
    { apply (sq_distance_pos wrow worst i val Hval). rewrite (Hrow i val Hval). done. }
    pose proof (sqrt_lt_R0 _ Hpos).
    do 2 f_equal. rewrite Rplus_0_l. apply Rdiv_diag. lra.
  - rewrite (sq_distance_zero wrow worst Hrow), sqrt_0.
    do 2 f_equal. unfold Rdiv. lra.
Qed.


Lemma sample_first_row_is_best (i : nat) (val : R) :
  (topsis_weightedMatrix sample_data sample_entropy_weights !!! 0%nat) !! i = Some val ->
  val = topsis_idealBest sample_data sample_entropy_weights !!! i.
Proof.
  unfold topsis_idealBest, topsis_weightedMatrix,
    topsis_normalizedMatrix, topsis_colSums, topsis_matrix, sample_data,
    sample_item_1, sample_item_2, sample_item, sample_entropy_weights.
  cbn -[sqrt pow Rplus Rmult Rdiv Rmin Rmax decide].
  rewrite sample_unit_cost_norm.
  replace (0 + 0 ^ 2 + 0 ^ 2) with 0 by lra. rewrite sqrt_0.
  destruct (decide (5 = 0)) as [E|_]; [lra|].
  destruct (decide (0 = 0)) as [_|E]; [|done].
  do 5 (destruct i as [|i]; [intros [= <-]; eval_min_max|]).
  intros [=].
Qed.

Lemma calculateTOPSIS_extreme_scores_witness :
  calculateTOPSIS sample_data sample_entropy_weights !! 0%nat =
  Some (with_TOPSIS_Score sample_item_1 1).
Proof.
  destruct (calculateTOPSIS_extreme_scores sample_data sample_entropy_weights 0
              sample_item_1
              (ex_intro _ 3%nat (conj (ltac:(lia) : (3 < 5)%nat)
                                      sample_ideal_points_differ))
              eq_refl) as [Hbest _].
  apply Hbest. exact sample_first_row_is_best.
Defined.


(** ** Classifier: stability, reclassification, class sizes *)

Lemma getValue_set_class (scoreField sf : ScoreField) (item : InventoryItem) (c : ABC) :
  getValue (set_class sf item c) (ScoreField_key scoreField) =
  getValue item (ScoreField_key scoreField).
Proof. by destruct scoreField, sf. Qed.

Lemma filter_imap_ids (P : InventoryItem -> Prop) `{forall x, Decision (P x)}
    (f : nat -> InventoryItem -> InventoryItem) (l : list InventoryItem) :
  (forall i x, P (f i x) <-> P x) -> (forall i x, id (f i x) = id x) ->
  id <$> filter P (imap f l) = id <$> filter P l.
Proof.
  revert f; induction l as [|x l IH]; intros f HP Hid; [done|].
  rewrite imap_cons, !filter_cons.
  destruct (decide (P (f 0%nat x))) as [Hp|Hp]; destruct (decide (P x)) as [Hq|Hq];
    try (exfalso; by apply HP in Hp || (apply Hp; by apply HP)).
  - rewrite !fmap_cons, Hid. f_equal. apply IH; intros; [apply HP | apply Hid].
  - apply IH; intros; [apply HP | apply Hid].
Qed.

(** X11.  [classifyABC] is a stable ranking: among the items that share a
    score, the output lists them in the order of the input (here by their
    [id]s). *)
Theorem classifyABC_stable (data : list InventoryItem) (thresholds : Thresholds)
    (scoreField : ScoreField) (s : R) :
  let key := ScoreField_key scoreField in
  id <$> filter (fun item => getValue item key = s)
           (classifyABC data thresholds scoreField)
  = id <$> filter (fun item => getValue item key = s) data.
Proof.
  intros key. rewrite classifyABC_unfold. cbv zeta. fold key.
  rewrite filter_imap_ids.
  - f_equal. apply (Array_sort_stable (fun item => getValue item key)).
  - intros i x. unfold key. by rewrite getValue_set_class.
  - intros i x. by destruct scoreField.
Qed.

Lemma Sorted_same_scores {T : Type} (score : T -> R) (l1 l2 : list T) :
  score <$> l1 = score <$> l2 ->
  Sorted (score_ge score) l1 -> Sorted (score_ge score) l2.
Proof.
  revert l2; induction l1 as [|x l1 IH]; intros l2 Heq Hs.
  - destruct l2; [constructor | done].
  - destruct l2 as [|y l2]; [done|].
    rewrite !fmap_cons in Heq. injection Heq as Hxy Heq.
    inversion Hs as [|? ? Hs' Hhd]; subst.
    constructor; [by apply IH|].
    destruct l1 as [|x' l1], l2 as [|y' l2]; try done; try (by constructor).
    rewrite !fmap_cons in Heq. injection Heq as Hxy' _.
    inversion Hhd; subst. constructor. unfold score_ge in *. lra.
Qed.

Lemma Array_sort_sorted_id {T : Type} (score : T -> R) (l : list T) :
  Sorted (score_ge score) l -> Array_sort (score_cmp score) l = l.
Proof.
  induction l as [|x l IH]; intros Hs; [done|].
  inversion Hs as [|? ? Hs' Hhd]; subst.
  unfold Array_sort in *. simpl foldr. rewrite (IH Hs').
  destruct l as [|y l]; [done|]. simpl.
  inversion Hhd; subst. unfold score_ge, score_cmp in *.
  destruct (decide (0 < score y - score x)); [lra | done].
Qed.

Lemma imap_imap_compose {X Y Z : Type} (g : nat -> Y -> Z) (f : nat -> X -> Y)
    (l : list X) :
  imap g (imap f l) = imap (fun i x => g i (f i x)) l.
Proof.
  revert f g; induction l as [|x l IH]; intros f g; [done|].
  rewrite !imap_cons. f_equal. by rewrite IH.
Qed.

Lemma set_class_twice (sf : ScoreField) (item : InventoryItem) (c c' : ABC) :
  set_class sf (set_class sf item c) c' = set_class sf item c'.
Proof. by destruct sf. Qed.

(** X12.  Reclassifying an already classified list (what the threshold
    sliders trigger) gives exactly the classification of the original list
    under the new thresholds: the order is kept and only the class field is
    rewritten.  In particular classifying twice with the same thresholds
    changes nothing. *)
Theorem classifyABC_reclassify (data : list InventoryItem)
    (thresholds thresholds' : Thresholds) (scoreField : ScoreField) :
  classifyABC (classifyABC data thresholds scoreField) thresholds' scoreField
  = classifyABC data thresholds' scoreField
  /\ classifyABC (classifyABC data thresholds scoreField) thresholds scoreField
     = classifyABC data thresholds scoreField.
Proof.
  assert (Hgen : forall th th',
            classifyABC (classifyABC data th scoreField) th' scoreField
            = classifyABC data th' scoreField).
  { intros th th'.
    rewrite (classifyABC_unfold (classifyABC data th scoreField)). cbv zeta.
    rewrite classifyABC_length.
    rewrite (classifyABC_unfold data th), (classifyABC_unfold data th'). cbv zeta.
    set (key := ScoreField_key scoreField).
    set (sorted := Array_sort (fun a b => getValue b key - getValue a key) data).
    set (out1 := imap _ sorted).
    assert (Hfix : Array_sort (fun a b => getValue b key - getValue a key) out1 = out1).
    { apply (Array_sort_sorted_id (fun item => getValue item key)).
      apply (Sorted_same_scores _ sorted).
      - unfold out1. rewrite fmap_imap.
        rewrite <- (imap_const (fun item => getValue item key)).
        apply imap_ext. intros i x _. simpl. unfold key.
        by rewrite getValue_set_class.
      - apply (Array_sort_Sorted (fun item => getValue item key)). }
    rewrite Hfix. unfold out1. rewrite imap_imap_compose.
    apply imap_ext. intros i x _. apply set_class_twice. }
  split; apply Hgen.
Qed.


Lemma classDistribution_from (l : list InventoryItem) (k : nat) (acc : ClassCounts) :
  reduce_from (fun acc item (_ : nat) =>
            match Class item with
            | Some A => {| cnt_A := S (cnt_A acc); cnt_B := cnt_B acc; cnt_C := cnt_C acc |}
            | Some B => {| cnt_A := cnt_A acc; cnt_B := S (cnt_B acc); cnt_C := cnt_C acc |}
            | Some C => {| cnt_A := cnt_A acc; cnt_B := cnt_B acc; cnt_C := S (cnt_C acc) |}
            | None => acc
            end) k l acc
  = {| cnt_A := cnt_A acc + count_class A l;
       cnt_B := cnt_B acc + count_class B l;
       cnt_C := cnt_C acc + count_class C l |}.
Proof.
  revert k acc; induction l as [|x l IH]; intros k acc.
  - destruct acc; unfold count_class; simpl. f_equal; lia.
  - simpl reduce_from. rewrite IH. unfold count_class in *.
    rewrite !fmap_cons, !filter_cons.
    destruct (Class x) as [[| |]|]; simpl;
      repeat (destruct (decide _); try done); simpl; f_equal; lia.
Qed.

Lemma classDistribution_counts (l : list InventoryItem) :
  classDistribution l =
  {| cnt_A := count_class A l; cnt_B := count_class B l; cnt_C := count_class C l |}.
Proof. unfold classDistribution, reduce. by rewrite classDistribution_from. Qed.

Lemma length_filter_fmap {X Y : Type} (P : Y -> Prop) `{forall y, Decision (P y)}
    (f : X -> Y) (l : list X) :
  length (filter P (f <$> l)) = length (filter (fun x => P (f x)) l).
Proof.
  induction l as [|x l IH]; [done|].
  rewrite fmap_cons, !filter_cons. destruct (decide (P (f x))); simpl; by rewrite IH.
Qed.

Lemma count_seq_lt (m n : nat) :
  length (filter (fun i => (i < m)%nat) (seq 0 n)) = Nat.min m n.
Proof.
  induction n as [|n IH]; [simpl; lia|].
  rewrite seq_S, filter_app, List.length_app, IH. simpl.
  rewrite filter_cons, filter_nil. destruct (decide (n < m)%nat); simpl; lia.
Qed.

Lemma count_seq_ge (m n : nat) :
  length (filter (fun i => (m <= i)%nat) (seq 0 n)) = (n - m)%nat.
Proof.
  induction n as [|n IH]; [simpl; lia|].
  rewrite seq_S, filter_app, List.length_app, IH. simpl.
  rewrite filter_cons, filter_nil. destruct (decide (m <= n)%nat); simpl; lia.
Qed.

Lemma count_seq_partition (f : nat -> ABC) (n : nat) :
  (length (filter (fun i => f i = A) (seq 0 n))
   + length (filter (fun i => f i = B) (seq 0 n))
   + length (filter (fun i => f i = C) (seq 0 n)) = n)%nat.
Proof.
  induction n as [|n IH]; [done|].
  rewrite seq_S, !filter_app, !List.length_app. simpl.
  rewrite !filter_cons, !filter_nil.
  destruct (f n); repeat (destruct (decide _); try done); simpl; lia.
Qed.

Lemma classifyABC_classes (data : list InventoryItem) (thresholds : Thresholds) :
  Class <$> classifyABC data thresholds SF_TOPSIS_Score =
  (fun idx => Some (rank_class
                      (Zfloor (INR (length data) * th_A thresholds / 100))
                      (Zfloor (INR (length data) *
                               (th_A thresholds + th_B thresholds) / 100)) idx))
  <$> seq 0 (length data).
Proof.
  rewrite classifyABC_unfold. cbv zeta. rewrite fmap_imap.
  set (g := fun idx : nat => Some (rank_class _ _ idx)).
  set (sorted := Array_sort _ data).
  assert (Hlen : length sorted = length data) by apply Array_sort_length.
  transitivity (g <$> seq 0 (length sorted)); [|by rewrite Hlen].
  rewrite <- (imap_seq_0 sorted g). apply imap_ext. by intros i x _.
Qed.

(** X13.  Class sizes.  After a crisp [classifyABC] every item carries a
    class, so the three counts of the class distribution add up to the item
    count [n]; class A has [min(max(idxA,0), n)] items and class C has
    [n - max(idxA, idxB, 0)].  For thresholds with [0 <= A], [0 <= B] and
    [A + B <= 100] the sizes are exactly [idxA], [idxB - idxA] and
    [n - idxB]. *)
Theorem classifyABC_class_sizes (data : list InventoryItem) (thresholds : Thresholds) :
  let n := length data in
  let idxA := Zfloor (INR n * th_A thresholds / 100) in
  let idxB := Zfloor (INR n * (th_A thresholds + th_B thresholds) / 100) in
  let counts := classDistribution (classifyABC data thresholds SF_TOPSIS_Score) in
  (cnt_A counts + cnt_B counts + cnt_C counts = n)%nat
  /\ cnt_A counts = Nat.min (Z.to_nat idxA) n
  /\ cnt_C counts = (n - Nat.max (Z.to_nat idxA) (Z.to_nat idxB))%nat
  /\ (0 <= th_A thresholds -> 0 <= th_B thresholds ->
      th_A thresholds + th_B thresholds <= 100 ->
      Z.of_nat (cnt_A counts) = idxA
      /\ Z.of_nat (cnt_B counts) = (idxB - idxA)%Z
      /\ Z.of_nat (cnt_C counts) = (Z.of_nat n - idxB)%Z).
Proof.
  intros n idxA idxB counts.
  assert (EA : cnt_A counts = Nat.min (Z.to_nat idxA) n).
  { unfold counts. rewrite classDistribution_counts. simpl. unfold count_class.
    rewrite classifyABC_classes, length_filter_fmap. fold n idxA idxB.
    rewrite <- count_seq_lt. f_equal. apply list_filter_iff. intros i.
    unfold rank_class. repeat (destruct (decide _)); split; intros; try done; lia. }
  assert (EC : cnt_C counts = (n - Nat.max (Z.to_nat idxA) (Z.to_nat idxB))%nat).
  { unfold counts. rewrite classDistribution_counts. simpl. unfold count_class.
    rewrite classifyABC_classes, length_filter_fmap. fold n idxA idxB.
    rewrite <- count_seq_ge. f_equal. apply list_filter_iff. intros i.
    unfold rank_class. repeat (destruct (decide _)); split; intros; try done; lia. }
  assert (ES : (cnt_A counts + cnt_B counts + cnt_C counts = n)%nat).
  { unfold counts. rewrite classDistribution_counts. simpl. unfold count_class.
    rewrite classifyABC_classes, !length_filter_fmap. fold n idxA idxB.
    rewrite <- (count_seq_partition (rank_class idxA idxB) n) at 4.
    f_equal; [f_equal|]; f_equal; apply list_filter_iff; intros i;
      split; congruence. }
  split; [done|]. split; [done|]. split; [done|].
  intros HA HB HAB.
  pose proof (pos_INR n) as Hn.
  assert (H0 : (0 <= idxA)%Z) by (apply (Zfloor_lub 0); simpl; nra).
  assert (Hle : (idxA <= idxB)%Z) by (apply Zfloor_le; nra).
  assert (HBn : (idxB <= Z.of_nat n)%Z).
  { apply le_IZR. rewrite <- INR_IZR_INZ.
    pose proof (Zfloor_bound (INR n * (th_A thresholds + th_B thresholds) / 100)).
    fold idxB in H. nra. }
  lia.
Qed.


Lemma classifyABC_class_sizes_witness :
  classDistribution (classifyABC sample_ranked sample_thresholds SF_TOPSIS_Score)
  = {| cnt_A := 2; cnt_B := 3; cnt_C := 5 |}.
Proof.
  destruct (classifyABC_class_sizes sample_ranked sample_thresholds)
    as (_ & _ & _ & Hconv).
  destruct (Hconv ltac:(simpl; lra) ltac:(simpl; lra) ltac:(simpl; lra))
    as (HA & HB & HC).
  assert (EA : Zfloor (INR (length sample_ranked) * th_A sample_thresholds / 100) = 2%Z).
  { apply Zfloor_eq. simpl. lra. }
  assert (EB : Zfloor (INR (length sample_ranked) *
                       (th_A sample_thresholds + th_B sample_thresholds) / 100) = 5%Z).
  { apply Zfloor_eq. simpl. lra. }
  rewrite EA in HA, HB. rewrite EB in HB, HC.
  destruct (classDistribution _) as [a b c]. simpl in *. f_equal; lia.
Defined.

(** ** Fuzzy TOPSIS: the extreme scores *)

Lemma sqrt_eq_0_iff (x : R) : 0 <= x -> (sqrt x = 0 <-> x = 0).
Proof.
  intros Hx. split; [by apply sqrt_eq_0 | intros ->; apply sqrt_0].
Qed.

Lemma vertex_sq_zero_iff (t ideal : TFN) :
  vertex_sq fuzzy_weight t ideal = 0 <-> t = ideal.
Proof.
  destruct t as [[l m] u], ideal as [[l' m'] u'].
  unfold vertex_sq, fuzzy_weight, nCrit, tfn0, tfn1, tfn2. cbn [fst snd].
  split.
  - intros H.
    pose proof (pow2_nonneg (l * (1 / 8) - l' * (1 / 8))) as H1.
    pose proof (pow2_nonneg (m * (1 / 8) - m' * (1 / 8))) as H2.
    pose proof (pow2_nonneg (u * (1 / 8) - u' * (1 / 8))) as H3.
    assert (E1 : (l * (1 / 8) - l' * (1 / 8)) ^ 2 = 0) by lra.
    assert (E2 : (m * (1 / 8) - m' * (1 / 8)) ^ 2 = 0) by lra.
    assert (E3 : (u * (1 / 8) - u' * (1 / 8)) ^ 2 = 0) by lra.
    rewrite pow2_mult in E1, E2, E3.
    apply Rmult_integral in E1, E2, E3.
    repeat f_equal; lra.
  - intros [= -> -> ->]. rewrite !Rminus_diag. simpl. lra.
Qed.

Lemma Rsum_vertex_sq_zero_iff (ideal : TFN) (l : list TFN) :
  Rsum ((fun t => vertex_sq fuzzy_weight t ideal) <$> l) = 0
  <-> Forall (fun t => t = ideal) l.
Proof.
  split.
  - intros H. apply Rsum_zero in H.
    + rewrite Forall_fmap in H. eapply Forall_impl; [exact H|].
      intros t Ht. by apply vertex_sq_zero_iff.
    + apply Forall_fmap, Forall_forall. intros t _. apply vertex_sq_nonneg.
  - induction 1 as [|t l Ht _ IH]; [done|].
    rewrite fmap_cons, Rsum_cons, IH.
    apply vertex_sq_zero_iff in Ht. rewrite Ht. lra.
Qed.




(** ** Descriptive statistics *)

Lemma sort_insert_ext {T : Type} (cmp cmp' : T -> T -> R) (x : T) (l : list T) :
  (forall a b, 0 < cmp a b <-> 0 < cmp' a b) ->
  sort_insert cmp x l = sort_insert cmp' x l.
Proof.
  intros Hc. induction l as [|y l IH]; [done|]. simpl.
  destruct (decide (0 < cmp x y)) as [H|H]; destruct (decide (0 < cmp' x y)) as [H'|H'];
    try (by rewrite IH); try done; exfalso; apply Hc in H || apply Hc in H'; done.
Qed.

Lemma Array_sort_ext {T : Type} (cmp cmp' : T -> T -> R) (l : list T) :
  (forall a b, 0 < cmp a b <-> 0 < cmp' a b) ->
  Array_sort cmp l = Array_sort cmp' l.
Proof.
  intros Hc. induction l as [|x l IH]; [done|].
  unfold Array_sort in *. simpl. rewrite IH. by apply sort_insert_ext.
Qed.

(** The ascending sort [(a, b) => a - b] of numbers. *)
Lemma Array_sort_ascending (values : list R) :
  Array_sort (fun a b => a - b) values ≡ₚ values
  /\ StronglySorted Rle (Array_sort (fun a b => a - b) values).
Proof.
  split; [apply Array_sort_Permutation|].
  rewrite (Array_sort_ext _ (score_cmp Ropp)).
  - pose proof (Array_sort_descending Ropp values) as H.
    induction H as [|x l Hs IH Hall]; constructor; [done|].
    eapply Forall_impl; [exact Hall|]. intros y. unfold score_ge. lra.
  - intros a b. unfold score_cmp. split; lra.
Qed.


Lemma Rsum_bounds (lo hi : R) (l : list R) :
  Forall (fun v => lo <= v <= hi) l ->
  INR (length l) * lo <= Rsum l <= INR (length l) * hi.
Proof.
  induction 1 as [|x l Hx _ IH]; [simpl; lra|].
  rewrite Rsum_cons, length_cons, S_INR. lra.
Qed.

Lemma Rdiv_between (lo hi s n : R) :
  0 < n -> n * lo <= s -> s <= n * hi -> lo <= s / n <= hi.
Proof.
  intros Hn Hlo Hhi. pose proof (Rinv_0_lt_compat _ Hn) as Hi.
  assert (E1 : lo = n * lo * / n) by (field; lra).
  assert (E2 : hi = n * hi * / n) by (field; lra).
  unfold Rdiv. split.
  - rewrite E1. apply Rmult_le_compat_r; lra.
  - rewrite E2. apply Rmult_le_compat_r; lra.
Qed.

Lemma StronglySorted_Rle_lookup (l : list R) (i j : nat) (x y : R) :
  StronglySorted Rle l -> l !! i = Some x -> l !! j = Some y -> (i <= j)%nat -> x <= y.
Proof.
  intros Hs. revert i j. induction Hs as [|z l Hs IH Hall]; intros i j Hi Hj Hij; [done|].
  destruct i as [|i], j as [|j]; simpl in *; try lia.
  - injection Hi as <-. injection Hj as <-. lra.
  - injection Hi as <-. rewrite Forall_forall in Hall. apply Hall.
    by eapply list_elem_of_lookup_2.
  - apply (IH i j); [done | done | lia].
Qed.

Section Stats.
Variable values : list R.
Hypothesis values_nonempty : values <> [].

Lemma stats_n_pos : (0 < length values)%nat.
Proof. destruct values; [done | simpl; lia]. Qed.

Lemma stats_sorted_lookup (k : nat) :
  (k < length values)%nat -> exists x, (Array_sort (fun a b => a - b) values) !! k = Some x /\ (Array_sort (fun a b => a - b) values) !!! k = x /\ x ∈ values.
Proof.
  intros Hk.
  destruct (lookup_lt_is_Some_2 (Array_sort (fun a b => a - b) values) k) as [x Hx].
  { by rewrite Array_sort_length. }
  exists x. split; [done|]. split; [by apply list_lookup_total_correct|].
  destruct (Array_sort_ascending values) as [Hp _].
  rewrite <- Hp. by eapply list_elem_of_lookup_2.
Qed.

Lemma stats_min_is_Math_min : (Array_sort (fun a b => a - b) values) !!! 0%nat = Math_min values.
Proof.
  pose proof stats_n_pos as Hn.
  destruct (stats_sorted_lookup 0 Hn) as (x & Hx & -> & Hin).
  symmetry. apply Math_min_unique; [done|].
  intros v Hv. destruct (Array_sort_ascending values) as [Hp Hs].
  rewrite <- Hp in Hv. apply list_elem_of_lookup_1 in Hv as [j Hj].
  apply (StronglySorted_Rle_lookup _ 0 j x v Hs Hx Hj). lia.
Qed.

Lemma stats_max_is_Math_max : (Array_sort (fun a b => a - b) values) !!! (length values - 1)%nat = Math_max values.
Proof.
  pose proof stats_n_pos as Hn.
  destruct (stats_sorted_lookup (length values - 1) ltac:(lia)) as (x & Hx & -> & Hin).
  symmetry. apply Math_max_unique; [done|].
  intros v Hv. destruct (Array_sort_ascending values) as [Hp Hs].
  rewrite <- Hp in Hv. apply list_elem_of_lookup_1 in Hv as [j Hj].
  apply (StronglySorted_Rle_lookup _ j (length values - 1) v x Hs Hj Hx).
  apply lookup_lt_Some in Hj. rewrite Array_sort_length in Hj. lia.
Qed.

End Stats.

(** X15.  [calculateStats] answers all zeros on the empty series.  On a
    non-empty series [min] and [max] are the least and the greatest value
    (both occur in the series), the mean and the median lie between them,
    and the standard deviation is not negative. *)
Theorem calculateStats_bounds (values : list R) :
  (values = [] ->
   calculateStats values =
   {| st_min := 0; st_max := 0; st_mean := 0; st_median := 0; st_std := 0 |})
  /\ (values <> [] ->
      let s := calculateStats values in
      st_min s ∈ values /\ st_max s ∈ values
      /\ (forall v, v ∈ values -> st_min s <= v <= st_max s)
      /\ st_min s <= st_mean s <= st_max s
      /\ st_min s <= st_median s <= st_max s
      /\ 0 <= st_std s).
Proof.
  split; [by intros ->|].
  intros Hne s.
  pose proof (stats_n_pos values Hne) as Hn.
  assert (Hs : s = calculateStats values) by reflexivity.
  unfold calculateStats in Hs. rewrite decide_False in Hs by lia. cbv zeta in Hs.
  rewrite (stats_min_is_Math_min values Hne), (stats_max_is_Math_max values Hne) in Hs.
  rewrite reduce_plus in Hs.
  assert (Hrange : forall v, v ∈ values -> Math_min values <= v <= Math_max values).
  { intros v Hv. split; [by apply Math_min_le | by apply Math_max_ge]. }
  assert (HnR : 0 < INR (length values)) by (apply lt_0_INR; exact Hn).
  pose proof (Rinv_0_lt_compat _ HnR) as Hinv.
  assert (Hmean : Math_min values <= Rsum values / INR (length values)
                  <= Math_max values).
  { pose proof (Rsum_bounds (Math_min values) (Math_max values) values
                  ltac:(by apply Forall_forall)) as [Hlo Hhi].
    by apply Rdiv_between. }
  assert (Hsorted : forall k, (k < length values)%nat ->
            Math_min values <= Array_sort (fun a b => a - b) values !!! k
            <= Math_max values).
  { intros k Hk. destruct (stats_sorted_lookup values k Hk) as (x & _ & -> & Hin).
    by apply Hrange. }
  rewrite Hs. cbn [st_min st_max st_mean st_median st_std].
  split; [by apply Math_min_elem|]. split; [by apply Math_max_elem|].
  split; [done|]. split; [done|].
  split; [|apply sqrt_pos].
  destruct (decide (length values mod 2 = 0)%nat) as [Heven|Hodd].
  - assert (H2 : (2 <= length values)%nat).
    { destruct (length values) as [|[|m]]; simpl in *; lia. }
    assert (Hd : (length values / 2 < length values)%nat)
      by (apply Nat.div_lt; lia).
    pose proof (Hsorted (length values / 2 - 1)%nat ltac:(lia)).
    pose proof (Hsorted (length values / 2)%nat Hd). lra.
  - apply Hsorted. apply Nat.div_lt; lia.
Qed.

Lemma calculateStats_bounds_witness :
  st_min (calculateStats [4; 1; 3]) <= st_median (calculateStats [4; 1; 3])
  <= st_max (calculateStats [4; 1; 3]).
Proof.
  destruct (calculateStats_bounds [4; 1; 3]) as [_ H].
  destruct (H ltac:(discriminate)) as (_ & _ & _ & _ & Hmed & _). exact Hmed.
Defined.


Lemma Rsum_all_zero (l : list R) : Forall (fun x => x = 0) l -> Rsum l = 0.
Proof. induction 1 as [|x l -> _ IH]; [done|]. rewrite Rsum_cons, IH. lra. Qed.

(** X16.  On a non-empty series the standard deviation is 0 exactly when
    all values are equal (each is then the mean). *)
Theorem calculateStats_std_zero (values : list R) :
  values <> [] ->
  let s := calculateStats values in
  st_std s = 0 <-> (forall v, v ∈ values -> v = st_mean s).
Proof.
  intros Hne s.
  pose proof (stats_n_pos values Hne) as Hn.
  assert (HnR : 0 < INR (length values)) by (apply lt_0_INR; exact Hn).
  pose proof (Rinv_0_lt_compat _ HnR) as Hinv.
  assert (Hs : s = calculateStats values) by reflexivity.
  unfold calculateStats in Hs. rewrite decide_False in Hs by lia. cbv zeta in Hs.
  rewrite Hs. cbn [st_std st_mean].
  set (mean := reduce (fun a b _ => a + b) values 0 / INR (length values)).
  rewrite (reduce_sum_map (fun v => (v - mean) ^ 2)).
  assert (Hsq : 0 <= Rsum ((fun v => (v - mean) ^ 2) <$> values)).
  { apply Rsum_fmap_nonneg. intros v. apply pow2_nonneg. }
  assert (Hvar : 0 <= Rsum ((fun v => (v - mean) ^ 2) <$> values) / INR (length values)).
  { unfold Rdiv. apply Rmult_le_pos; lra. }
  rewrite (sqrt_eq_0_iff _ Hvar).
  split.
  - intros E v Hv.
    assert (E' : Rsum ((fun v => (v - mean) ^ 2) <$> values) = 0).
    { unfold Rdiv in E. apply Rmult_integral in E as [E|E]; lra. }
    apply Rsum_zero in E'.
    + rewrite Forall_fmap, Forall_forall in E'. specialize (E' v Hv). simpl in E'.
      assert (Hz : (v - mean) * (v - mean) = 0) by lra.
      apply Rmult_integral in Hz. lra.
    + apply Forall_fmap, Forall_forall. intros x _. apply pow2_nonneg.
  - intros Hall. rewrite Rsum_all_zero; [unfold Rdiv; lra|].
    apply Forall_fmap, Forall_forall. intros v Hv. simpl.
    rewrite (Hall v Hv), Rminus_diag. lra.
Qed.

Lemma calculateStats_std_zero_witness :
  st_std (calculateStats [5; 5; 5]) = 0
  <-> (forall v, v ∈ [5; 5; 5] -> v = st_mean (calculateStats [5; 5; 5])).
Proof. apply calculateStats_std_zero. discriminate. Defined.

(** ** Correlation of a constant or unknown column *)

Lemma std_dev_constant (data : list InventoryItem) (f : InventoryItem -> R) :
  data <> [] -> (forall d1 d2, d1 ∈ data -> d2 ∈ data -> f d1 = f d2) ->
  std_dev f data = 0.
Proof.
  intros Hne Hconst.
  pose proof (data_size_pos data Hne) as Hn.
  destruct data as [|d0 data'] eqn:Ed; [done|]. rewrite <- Ed in *.
  assert (Hd0 : d0 ∈ data) by (rewrite Ed; left).
  assert (Hmean : mean f data = f d0).
  { unfold mean. rewrite (list_fmap_ext f (fun _ => f d0) data).
    - rewrite Rsum_const. field. lra.
    - intros i d Hd. apply Hconst; [by eapply list_elem_of_lookup_2 | done]. }
  unfold std_dev, covariance. rewrite Hmean.
  rewrite Rsum_all_zero; [unfold Rdiv; rewrite Rmult_0_l; apply sqrt_0|].
  apply Forall_fmap, Forall_forall. intros d Hd. simpl.
  rewrite (Hconst d d0 Hd Hd0). lra.
Qed.

(** X17.  A column that is constant over a non-empty dataset, in particular
    a column name that [getValue] does not know (it reads 0 for every item),
    has correlation 0 with every column, itself included: its whole row and
    its whole column of the matrix are 0. *)
Theorem correlation_constant_column (data : list InventoryItem)
    (columns : list string) (i j : nat) (c : string) :
  data <> [] ->
  columns !! i = Some c -> constant_column data c ->
  (j < length columns)%nat ->
  exists row_i row_j : list R,
    matrix (calculateCorrelationMatrix data columns) !! i = Some row_i
    /\ matrix (calculateCorrelationMatrix data columns) !! j = Some row_j
    /\ row_i !! j = Some 0 /\ row_j !! i = Some 0 /\ row_i !! i = Some 0.
Proof.
  intros Hne Hc Hconst Hj.
  assert (Hi : (i < length columns)%nat) by (by eapply lookup_lt_Some).
  destruct (lookup_lt_is_Some_2 columns j Hj) as [cj Hcj].
  destruct (correlation_matrix_lookup data columns i j Hi Hj) as (row_i & Hri & _ & Hij).
  destruct (correlation_matrix_lookup data columns j i Hj Hi) as (row_j & Hrj & _ & Hji).
  destruct (correlation_matrix_lookup data columns i i Hi Hi) as (row_i' & Hri' & _ & Hii).
  assert (row_i' = row_i) as -> by congruence.
  assert (Hstd : std_dev (fun d => getValue d c) data = 0)
    by (by apply std_dev_constant).
  exists row_i, row_j. split; [done|]. split; [done|].
  rewrite Hij, Hji, Hii.
  rewrite (corr_entry_pearson data columns i j c cj Hc Hcj),
          (corr_entry_pearson data columns j i cj c Hcj Hc),
          (corr_entry_pearson data columns i i c c Hc Hc).
  rewrite !pearson_degenerate by tauto. done.
Qed.

Lemma correlation_constant_column_witness :
  exists row_0 row_1 : list R,
    matrix (calculateCorrelationMatrix sample_data ["Unit cost"; "Margin"]) !! 1%nat
    = Some row_1
    /\ matrix (calculateCorrelationMatrix sample_data ["Unit cost"; "Margin"]) !! 0%nat
       = Some row_0
    /\ row_1 !! 0%nat = Some 0 /\ row_0 !! 1%nat = Some 0 /\ row_1 !! 1%nat = Some 0.
Proof.
  assert (Hconst : constant_column sample_data "Margin") by (intros d1 d2 _ _; reflexivity).
  destruct (correlation_constant_column sample_data ["Unit cost"; "Margin"] 1 0 "Margin"
              ltac:(discriminate) eq_refl Hconst ltac:(simpl; lia))
    as (row_1 & row_0 & H).
  exists row_0, row_1. exact H.
Defined.


(** ** Pagination *)

Lemma take_min_length {T : Type} (a : nat) (l : list T) :
  take (Nat.min a (length l)) l = take a l.
Proof.
  destruct (decide (a <= length l)%nat).
  - by rewrite Nat.min_l.
  - rewrite Nat.min_r, !take_ge by lia. done.
Qed.

Lemma paginatedData_nat {T : Type} (l : list T) (q : nat) :
  paginatedData l (Z.of_nat q + 1) = take 10 (drop (10 * q) l).
Proof.
  unfold paginatedData, Array_slice, itemsPerPage. cbv zeta.
  rewrite !decide_False by lia.
  destruct (decide (10 * q <= length l)%nat) as [Hle|Hgt].
  - replace (Z.to_nat (Z.min ((Z.of_nat q + 1 - 1) * 10) (Z.of_nat (length l))))
      with (10 * q)%nat by lia.
    replace (Z.to_nat (Z.min ((Z.of_nat q + 1) * 10) (Z.of_nat (length l))
                       - Z.min ((Z.of_nat q + 1 - 1) * 10) (Z.of_nat (length l))))
      with (Nat.min 10 (length (drop (10 * q) l))) by (rewrite length_drop; lia).
    apply take_min_length.
  - replace (Z.to_nat (Z.min ((Z.of_nat q + 1 - 1) * 10) (Z.of_nat (length l))))
      with (length l) by lia.
    rewrite !drop_ge by lia. by rewrite !take_nil.
Qed.

Lemma pages_concat {T : Type} (l : list T) (m : nat) :
  concat ((fun q => take 10 (drop (10 * q) l)) <$> seq 0 m) = take (10 * m) l.
Proof.
  induction m as [|m IH]; [by rewrite Nat.mul_0_r, take_0|].
  rewrite seq_S, fmap_app, concat_app, IH. simpl.
  rewrite app_nil_r, take_take_drop. f_equal. lia.
Qed.

Lemma totalPages_bounds {T : Type} (l : list T) :
  (0 <= totalPages l)%Z
  /\ (Z.of_nat (length l) <= 10 * totalPages l)%Z
  /\ (10 * (totalPages l - 1) < Z.of_nat (length l))%Z.
Proof.
  unfold totalPages, itemsPerPage.
  pose proof (Zceil_bound (INR (length l) / 10)) as [Hlo Hhi].
  pose proof (pos_INR (length l)) as Hn.
  set (P := Zceil (INR (length l) / 10)) in *.
  rewrite INR_IZR_INZ in *.
  split; [|split].
  - apply Z.lt_succ_r. apply lt_IZR. rewrite succ_IZR. lra.
  - apply le_IZR. rewrite mult_IZR. lra.
  - apply lt_IZR. rewrite mult_IZR, minus_IZR. lra.
Qed.

(** X18.  The pages partition the table: the page count is
    [ceil(n / 10)], the pages [1 .. totalPages] put one after the other give
    back the whole list, every page has at most 10 rows, row [k] of page [p]
    is row [(p-1)*10 + k] of the list, no page up to [totalPages] is empty
    and every later page is. *)
Theorem pagination_partition {T : Type} (filteredData : list T) :
  let pages := totalPages filteredData in
  (0 <= pages)%Z
  /\ concat ((fun p => paginatedData filteredData p) <$> seqZ 1 pages) = filteredData
  /\ forall p : Z, (1 <= p)%Z ->
       (length (paginatedData filteredData p) <= 10)%nat
       /\ (forall k : nat, (k < 10)%nat ->
             paginatedData filteredData p !! k
             = filteredData !! (Z.to_nat ((p - 1) * 10) + k)%nat)
       /\ ((p <= pages)%Z -> paginatedData filteredData p <> [])
       /\ ((pages < p)%Z -> paginatedData filteredData p = []).
Proof.
  intros pages.
  destruct (totalPages_bounds filteredData) as (H0 & Hcover & Hlast).
  fold pages in H0, Hcover, Hlast.
  split; [done|]. split.
  - unfold seqZ. rewrite <- list_fmap_compose.
    rewrite (list_fmap_ext _ (fun q => take 10 (drop (10 * q) filteredData))
               (seq 0 (Z.to_nat pages))).
    + rewrite pages_concat. apply take_ge. lia.
    + intros i q _. simpl. by rewrite paginatedData_nat.
  - intros p Hp.
    replace p with (Z.of_nat (Z.to_nat (p - 1)) + 1)%Z by lia.
    rewrite paginatedData_nat.
    set (q := Z.to_nat (p - 1)).
    split; [rewrite length_take; lia|].
    split; [|split].
    + intros k Hk. rewrite lookup_take_lt by done. rewrite lookup_drop.
      f_equal. lia.
    + intros Hle Hnil.
      assert (Hlen : length (take 10 (drop (10 * q) filteredData)) = 0%nat)
        by (by rewrite Hnil).
      rewrite length_take, length_drop in Hlen.
      lia.
    + intros Hgt. rewrite drop_ge by lia. apply take_nil.
Qed.

Lemma pagination_partition_witness :
  paginatedData (seq 0 25) 3 !! 2%nat = Some 22%nat
  /\ (length (paginatedData (seq 0 25) 3) <= 10)%nat.
Proof.
  destruct (pagination_partition (seq 0 25)) as (_ & _ & Hall).
  destruct (Hall 3%Z ltac:(lia)) as (Hlen & Hrow & _ & _).
  split; [|exact Hlen].
  rewrite (Hrow 2%nat ltac:(lia)). reflexivity.
Defined.


(** ** The store *)

(** What holds in every state the store can be in. *)
Lemma store_apply_invariant (a : StoreAction) (s : AnalysisState) :
  ((isDataLoaded s = true -> rawData s <> [])
   /\ isTopsisCalculated s = false /\ isFuzzyCalculated s = false
   /\ (isMLCalculated s = true <-> mlMetrics s <> None)) ->
  (isDataLoaded (store_apply a s) = true -> rawData (store_apply a s) <> [])
  /\ isTopsisCalculated (store_apply a s) = false
  /\ isFuzzyCalculated (store_apply a s) = false
  /\ (isMLCalculated (store_apply a s) = true <-> mlMetrics (store_apply a s) <> None).
Proof.
  intros (HD & HT & HF & HM).
  destruct a; simpl; repeat split; try done; try tauto; try apply HM.
  intros H%bool_decide_eq_true. destruct data; [simpl in H; lia | done].
Qed.

Lemma store_run_invariant (actions : list StoreAction) (s0 : AnalysisState) :
  ((isDataLoaded s0 = true -> rawData s0 <> [])
   /\ isTopsisCalculated s0 = false /\ isFuzzyCalculated s0 = false
   /\ (isMLCalculated s0 = true <-> mlMetrics s0 <> None)) ->
  (isDataLoaded (store_run actions s0) = true -> rawData (store_run actions s0) <> [])
  /\ isTopsisCalculated (store_run actions s0) = false
  /\ isFuzzyCalculated (store_run actions s0) = false
  /\ (isMLCalculated (store_run actions s0) = true
      <-> mlMetrics (store_run actions s0) <> None).
Proof.
  unfold store_run. revert s0. induction actions as [|a actions IH]; intros s0 H0; [done|].
  simpl. apply IH. by apply store_apply_invariant.
Qed.

Lemma store_run_loaded (actions : list StoreAction) (s0 : AnalysisState) :
  (rawData s0 <> [] -> isDataLoaded s0 = true) ->
  rawData (store_run actions s0) <> [] -> isDataLoaded (store_run actions s0) = true.
Proof.
  unfold store_run. revert s0. induction actions as [|a actions IH]; intros s0 H0; [done|].
  simpl. apply IH. destruct a; simpl; try done.
  intros Hd. apply bool_decide_eq_true. destruct data; [done | simpl; lia].
Qed.

(** X19.  Whatever sequence of actions the store receives, starting fresh
    or from a rehydrated persisted slice: when [isDataLoaded] is set the raw
    data is not empty, [isMLCalculated] is set exactly when ML metrics are
    present, and [isTopsisCalculated] and [isFuzzyCalculated] are never set
    (no action writes them but the reset).  Started fresh (nothing
    persisted), [isDataLoaded] is set exactly when the raw data is not
    empty. *)
Theorem store_invariants (persisted : option PersistedState)
    (actions : list StoreAction) :
  let start := match persisted with
               | Some p => rehydrate p store_initial
               | None => store_initial
               end in
  let s := store_run actions start in
  (isDataLoaded s = true -> rawData s <> [])
  /\ isTopsisCalculated s = false /\ isFuzzyCalculated s = false
  /\ (isMLCalculated s = true <-> mlMetrics s <> None)
  /\ (persisted = None -> (isDataLoaded s = true <-> rawData s <> [])).
Proof.
  intros start s.
  assert (Hstart : (isDataLoaded start = true -> rawData start <> [])
             /\ isTopsisCalculated start = false /\ isFuzzyCalculated start = false
             /\ (isMLCalculated start = true <-> mlMetrics start <> None)).
  { unfold start. destruct persisted; simpl; repeat split; done. }
  destruct (store_run_invariant actions start Hstart) as (H1 & H2 & H3 & H4).
  split; [done|]. split; [done|]. split; [done|]. split; [done|].
  intros Hp. split; [done|]. subst s start. rewrite Hp.
  by apply store_run_loaded.
Qed.


Lemma store_invariants_witness :
  isDataLoaded (store_run [setRawData sample_data; resetAnalysis; setRawData sample_data]
                  store_initial) = true
  <-> rawData (store_run [setRawData sample_data; resetAnalysis; setRawData sample_data]
                 store_initial) <> [].
Proof.
  destruct (store_invariants None
              [setRawData sample_data; resetAnalysis; setRawData sample_data])
    as (_ & _ & _ & _ & H).
  exact (H eq_refl).
Defined.

(** ** Editing the configuration *)

Lemma clamp_unit (value : R) : 0 <= Rmax 0 (Rmin 1 value) <= 1.
Proof.
  split; [apply Rmax_l|].
  apply Rmax_lub; [lra | apply Rmin_l].
Qed.






(** ** The crisp pipeline end to end *)

Lemma fmap_imap_same {X Y : Type} (g : X -> Y) (f : nat -> X -> X) (l : list X) :
  (forall i x, g (f i x) = g x) -> g <$> imap f l = g <$> l.
Proof.
  intros H. rewrite fmap_imap, <- (imap_const g). apply imap_ext. intros i x _. apply H.
Qed.

Lemma Forall_imap_intro {X Y : Type} (P : Y -> Prop) (f : nat -> X -> Y) (l : list X) :
  (forall i x, l !! i = Some x -> P (f i x)) -> Forall P (imap f l).
Proof.
  intros H. apply Forall_forall. intros y Hy.
  apply elem_of_lookup_imap in Hy as (i & x & -> & Hx). by apply H.
Qed.

Lemma runTOPSIS_result_fields (rawData : list InventoryItem) (mappingTables : MappingTable)
    (aggregationWeights : AggregationWeights) (abcThresholds : Thresholds) :
  Forall crisp_fields_present
    (snd (runTOPSIS_result rawData mappingTables aggregationWeights abcThresholds)).
Proof.
  unfold runTOPSIS_result. cbn [snd]. rewrite classifyABC_unfold. cbv zeta.
  apply Forall_imap_intro. intros i x Hx.
  apply list_elem_of_lookup_2 in Hx. rewrite Array_sort_Permutation in Hx.
  unfold calculateTOPSIS in Hx.
  apply elem_of_lookup_imap in Hx as (i3 & x3 & -> & Hx3).
  unfold calculateAggregations in Hx3.
  apply list_elem_of_lookup_2, elem_of_lookup_imap in Hx3 as (i2 & x2 & -> & Hx2).
  unfold applyMappings in Hx2.
  apply list_elem_of_lookup_2, list_elem_of_fmap in Hx2 as (x1 & -> & _).
  unfold crisp_fields_present. simpl. repeat split; eauto.
Qed.

(** X22.  One run of the crisp pipeline on raw data returns the same items
    (as many, and with the same identities and raw attributes, up to the
    order), each with its four scores, three aggregates, TOPSIS score and
    class present; the run stores the entropy weights and this list and
    leaves the raw data and the configuration of the store as they were. *)
Theorem runTOPSIS_end_to_end (s : AnalysisState) :
  let result := runTOPSIS_result (rawData s) (mappingTables s) (aggregationWeights s)
                  (abcThresholds s) in
  let classified := snd result in
  length classified = length (rawData s)
  /\ raw_record <$> classified ≡ₚ raw_record <$> rawData s
  /\ Forall crisp_fields_present classified
  /\ entropyWeights (runTOPSIS s) = Some (fst result)
  /\ processedData (runTOPSIS s) = classified
  /\ rawData (runTOPSIS s) = rawData s
  /\ partialize (runTOPSIS s) = partialize (store_apply (setProcessedData classified) s).
Proof.
  intros result classified.
  unfold result, runTOPSIS_result in classified. cbv zeta in classified. simpl in classified.
  set (mapped := applyMappings (rawData s) (mappingTables s)) in *.
  set (aggregated := calculateAggregations mapped (aggregationWeights s)) in *.
  set (weights := calculateEntropyWeights aggregated) in *.
  set (topsisResults := calculateTOPSIS aggregated weights) in *.
  assert (Hcls : classified =
            imap (fun idx item =>
                    set_class SF_TOPSIS_Score item
                      (rank_class
                         (Zfloor (INR (length topsisResults) * th_A (abcThresholds s) / 100))
                         (Zfloor (INR (length topsisResults) *
                                  (th_A (abcThresholds s) + th_B (abcThresholds s)) / 100))
                         idx))
                 (Array_sort (fun a b => getValue b "TOPSIS_Score" - getValue a "TOPSIS_Score")
                             topsisResults)).
  { unfold classified. by rewrite classifyABC_unfold. }
  set (sorted := Array_sort _ topsisResults) in Hcls.
  assert (Hperm : sorted ≡ₚ topsisResults) by apply Array_sort_Permutation.
  assert (Hraw3 : raw_record <$> topsisResults = raw_record <$> rawData s).
  { unfold topsisResults, calculateTOPSIS. rewrite fmap_imap_same by done.
    unfold aggregated, calculateAggregations. rewrite fmap_imap_same by done.
    unfold mapped, applyMappings. rewrite <- list_fmap_compose. by apply list_fmap_ext. }
  split; [|split; [|split]].
  - unfold classified. rewrite classifyABC_length.
    unfold topsisResults, calculateTOPSIS. rewrite length_imap.
    unfold aggregated, calculateAggregations. rewrite length_imap.
    apply applyMappings_length.
  - rewrite Hcls, fmap_imap_same by done. by rewrite Hperm, Hraw3.
  - apply (runTOPSIS_result_fields (rawData s) (mappingTables s) (aggregationWeights s)
             (abcThresholds s)).
  - by repeat split.
Qed.


(** ** The simulated classifier *)

Lemma with_ML_Predicted_Class_frame (item : InventoryItem) (v : option string) :
  unchanged_except [F_ML_Predicted_Class] item (with_ML_Predicted_Class item v)
  /\ same_raw item (with_ML_Predicted_Class item v).
Proof. solve_frame. Qed.

Lemma predict_fst (random : Random) (k : nat) (item : InventoryItem) :
  exists v, fst (predict random k item) = with_ML_Predicted_Class item v.
Proof. unfold predict. cbv zeta. case_decide; simpl; eauto. Qed.

Lemma random_index (r : R) :
  0 <= r < 1 -> Zfloor (r * 3) = 0%Z \/ Zfloor (r * 3) = 1%Z \/ Zfloor (r * 3) = 2%Z.
Proof.
  intros Hr. pose proof (Zfloor_bound (r * 3)) as [Hlo Hhi].
  assert (H0 : (-1 < Zfloor (r * 3))%Z) by (apply lt_IZR; simpl; lra).
  assert (H3 : (Zfloor (r * 3) < 3)%Z) by (apply lt_IZR; simpl; lra).
  lia.
Qed.

Lemma predict_label (random : Random) (k : nat) (item : InventoryItem) :
  random_in_range random ->
  exists c, fst (predict random k item) = with_ML_Predicted_Class item (Some (ABC_label c)).
Proof.
  intros Hr. unfold predict. cbv zeta. case_decide; simpl; [|eauto].
  destruct (random_index _ (Hr (S k))) as [E | [E | E]]; rewrite E;
    [exists A | exists B | exists C]; reflexivity.
Qed.

Lemma predictions_from_frame (random : Random) (k : nat) (data : list InventoryItem) :
  frame [F_ML_Predicted_Class] data (predictions_from random k data).
Proof.
  revert k; induction data as [|x data IH]; intros k; simpl; constructor; [|apply IH].
  destruct (predict_fst random k x) as [v ->]. apply with_ML_Predicted_Class_frame.
Qed.

Lemma predictions_from_labels (random : Random) (k : nat) (data : list InventoryItem) :
  random_in_range random ->
  Forall (fun p => exists c, ML_Predicted_Class p = Some (ABC_label c))
         (predictions_from random k data).
Proof.
  intros Hr. revert k; induction data as [|x data IH]; intros k; simpl; constructor;
    [|apply IH].
  destruct (predict_label random k x Hr) as [c ->]. by exists c.
Qed.

Lemma predictions_from_length (random : Random) (k : nat) (data : list InventoryItem) :
  length (predictions_from random k data) = length data.
Proof. revert k; induction data as [|x data IH]; intros k; simpl; [done|]. by rewrite IH. Qed.

(** X23.  The simulated classifier returns one prediction per item, in the
    order of the input, and a prediction differs from its item in
    [ML_Predicted_Class] only; with random values in [[0, 1)] the predicted
    class is one of the three labels A, B, C. *)
Theorem simulateMLClassification_predictions (random : Random)
    (data : list InventoryItem) :
  random_in_range random ->
  let predictions := fst (simulateMLClassification random data) in
  length predictions = length data
  /\ frame [F_ML_Predicted_Class] data predictions
  /\ Forall (fun p => exists label, label ∈ classLabels
                                    /\ ML_Predicted_Class p = Some label) predictions.
Proof.
  intros Hr predictions. unfold predictions, simulateMLClassification. simpl.
  split; [apply predictions_from_length|]. split; [apply predictions_from_frame|].
  eapply Forall_impl; [by apply predictions_from_labels|].
  intros p [c Hc]. exists (ABC_label c). split; [|done].
  unfold classLabels. destruct c; simpl; set_solver.
Qed.

Lemma simulateMLClassification_predictions_witness :
  random_in_range sample_random
  /\ length (fst (simulateMLClassification sample_random sample_classified)) = 3%nat.
Proof.
  assert (Hr : random_in_range sample_random) by (intros k; unfold sample_random; lra).
  split; [exact Hr|].
  exact (proj1 (simulateMLClassification_predictions sample_random sample_classified Hr)).
Defined.


Lemma length_filter_cons {X : Type} (P : X -> Prop) `{forall x, Decision (P x)}
    (x : X) (l : list X) :
  length (filter P (x :: l)) =
  ((if decide (P x) then 1 else 0) + length (filter P l))%nat.
Proof. rewrite filter_cons. by destruct (decide (P x)). Qed.

Lemma ABC_label_inj (c c' : ABC) : ABC_label c = ABC_label c' -> c = c'.
Proof. by destruct c, c'. Qed.

Lemma ml_totalCorrect_diagonal (l : list InventoryItem) :
  ml_totalCorrect (ml_confusionMatrix l) =
  (length (filter (confusion_cell "A" "A") l) + length (filter (confusion_cell "B" "B") l)
   + length (filter (confusion_cell "C" "C") l))%nat.
Proof. unfold ml_totalCorrect, reduce, ml_confusionMatrix. simpl. lia. Qed.

Lemma ml_diagonal_le_length (l : list InventoryItem) :
  (length (filter (confusion_cell "A" "A") l) + length (filter (confusion_cell "B" "B") l)
   + length (filter (confusion_cell "C" "C") l) <= length l)%nat.
Proof.
  induction l as [|x l IH]; [simpl; lia|].
  rewrite !length_filter_cons. simpl length.
  repeat case_decide; unfold confusion_cell in *; try lia;
    exfalso; destruct_and!; congruence.
Qed.

Lemma ml_accuracy_unit (l : list InventoryItem) :
  l <> [] -> 0 <= accuracy (ml_metrics l) <= 1.
Proof.
  intros Hl. simpl. apply Rdiv_unit_interval.
  - split; [apply pos_INR|]. apply le_INR.
    rewrite ml_totalCorrect_diagonal. apply ml_diagonal_le_length.
  - apply lt_0_INR. destruct l; [done | simpl; lia].
Qed.

Lemma ml_precision_unit (cm : list (list nat)) (i : nat) : 0 <= ml_precision cm i <= 1.
Proof.
  unfold ml_precision. cbv zeta. case_decide as Hpos; [|lra].
  apply Rdiv_unit_interval; [|by apply lt_0_INR].
  split; [apply pos_INR | apply le_INR; lia].
Qed.

Lemma ml_recall_unit (cm : list (list nat)) (i : nat) : 0 <= ml_recall cm i <= 1.
Proof.
  unfold ml_recall. cbv zeta. case_decide as Hpos; [|lra].
  apply Rdiv_unit_interval; [|by apply lt_0_INR].
  split; [apply pos_INR | apply le_INR; lia].
Qed.

Lemma ml_f1Score_unit (cm : list (list nat)) (i : nat) : 0 <= ml_f1Score cm i <= 1.
Proof.
  unfold ml_f1Score. cbv zeta.
  pose proof (ml_precision_unit cm i) as Hp. pose proof (ml_recall_unit cm i) as Hr.
  case_decide as Hpos; [|lra].
  apply Rdiv_unit_interval; [|done]. split; nra.
Qed.

(** X24.  The metrics of the simulated classifier on a non-empty list: the
    accuracy is the share of the diagonal of the confusion matrix and lies
    in [[0, 1]]; precision, recall and F1 of each class lie in [[0, 1]]
    (they are 0 when their denominator is 0); the confusion matrix has
    three rows of three counts. *)
Theorem simulateMLClassification_metrics_bounds (random : Random)
    (data : list InventoryItem) :
  data <> [] ->
  let metrics := snd (simulateMLClassification random data) in
  0 <= accuracy metrics <= 1
  /\ accuracy metrics * INR (length data)
     = INR (ml_tp (confusionMatrix metrics) 0 + ml_tp (confusionMatrix metrics) 1
            + ml_tp (confusionMatrix metrics) 2)
  /\ (forall label, label ∈ classLabels ->
        0 <= Record_get (precision metrics) label <= 1
        /\ 0 <= Record_get (recall metrics) label <= 1
        /\ 0 <= Record_get (f1Score metrics) label <= 1)
  /\ length (confusionMatrix metrics) = 3%nat
  /\ Forall (fun row => length row = 3%nat) (confusionMatrix metrics).
Proof.
  intros Hdata metrics. unfold metrics, simulateMLClassification. cbn [snd].
  set (predictions := predictions_from random 0 data).
  assert (Hlen : length predictions = length data) by apply predictions_from_length.
  assert (Hne : predictions <> []).
  { intros E. rewrite E in Hlen. destruct data; [done | simpl in Hlen; lia]. }
  split; [by apply ml_accuracy_unit|].
  split.
  { cbn [accuracy ml_metrics confusionMatrix]. rewrite ml_totalCorrect_diagonal, Hlen.
    assert (Hn : 0 < INR (length data)).
    { apply lt_0_INR. destruct data; [done | simpl; lia]. }
    unfold Rdiv. rewrite Rmult_assoc, Rinv_l, Rmult_1_r by lra. reflexivity. }
  split.
  { intros label Hl. unfold classLabels in Hl.
    apply elem_of_cons in Hl as [-> | Hl]; [|apply elem_of_cons in Hl as [-> | Hl];
      [|apply list_elem_of_singleton in Hl as ->]];
      (split; [apply ml_precision_unit | split; [apply ml_recall_unit | apply ml_f1Score_unit]]). }
  split; [done|]. by repeat constructor.
Qed.

Lemma simulateMLClassification_metrics_bounds_witness :
  sample_classified <> []
  /\ 0 <= accuracy (snd (simulateMLClassification sample_random sample_classified)) <= 1.
Proof.
  assert (H : sample_classified <> []) by done.
  split; [exact H|].
  exact (proj1 (simulateMLClassification_metrics_bounds sample_random sample_classified H)).
Defined.


Lemma comparisonSummary_from (l : list InventoryItem) (k : nat) (acc : ComparisonSummary) :
  reduce_from (fun acc item (_ : nat) =>
            let acc1 := mkComparisonSummary (S (sm_total acc)) (sm_match acc)
                          (sm_fuzzyMatch acc) in
            let acc2 := if decide (ABC_label <$> Class item = ML_Predicted_Class item)
                        then mkComparisonSummary (sm_total acc1) (S (sm_match acc1))
                               (sm_fuzzyMatch acc1)
                        else acc1 in
            if decide (Class item = Fuzzy_Class item)
            then mkComparisonSummary (sm_total acc2) (sm_match acc2) (S (sm_fuzzyMatch acc2))
            else acc2) k l acc
  = {| sm_total := sm_total acc + length l;
       sm_match := sm_match acc
                   + length (filter (fun item => ABC_label <$> Class item
                                                 = ML_Predicted_Class item) l);
       sm_fuzzyMatch := sm_fuzzyMatch acc
                        + length (filter (fun item => Class item = Fuzzy_Class item) l) |}.
Proof.
  revert k acc; induction l as [|x l IH]; intros k acc.
  - destruct acc; simpl. f_equal; lia.
  - cbn [reduce_from]. rewrite IH, !length_filter_cons. cbv zeta.
    repeat case_decide; simpl; f_equal; lia.
Qed.

Lemma comparisonSummary_counts (l : list InventoryItem) :
  comparisonSummary l =
  {| sm_total := length l;
     sm_match := length (filter (fun item => ABC_label <$> Class item
                                             = ML_Predicted_Class item) l);
     sm_fuzzyMatch := length (filter (fun item => Class item = Fuzzy_Class item) l) |}.
Proof. unfold comparisonSummary, reduce. by rewrite comparisonSummary_from. Qed.

Lemma ml_match_diagonal (l : list InventoryItem) :
  Forall (fun p => exists c, ML_Predicted_Class p = Some (ABC_label c)) l ->
  length (filter (fun item => ABC_label <$> Class item = ML_Predicted_Class item) l) =
  (length (filter (confusion_cell "A" "A") l) + length (filter (confusion_cell "B" "B") l)
   + length (filter (confusion_cell "C" "C") l))%nat.
Proof.
  induction 1 as [|x l [c Hc] _ IH]; [done|].
  rewrite !length_filter_cons, IH.
  repeat case_decide; unfold confusion_cell in *; try lia; exfalso;
    destruct (Class x) as [[]|]; destruct c; simpl in *; intuition congruence.
Qed.

Lemma predictions_from_fuzzy_matches (random : Random) (k : nat)
    (data : list InventoryItem) :
  length (filter (fun item => Class item = Fuzzy_Class item)
                 (predictions_from random k data)) =
  length (filter (fun item => Class item = Fuzzy_Class item) data).
Proof.
  revert k; induction data as [|x data IH]; intros k; [done|].
  cbn [predictions_from]. rewrite !length_filter_cons, IH.
  by destruct (predict_fst random k x) as [v ->].
Qed.

(** X25.  The comparison table of the ML screen agrees with the metrics:
    on the predictions for a non-empty list, with random values in
    [[0, 1)], the stored accuracy is the share [match / total] the table
    shows; the table counts every item, and the number of items whose fuzzy
    class equals their class is the one before the prediction. *)
Theorem comparisonSummary_accuracy (random : Random) (data : list InventoryItem) :
  random_in_range random -> data <> [] ->
  let result := simulateMLClassification random data in
  let summary := comparisonSummary (fst result) in
  sm_total summary = length data
  /\ accuracy (snd result) = INR (sm_match summary) / INR (sm_total summary)
  /\ sm_fuzzyMatch summary = sm_fuzzyMatch (comparisonSummary data).
Proof.
  intros Hr Hdata result summary.
  unfold summary, result, simulateMLClassification. cbn [fst snd].
  rewrite !comparisonSummary_counts. cbn [sm_total sm_match sm_fuzzyMatch].
  split; [apply predictions_from_length|].
  split; [|apply predictions_from_fuzzy_matches].
  cbn [accuracy ml_metrics]. rewrite ml_totalCorrect_diagonal.
  by rewrite (ml_match_diagonal _ (predictions_from_labels random 0 data Hr)).
Qed.

Lemma comparisonSummary_accuracy_witness :
  random_in_range sample_random /\ sample_classified <> []
  /\ sm_total (comparisonSummary (fst (simulateMLClassification sample_random
                                         sample_classified))) = 3%nat.
Proof.
  assert (Hr : random_in_range sample_random) by (intros k; unfold sample_random; lra).
  assert (H : sample_classified <> []) by done.
  split; [exact Hr|]. split; [exact H|].
  exact (proj1 (comparisonSummary_accuracy sample_random sample_classified Hr H)).
Defined.


Lemma predictions_from_no_misdraw (random : Random) (k : nat) (data : list InventoryItem) :
  (forall i, random i <= 0.92) ->
  predictions_from random k data =
  (fun item => with_ML_Predicted_Class item (Some (ABC_label (default C (Class item)))))
    <$> data.
Proof.
  intros Hr. revert k; induction data as [|x data IH]; intros k; [done|].
  cbn [predictions_from]. rewrite fmap_cons, IH. f_equal.
  unfold predict. cbv zeta. pose proof (Hr k). case_decide; [lra | done].
Qed.

Lemma count_class_filter (c : ABC) (l : list InventoryItem) :
  count_class c l = length (filter (fun item => Class item = Some c) l).
Proof. unfold count_class. apply length_filter_fmap. Qed.

Lemma ml_cell_no_misdraw (a p : ABC) (data : list InventoryItem) :
  length (filter (confusion_cell (ABC_label a) (ABC_label p))
            ((fun item => with_ML_Predicted_Class item
                            (Some (ABC_label (default C (Class item))))) <$> data))
  = if decide (a = p) then count_class a data else 0%nat.
Proof.
  rewrite count_class_filter.
  induction data as [|x data IH].
  - by case_decide.
  - rewrite fmap_cons, !length_filter_cons, IH.
    repeat case_decide; unfold confusion_cell in *; simpl in *; try lia; exfalso;
      destruct (Class x) as [c|]; destruct a, p; try destruct c; simpl in *;
      intuition congruence.
Qed.

Lemma ml_confusionMatrix_no_misdraw (data : list InventoryItem) :
  ml_confusionMatrix
    ((fun item => with_ML_Predicted_Class item
                    (Some (ABC_label (default C (Class item))))) <$> data)
  = [ [count_class A data; 0%nat; 0%nat];
      [0%nat; count_class B data; 0%nat];
      [0%nat; 0%nat; count_class C data] ].
Proof.
  unfold ml_confusionMatrix, classLabels. rewrite !fmap_cons, !fmap_nil.
  repeat f_equal;
    first [ apply (ml_cell_no_misdraw A A) | apply (ml_cell_no_misdraw A B)
          | apply (ml_cell_no_misdraw A C) | apply (ml_cell_no_misdraw B A)
          | apply (ml_cell_no_misdraw B B) | apply (ml_cell_no_misdraw B C)
          | apply (ml_cell_no_misdraw C A) | apply (ml_cell_no_misdraw C B)
          | apply (ml_cell_no_misdraw C C) ].
Qed.

Lemma count_class_total (l : list InventoryItem) :
  Forall (fun item => is_Some (Class item)) l ->
  (count_class A l + count_class B l + count_class C l = length l)%nat.
Proof.
  rewrite !count_class_filter.
  induction 1 as [|x l [c Hc] _ IH]; [done|].
  rewrite !length_filter_cons. simpl length. rewrite Hc.
  destruct c; repeat case_decide; try lia; exfalso; intuition congruence.
Qed.




Lemma classifyABC_head_classified (data : list InventoryItem) (thresholds : Thresholds) :
  data <> [] ->
  exists first rest c,
    classifyABC data thresholds SF_TOPSIS_Score = first :: rest /\ Class first = Some c.
Proof.
  intros Hdata. rewrite classifyABC_unfold. cbv zeta.
  pose proof (Array_sort_length
                (fun a b => getValue b (ScoreField_key SF_TOPSIS_Score)
                            - getValue a (ScoreField_key SF_TOPSIS_Score)) data) as Hlen.
  destruct (Array_sort _ data) as [|x sorted].
  - destruct data; [done | simpl in Hlen; lia].
  - rewrite imap_cons. eexists _, _, _. split; [reflexivity|]. reflexivity.
Qed.

Lemma runTOPSIS_length (rawData : list InventoryItem) (mappingTables : MappingTable)
    (aggregationWeights : AggregationWeights) (abcThresholds : Thresholds) :
  length (snd (runTOPSIS_result rawData mappingTables aggregationWeights abcThresholds))
  = length rawData.
Proof.
  unfold runTOPSIS_result. cbn [snd]. rewrite classifyABC_length.
  unfold calculateTOPSIS. rewrite length_imap.
  unfold calculateAggregations. rewrite length_imap.
  apply applyMappings_length.
Qed.

(** X27.  The ML screen after the TOPSIS screen.  With no raw data the
    TOPSIS run stores an empty list and [runMLClassification] returns
    without touching the store.  With raw data the guard passes (the first
    item is classified): the predictions replace the processed list, item
    by item and differing in [ML_Predicted_Class] only, the metrics are
    stored with an accuracy in [[0, 1]] and [isMLCalculated] is set; the raw
    data and the entropy weights stay. *)
Theorem runMLClassification_after_runTOPSIS (random : Random) (s : AnalysisState) :
  let s1 := runTOPSIS s in
  let s2 := runMLClassification random s1 in
  match rawData s with
  | [] => s2 = s1
  | _ :: _ =>
      isMLCalculated s2 = true
      /\ (exists m, mlMetrics s2 = Some m /\ 0 <= accuracy m <= 1)
      /\ length (processedData s2) = length (rawData s)
      /\ frame [F_ML_Predicted_Class] (processedData s1) (processedData s2)
      /\ rawData s2 = rawData s
      /\ entropyWeights s2 = entropyWeights s1
  end.
Proof.
  intros s1 s2.
  set (result := runTOPSIS_result (rawData s) (mappingTables s) (aggregationWeights s)
                   (abcThresholds s)).
  assert (Hp : processedData s1 = snd result) by reflexivity.
  assert (Hlen : length (processedData s1) = length (rawData s)).
  { rewrite Hp. apply runTOPSIS_length. }
  destruct (rawData s) as [|r raw] eqn:Hraw.
  - unfold s2, runMLClassification.
    destruct (processedData s1); [done | simpl in Hlen; lia].
  - assert (Hclass : exists first rest c,
              processedData s1 = first :: rest /\ Class first = Some c).
    { rewrite Hp. unfold result, runTOPSIS_result. cbn [snd].
      apply classifyABC_head_classified.
      intros E. apply (f_equal length) in E.
      unfold calculateTOPSIS, calculateAggregations in E.
      rewrite !length_imap, applyMappings_length in E. simpl in E. lia. }
    destruct Hclass as (first & rest & c & Hdata & Hc).
    assert (Hs2 : s2 = store_run
                         [setProcessedData
                            (fst (simulateMLClassification random (processedData s1)));
                          setMLMetrics
                            (snd (simulateMLClassification random (processedData s1)))] s1).
    { unfold s2, runMLClassification. rewrite Hdata. cbv zeta. by rewrite Hc. }
    rewrite Hs2. cbn [store_run foldl store_apply isMLCalculated mlMetrics processedData
                      rawData entropyWeights].
    split; [done|]. split.
    { eexists. split; [reflexivity|]. cbn [snd simulateMLClassification].
      apply ml_accuracy_unit. intros E.
      pose proof (predictions_from_length random 0 (processedData s1)) as Hl.
      rewrite E, Hdata in Hl. simpl in Hl. lia. }
    cbn [fst simulateMLClassification].
    split; [by rewrite predictions_from_length, Hlen|].
    split; [apply predictions_from_frame|]. split; [|done].
    unfold s1, runTOPSIS. simpl. by rewrite Hraw.
Qed.


(** ** The fuzzy screen after the crisp one *)

Lemma runFuzzyTOPSIS_processedData (localTFN : FuzzyTFN) (s : AnalysisState) :
  processedData (runFuzzyTOPSIS localTFN s) =
  classifyABC (calculateFuzzyTOPSIS (processedData s) localTFN) (abcThresholds s)
              SF_Fuzzy_TOPSIS_Score.
Proof.
  unfold runFuzzyTOPSIS. destruct (processedData s) eqn:E; [by rewrite E | done].
Qed.

Lemma runFuzzyTOPSIS_rest (localTFN : FuzzyTFN) (s : AnalysisState) :
  rawData (runFuzzyTOPSIS localTFN s) = rawData s
  /\ entropyWeights (runFuzzyTOPSIS localTFN s) = entropyWeights s
  /\ fuzzyTFN (runFuzzyTOPSIS localTFN s) = fuzzyTFN s
  /\ abcThresholds (runFuzzyTOPSIS localTFN s) = abcThresholds s.
Proof. unfold runFuzzyTOPSIS. by destruct (processedData s). Qed.

Lemma fuzzy_stage_records (data : list InventoryItem) (tfn : FuzzyTFN)
    (thresholds : Thresholds) :
  crisp_record <$> classifyABC (calculateFuzzyTOPSIS data tfn) thresholds
                     SF_Fuzzy_TOPSIS_Score
  ≡ₚ crisp_record <$> data.
Proof.
  rewrite classifyABC_unfold. cbv zeta. rewrite fmap_imap_same by done.
  rewrite Array_sort_Permutation. unfold calculateFuzzyTOPSIS.
  by rewrite fmap_imap_same.
Qed.

Lemma fuzzy_stage_fields (data : list InventoryItem) (tfn : FuzzyTFN)
    (thresholds : Thresholds) :
  Forall (fun item => is_Some (Fuzzy_TOPSIS_Score item) /\ is_Some (Fuzzy_Class item))
         (classifyABC (calculateFuzzyTOPSIS data tfn) thresholds SF_Fuzzy_TOPSIS_Score).
Proof.
  rewrite classifyABC_unfold. cbv zeta.
  apply Forall_imap_intro. intros i x Hx.
  apply list_elem_of_lookup_2 in Hx. rewrite Array_sort_Permutation in Hx.
  unfold calculateFuzzyTOPSIS in Hx.
  apply elem_of_lookup_imap in Hx as (i1 & x1 & -> & _). simpl. split; eauto.
Qed.

Lemma classifyABC_descending (data : list InventoryItem) (thresholds : Thresholds)
    (scoreField : ScoreField) :
  StronglySorted (score_ge (fun item => getValue item (ScoreField_key scoreField)))
                 (classifyABC data thresholds scoreField).
Proof.
  rewrite classifyABC_unfold. cbv zeta.
  apply Sorted_StronglySorted.
  { intros a b c. unfold score_ge. lra. }
  eapply (Sorted_same_scores (fun item => getValue item (ScoreField_key scoreField))).
  - symmetry. apply fmap_imap_same. intros i x. apply getValue_set_class.
  - apply (Array_sort_Sorted (fun item => getValue item (ScoreField_key scoreField))).
Qed.

Lemma fuzzy_after_crisp_fields (localTFN : FuzzyTFN) (s : AnalysisState) :
  Forall (fun item => crisp_fields_present item
                      /\ is_Some (Fuzzy_TOPSIS_Score item)
                      /\ is_Some (Fuzzy_Class item))
         (processedData (runFuzzyTOPSIS localTFN (runTOPSIS s))).
Proof.
  assert (Hp1 : processedData (runTOPSIS s) =
                snd (runTOPSIS_result (rawData s) (mappingTables s) (aggregationWeights s)
                       (abcThresholds s))) by reflexivity.
  assert (Hperm := fuzzy_stage_records (processedData (runTOPSIS s)) localTFN
                     (abcThresholds (runTOPSIS s))).
  pose proof (fuzzy_stage_fields (processedData (runTOPSIS s)) localTFN
                (abcThresholds (runTOPSIS s))) as Hf.
  rewrite <- runFuzzyTOPSIS_processedData in Hperm, Hf.
  rewrite Forall_forall in Hf. apply Forall_forall. intros x Hx.
  split; [|by apply Hf].
  apply (list_elem_of_fmap_2 crisp_record) in Hx. rewrite Hperm in Hx.
  apply list_elem_of_fmap in Hx as (y & Hxy & Hy).
  pose proof (runTOPSIS_result_fields (rawData s) (mappingTables s)
                (aggregationWeights s) (abcThresholds s)) as Hall.
  rewrite <- Hp1 in Hall. rewrite Forall_forall in Hall. specialize (Hall y Hy).
  unfold crisp_record in Hxy. unfold crisp_fields_present in *.
  injection Hxy; intros. destruct_and!. repeat split; congruence.
Qed.



(** ** The class change matrix *)

Lemma classChangeMatrix_from (rows : list ComparisonRow) (m : ABC -> ABC -> nat)
    (a b : ABC) :
  foldl (fun m item =>
           match crispClass item, fuzzyClass item with
           | Some a, Some b =>
               fun a' b' => if decide (a' = a /\ b' = b) then S (m a' b') else m a' b'
           | _, _ => m
           end) m rows a b
  = (m a b + length (filter (fun r => crispClass r = Some a /\ fuzzyClass r = Some b)
                            rows))%nat.
Proof.
  revert m; induction rows as [|r rows IH]; intros m; [simpl; lia|].
  cbn [foldl]. rewrite IH, length_filter_cons.
  destruct (crispClass r) as [a'|], (fuzzyClass r) as [b'|];
    repeat case_decide; try lia; exfalso; destruct_and?; simplify_eq; tauto.
Qed.

Lemma classChangeMatrix_counts (rows : list ComparisonRow) (a b : ABC) :
  classChangeMatrix rows a b =
  length (filter (fun r => crispClass r = Some a /\ fuzzyClass r = Some b) rows).
Proof. unfold classChangeMatrix. by rewrite classChangeMatrix_from. Qed.

Lemma filter_all {X : Type} (P : X -> Prop) `{forall x, Decision (P x)} (l : list X) :
  Forall P l -> filter P l = l.
Proof.
  induction 1 as [|x l Hx _ IH]; [done|].
  by rewrite filter_cons, decide_True, IH.
Qed.

Ltac decide_cells :=
  repeat match goal with
         | |- context [decide ?P] =>
             first [ rewrite (decide_True (P := P)) by (split; congruence)
                   | rewrite (decide_False (P := P)) by (intros [? ?]; congruence) ]
         end.

Lemma classChangeMatrix_bounds (rows : list ComparisonRow) :
  (matrix_diagonal (classChangeMatrix rows) <= matrix_total (classChangeMatrix rows)
   <= length rows)%nat.
Proof.
  unfold matrix_diagonal, matrix_total. rewrite !classChangeMatrix_counts.
  split; [lia|].
  induction rows as [|r rows IH]; [simpl; lia|].
  rewrite !length_filter_cons. simpl length.
  destruct (crispClass r) as [[]|], (fuzzyClass r) as [[]|]; decide_cells; lia.
Qed.

Lemma classChangeMatrix_total (rows : list ComparisonRow) :
  Forall (fun r => is_Some (crispClass r) /\ is_Some (fuzzyClass r)) rows ->
  matrix_total (classChangeMatrix rows) = length rows.
Proof.
  unfold matrix_total. rewrite !classChangeMatrix_counts.
  induction 1 as [|r rows [[a Ha] [b Hb]] _ IH]; [done|].
  rewrite !length_filter_cons. simpl length. rewrite Ha, Hb.
  destruct a, b; decide_cells; lia.
Qed.

Lemma classChangeMatrix_diagonal (rows : list ComparisonRow) :
  Forall (fun r => is_Some (crispClass r) /\ is_Some (fuzzyClass r)) rows ->
  matrix_diagonal (classChangeMatrix rows)
  = length (filter (fun r => crispClass r = fuzzyClass r) rows).
Proof.
  unfold matrix_diagonal. rewrite !classChangeMatrix_counts.
  induction 1 as [|r rows [[a Ha] [b Hb]] _ IH]; [done|].
  rewrite !length_filter_cons, <- IH, Ha, Hb.
  destruct a, b; decide_cells;
    try first [ rewrite decide_True by done | rewrite decide_False by congruence ]; lia.
Qed.



(** ** Column distributions *)

Lemma sum_list_Permutation (l1 l2 : list nat) : l1 ≡ₚ l2 -> sum_list l1 = sum_list l2.
Proof. induction 1; simpl; lia. Qed.

Lemma sum_values_increment (counts : gmap string nat) (k : string) :
  sum_list (snd <$> map_to_list (<[k := (default 0%nat (counts !! k) + 1)%nat]> counts))
  = (sum_list (snd <$> map_to_list counts) + 1)%nat.
Proof.
  destruct (counts !! k) as [n|] eqn:E; simpl.
  - assert (H1 : map_to_list (<[k := (n + 1)%nat]> counts)
                 ≡ₚ (k, (n + 1)%nat) :: map_to_list (delete k counts)).
    { rewrite <- (insert_delete_eq counts k). apply map_to_list_insert, lookup_delete_eq. }
    assert (H2 : (k, n) :: map_to_list (delete k counts) ≡ₚ map_to_list counts)
      by (by apply map_to_list_delete).
    rewrite (sum_list_Permutation _ _ (fmap_Permutation snd _ _ H1)).
    rewrite <- (sum_list_Permutation _ _ (fmap_Permutation snd _ _ H2)).
    rewrite !fmap_cons. cbn [snd]. unfold sum_list. simpl. lia.
  - assert (H1 : map_to_list (<[k := 1%nat]> counts) ≡ₚ (k, 1%nat) :: map_to_list counts)
      by (by apply map_to_list_insert).
    rewrite (sum_list_Permutation _ _ (fmap_Permutation snd _ _ H1)).
    rewrite !fmap_cons. cbn [snd]. unfold sum_list. simpl. lia.
Qed.

Lemma distribution_sum_from (l : list InventoryItem) (col : string)
    (counts : gmap string nat) :
  sum_list (snd <$> map_to_list
              (foldl (fun counts d =>
                        let val := getQualValue d col in
                        <[val := (default 0%nat (counts !! val) + 1)%nat]> counts)
                     counts l))
  = (sum_list (snd <$> map_to_list counts) + length l)%nat.
Proof.
  revert counts; induction l as [|d l IH]; intros counts; [simpl; lia|].
  cbn [foldl]. rewrite IH. cbv zeta. rewrite sum_values_increment. simpl. lia.
Qed.

Lemma distribution_lookup_from (l : list InventoryItem) (col : string)
    (counts : gmap string nat) (v : string) :
  (forall k n, counts !! k = Some n -> (0 < n)%nat) ->
  foldl (fun counts d =>
           let val := getQualValue d col in
           <[val := (default 0%nat (counts !! val) + 1)%nat]> counts)
        counts l !! v
  = let n := (default 0%nat (counts !! v)
              + length (filter (fun d => getQualValue d col = v) l))%nat in
    if decide (n = 0%nat) then None else Some n.
Proof.
  revert counts; induction l as [|d l IH]; intros counts Hpos; cbv zeta.
  - simpl. rewrite Nat.add_0_r. destruct (counts !! v) as [n|] eqn:E; simpl; [|done].
    specialize (Hpos v n E). case_decide; [lia | done].
  - cbn [foldl]. cbv zeta in IH. rewrite IH.
    + rewrite length_filter_cons.
      destruct (decide (getQualValue d col = v)) as [->|Hne].
      * rewrite lookup_insert_eq. simpl.
        repeat case_decide; try lia. f_equal. lia.
      * rewrite lookup_insert_ne by done. simpl. done.
    + intros k n. destruct (decide (getQualValue d col = k)) as [->|Hne].
      * rewrite lookup_insert_eq. intros [= <-]. lia.
      * rewrite lookup_insert_ne by done. apply Hpos.
Qed.

